(** * Quality gates: gate executor, runner and result reporter

    The classes [BaseQualityGate], [QualityRunner] and [ResultReporter]
    of the repository, with the part of [SecurityGate] that decides its
    status.

    JavaScript objects are finite maps from property names to values; the
    code's [async] methods are computations over an explicit world (clock,
    effect trace, storage history, the reporter object and the runner's
    [results] array) that either resolve or reject.

    Time is counted in milliseconds.  Only [execute], [sleep] and the timers
    take time; an operation that settles strictly before a deadline wins the
    race against the timer that was armed before it started. *)

From Stdlib Require Import QArith Ascii.
From stdpp Require Import base strings gmap list pretty.

#[local] Set Warnings "-register-all,-abstract-large-number".
#[local] Open Scope string_scope.
#[local] Open Scope nat_scope.

(** ** JavaScript values *)

Module Js.

Inductive JsVal :=
| VUndefined
| VNull
| VBool (b : bool)
| VNum (n : nat)
| VStr (s : string)
| VObj (o : gmap string JsVal)
| VArr (l : list JsVal).

(** Objects: [o !! k] is an own property, [<[k:=v]> o] an assignment
    [o.k = v], and [<[k:=v]> o] also the literal [{...o, k: v}]. *)
Abbreviation Obj := (gmap string JsVal).

(** [o.k]: a missing property reads as [undefined]. *)
Definition get (o : Obj) (k : string) : JsVal := default VUndefined (o !! k).

(** ToBoolean. *)
Definition truthy (v : JsVal) : bool :=
  match v with
  | VUndefined | VNull => false
  | VBool b => b
  | VNum n => negb (n =? 0)
  | VStr s => negb (String.eqb s "")
  | VObj _ | VArr _ => true
  end.

(** [a || b] *)
Definition or_else (a b : JsVal) : JsVal := if truthy a then a else b.

(** [v === 'literal'] *)
Definition is_str (v : JsVal) (lit : string) : bool :=
  match v with
  | VStr s => String.eqb s lit
  | _ => false
  end.

Definition join (sep : string) (l : list string) : string :=
  match l with
  | [] => ""
  | x :: rest => fold_left (fun acc y => acc ++ sep ++ y) rest x
  end.

(** ToString, as used for a computed property key [o[v]] and in template
    literals. *)
Fixpoint to_string (v : JsVal) : string :=
  match v with
  | VUndefined => "undefined"
  | VNull => "null"
  | VBool true => "true"
  | VBool false => "false"
  | VNum n => pretty n
  | VStr s => s
  | VObj _ => "[object Object]"
  | VArr l =>
      join "," (List.map (fun x => match x with
                                   | VUndefined | VNull => ""
                                   | _ => to_string x
                                   end) l)
  end.

(** [{...a, ...b}] where [b] is the value of a property: an object
    contributes its own properties, a missing property ([undefined])
    nothing. *)
Definition spread_into (a : Obj) (b : JsVal) : Obj :=
  match b with
  | VObj o => o ∪ a
  | _ => a
  end.

(** [Error] objects: the message and the host's stack text. *)
Record Error := { message : string; stack : string }.

(** [new Error(msg)]; the frames the host appends to [stack] are left out. *)
Definition new_Error (msg : string) : Error :=
  {| message := msg; stack := "Error: " ++ msg |}.

(** How an awaited promise settles. *)
Inductive Completion (A : Type) :=
| Resolved (a : A)
| Rejected (e : Error).
Arguments Resolved {A} a.
Arguments Rejected {A} e.

End Js.
Export Js.

(** ** Run summaries and the storage collaborator *)

(** The per-gate entry of [summary.gates]. *)
Module GateGroup.
Record t := { total : nat; passed : nat; failed : nat; results : list Obj }.

(** [{ total: 0, passed: 0, failed: 0, results: [] }] *)
Definition empty : t := {| total := 0; passed := 0; failed := 0; results := [] |}.
End GateGroup.

(** The object built by [generateSummary]; properties that are assigned
    later ([overallStatus], [score], [duration], [stored], [storageId],
    [storageError]) are absent ([None]) until then. *)
Module Summary.
Record t := {
  total : nat;
  passed : nat;
  failed : nat;
  skipped : nat;
  errors : nat;
  gates : gmap string GateGroup.t;
  timestamp : string;
  taskId : JsVal;
  overallStatus : option string;
  score : option Q;
  duration : option nat;
  stored : option bool;
  storageId : option JsVal;
  storageError : option string
}.

Definition set_passed (n : nat) (s : t) : t :=
  {| total := total s; passed := n; failed := failed s; skipped := skipped s;
     errors := errors s; gates := gates s; timestamp := timestamp s;
     taskId := taskId s; overallStatus := overallStatus s; score := score s;
     duration := duration s; stored := stored s; storageId := storageId s;
     storageError := storageError s |}.

Definition set_failed (n : nat) (s : t) : t :=
  {| total := total s; passed := passed s; failed := n; skipped := skipped s;
     errors := errors s; gates := gates s; timestamp := timestamp s;
     taskId := taskId s; overallStatus := overallStatus s; score := score s;
     duration := duration s; stored := stored s; storageId := storageId s;
     storageError := storageError s |}.

Definition set_skipped (n : nat) (s : t) : t :=
  {| total := total s; passed := passed s; failed := failed s; skipped := n;
     errors := errors s; gates := gates s; timestamp := timestamp s;
     taskId := taskId s; overallStatus := overallStatus s; score := score s;
     duration := duration s; stored := stored s; storageId := storageId s;
     storageError := storageError s |}.

Definition set_errors (n : nat) (s : t) : t :=
  {| total := total s; passed := passed s; failed := failed s;
     skipped := skipped s; errors := n; gates := gates s;
     timestamp := timestamp s; taskId := taskId s;
     overallStatus := overallStatus s; score := score s;
     duration := duration s; stored := stored s; storageId := storageId s;
     storageError := storageError s |}.

Definition set_gates (g : gmap string GateGroup.t) (s : t) : t :=
  {| total := total s; passed := passed s; failed := failed s;
     skipped := skipped s; errors := errors s; gates := g;
     timestamp := timestamp s; taskId := taskId s;
     overallStatus := overallStatus s; score := score s;
     duration := duration s; stored := stored s; storageId := storageId s;
     storageError := storageError s |}.

Definition set_verdict (status : string) (sc : Q) (s : t) : t :=
  {| total := total s; passed := passed s; failed := failed s;
     skipped := skipped s; errors := errors s; gates := gates s;
     timestamp := timestamp s; taskId := taskId s;
     overallStatus := Some status; score := Some sc;
     duration := duration s; stored := stored s; storageId := storageId s;
     storageError := storageError s |}.

Definition set_duration (d : nat) (s : t) : t :=
  {| total := total s; passed := passed s; failed := failed s;
     skipped := skipped s; errors := errors s; gates := gates s;
     timestamp := timestamp s; taskId := taskId s;
     overallStatus := overallStatus s; score := score s;
     duration := Some d; stored := stored s; storageId := storageId s;
     storageError := storageError s |}.

Definition set_stored (b : bool) (s : t) : t :=
  {| total := total s; passed := passed s; failed := failed s;
     skipped := skipped s; errors := errors s; gates := gates s;
     timestamp := timestamp s; taskId := taskId s;
     overallStatus := overallStatus s; score := score s;
     duration := duration s; stored := Some b; storageId := storageId s;
     storageError := storageError s |}.

Definition set_storageId (id : JsVal) (s : t) : t :=
  {| total := total s; passed := passed s; failed := failed s;
     skipped := skipped s; errors := errors s; gates := gates s;
     timestamp := timestamp s; taskId := taskId s;
     overallStatus := overallStatus s; score := score s;
     duration := duration s; stored := stored s; storageId := Some id;
     storageError := storageError s |}.

Definition set_storageError (msg : string) (s : t) : t :=
  {| total := total s; passed := passed s; failed := failed s;
     skipped := skipped s; errors := errors s; gates := gates s;
     timestamp := timestamp s; taskId := taskId s;
     overallStatus := overallStatus s; score := score s;
     duration := duration s; stored := stored s; storageId := storageId s;
     storageError := Some msg |}.

(** Everything but the clock reading. *)
Definition set_timestamp (ts : string) (s : t) : t :=
  {| total := total s; passed := passed s; failed := failed s;
     skipped := skipped s; errors := errors s; gates := gates s;
     timestamp := ts; taskId := taskId s;
     overallStatus := overallStatus s; score := score s;
     duration := duration s; stored := stored s; storageId := storageId s;
     storageError := storageError s |}.
End Summary.

(** What [flushBatch] returns: [{ flushed: 0 }] or the batch storage
    summary. *)
Module Flush.
Record t := { total : nat; stored : nat; failed : nat; results : list Obj }.

Inductive outcome :=
| Nothing                (* { flushed: 0 } *)
| Flushed (summary : t).
End Flush.

(** The storage collaborator.  [storeQualityResult(taskId, gateName, data)]
    resolves to an object with an [id] or rejects; what it does may depend
    on every call it has received before. *)
Module Storage.
Inductive Payload :=
| OfResult (result : Obj)
| OfSummary (summary : Summary.t).

Record Call := { taskId : JsVal; gateName : JsVal; data : Payload }.

Record Adapter := {
  storeQualityResult : list Call -> Call -> Completion JsVal
}.
End Storage.

(** ** The world the methods run in *)

Module Host.

(** The fields of a [ResultReporter] instance. *)
Record Reporter := {
  storageAdapter : option Storage.Adapter;   (* null when absent *)
  enabled : bool;
  taskId : JsVal;                            (* null when absent *)
  batchMode : bool;
  batchResults : list Obj;
  reportMetadata : Obj
}.

Definition set_taskId (v : JsVal) (r : Reporter) : Reporter :=
  {| storageAdapter := storageAdapter r; enabled := enabled r; taskId := v;
     batchMode := batchMode r; batchResults := batchResults r;
     reportMetadata := reportMetadata r |}.

Definition set_batchMode (b : bool) (r : Reporter) : Reporter :=
  {| storageAdapter := storageAdapter r; enabled := enabled r;
     taskId := taskId r; batchMode := b; batchResults := batchResults r;
     reportMetadata := reportMetadata r |}.

Definition set_batchResults (l : list Obj) (r : Reporter) : Reporter :=
  {| storageAdapter := storageAdapter r; enabled := enabled r;
     taskId := taskId r; batchMode := batchMode r; batchResults := l;
     reportMetadata := reportMetadata r |}.

Definition set_storageAdapter (a : option Storage.Adapter) (r : Reporter) : Reporter :=
  {| storageAdapter := a; enabled := enabled r; taskId := taskId r;
     batchMode := batchMode r; batchResults := batchResults r;
     reportMetadata := reportMetadata r |}.

(** What the three emitters hand to their listeners. *)
Inductive Event :=
| EvComplete (gate : string) (status : JsVal) (duration attempts : nat)
| EvRetry (gate : string) (attempt : nat) (error : string)
| EvRunStarted (gates : nat) (context : Obj)
| EvGateStarted (gate : string)
| EvGateCompleted (gate : string) (result : Obj)
| EvRunStopped (reason : string) (gate : string)
| EvGateError (gate : string) (error : Error)
| EvRunCompleted (summary : Summary.t)
| EvResult (enhanced : Obj)
| EvBatchFlushed (summary : Flush.t).

(** What the code does to the outside, in the order it does it.  The
    [attempt] of an invocation is its number within one [run] of the gate,
    counted from 1. *)
Inductive Effect :=
| Execute (gate : string) (attempt : nat)   (* this.execute(code, context) is invoked, its timer armed *)
| Settle (gate : string) (attempt : nat)    (* the awaited execute returned or threw; clearTimeout *)
| Expire (gate : string) (attempt : nat)    (* the timer fired first; the wrapper promise is rejected *)
| Sleep (ms : nat)                          (* this.sleep(ms) *)
| Emit (e : Event)
| Warn (msg : string).                      (* console.warn *)

Record World := {
  now : nat;                       (* Date.now() *)
  trace : list Effect;
  history : list Storage.Call;     (* the calls the storage adapter has received *)
  reporter : Reporter;             (* the runner's this.reporter *)
  results : list Obj               (* the results array of the run in progress *)
}.

Definition set_now (t : nat) (w : World) : World :=
  {| now := t; trace := trace w; history := history w;
     reporter := reporter w; results := results w |}.

Definition set_trace (tr : list Effect) (w : World) : World :=
  {| now := now w; trace := tr; history := history w;
     reporter := reporter w; results := results w |}.

Definition set_history (h : list Storage.Call) (w : World) : World :=
  {| now := now w; trace := trace w; history := h;
     reporter := reporter w; results := results w |}.

Definition set_reporter (r : Reporter) (w : World) : World :=
  {| now := now w; trace := trace w; history := history w;
     reporter := r; results := results w |}.

Definition set_results (l : list Obj) (w : World) : World :=
  {| now := now w; trace := trace w; history := history w;
     reporter := reporter w; results := l |}.

(** An [async] method: from a world to a settled promise and the world
    it leaves. *)
Definition M (A : Type) : Type := World -> Completion A * World.

Definition ret {A} (a : A) : M A := fun w => (Resolved a, w).

Definition throw {A} (e : Error) : M A := fun w => (Rejected e, w).

Definition bind {A B} (c : M A) (k : A -> M B) : M B :=
  fun w =>
    match c w with
    | (Resolved a, w') => k a w'
    | (Rejected e, w') => (Rejected e, w')
    end.

(** [try { body } catch (error) { handler }] *)
Definition try_catch {A} (body : M A) (handler : Error -> M A) : M A :=
  fun w =>
    match body w with
    | (Resolved a, w') => (Resolved a, w')
    | (Rejected e, w') => handler e w'
    end.

Definition read {A} (f : World -> A) : M A := fun w => (Resolved (f w), w).

Definition update (f : World -> World) : M unit := fun w => (Resolved tt, f w).

Definition effect (e : Effect) : M unit :=
  update (fun w => set_trace (trace w ++ [e]) w).

Definition emit (e : Event) : M unit := effect (Emit e).

(** Time passing while the caller is suspended. *)
Definition elapse (ms : nat) : M unit :=
  update (fun w => set_now (now w + ms) w).

Definition update_reporter (f : Reporter -> Reporter) : M unit :=
  update (fun w => set_reporter (f (reporter w)) w).

(** [results.push(r)] *)
Definition push_result (r : Obj) : M unit :=
  update (fun w => set_results (results w ++ [r]) w).

Declare Scope js_scope.
Delimit Scope js_scope with js.
Notation "x <~ c ;; k" := (bind c (fun x => k))
  (at level 100, c at next level, right associativity) : js_scope.
Notation "c ;;; k" := (bind c (fun _ => k))
  (at level 100, right associativity) : js_scope.

End Host.
Export Host.
#[local] Open Scope js_scope.

(** ** BaseQualityGate *)

Module BaseQualityGate.

(** What one invocation of a gate's [execute] does: it returns a result
    or throws after some time, or never settles. *)
Inductive Behaviour :=
| Returns (after : nat) (result : Obj)
| Throws (after : nat) (error : Error)
| Hangs.

(** A gate instance as its constructor leaves it.  [execute code context k]
    is the behaviour of the [k]-th invocation of [execute(code, context)]
    within one [run].  [timeout] is a number of milliseconds (the
    constructor never leaves 0: [options.timeout || 30000]) and
    [retryCount] a natural number ([options.retryCount || 0]). *)
Record t := {
  name : string;
  enabled : bool;
  config : Obj;
  timeout : nat;
  retryCount : nat;
  failureThreshold : nat;
  execute : JsVal -> Obj -> nat -> Behaviour
}.

(** [new Error(`Gate ${this.name} timed out after ${this.timeout}ms`)] *)
Definition timeout_error (this : t) : Error :=
  new_Error ("Gate " ++ name this ++ " timed out after " ++ pretty (timeout this) ++ "ms").

(** [executeWithTimeout]: the timer is armed, [execute] is invoked, and
    whichever settles first decides the wrapper promise.  When the timer
    wins, nothing is done to the invocation. *)
Definition executeWithTimeout (this : t) (code : JsVal) (context : Obj) (attempt : nat) : M Obj :=
  effect (Execute (name this) attempt) ;;;
  match execute this code context attempt with
  | Returns after result =>
      if after <? timeout this
      then (elapse after ;;; effect (Settle (name this) attempt) ;;; ret result)
      else (elapse (timeout this) ;;; effect (Expire (name this) attempt) ;;;
            throw (timeout_error this))
  | Throws after error =>
      if after <? timeout this
      then (elapse after ;;; effect (Settle (name this) attempt) ;;; throw error)
      else (elapse (timeout this) ;;; effect (Expire (name this) attempt) ;;;
            throw (timeout_error this))
  | Hangs =>
      elapse (timeout this) ;;; effect (Expire (name this) attempt) ;;;
      throw (timeout_error this)
  end.

(** [sleep(ms)] *)
Definition sleep (ms : nat) : M unit := effect (Sleep ms) ;;; elapse ms.

(** The result returned for a disabled gate. *)
Definition skipped_result (this : t) : Obj :=
  <["reason" := VStr "Gate is disabled"]>
    (<["gate" := VStr (name this)]> (<["status" := VStr "skipped"]> ∅)).

(** The code after the retry loop: "All attempts failed".  Reading
    [lastError.message] of an unset [lastError] is a TypeError. *)
Definition all_failed (this : t) (attempts : nat) (lastError : option Error) : M Obj :=
  match lastError with
  | None => throw (new_Error "Cannot read properties of undefined (reading 'message')")
  | Some e =>
      ret (<["details" := VObj (<["lastError" := VStr (stack e)]>
                                  (<["attempts" := VNum attempts]> ∅))]>
             (<["error" := VStr (message e)]>
                (<["gate" := VStr (name this)]> (<["status" := VStr "error"]> ∅))))
  end.

(** The retry loop [while (attempts <= this.retryCount)].  [budget] bounds
    the number of iterations for the recursion; [run] starts it at
    [retryCount + 1], which the guard never lets it exhaust. *)
Fixpoint attempt_loop (budget : nat) (this : t) (code : JsVal) (context : Obj)
    (attempts : nat) (lastError : option Error) : M Obj :=
  match budget with
  | 0 => all_failed this attempts lastError
  | S budget' =>
      if attempts <=? retryCount this then
        try_catch
          (startTime <~ read now ;;
           result <~ executeWithTimeout this code context (attempts + 1) ;;
           endTime <~ read now ;;
           let duration := endTime - startTime in
           emit (EvComplete (name this) (get result "status") duration (attempts + 1)) ;;;
           ret (<["attempts" := VNum (attempts + 1)]>
                  (<["duration" := VNum duration]>
                     (<["gate" := VStr (name this)]> result))))
          (fun error =>
             let attempts' := attempts + 1 in
             (if attempts' <=? retryCount this
              then (emit (EvRetry (name this) attempts' (message error)) ;;;
                    sleep (1000 * attempts'))
              else ret tt) ;;;
             attempt_loop budget' this code context attempts' (Some error))
      else all_failed this attempts lastError
  end.

(** [run(code, context)] *)
Definition run (this : t) (code : JsVal) (context : Obj) : M Obj :=
  if negb (enabled this) then ret (skipped_result this)
  else attempt_loop (S (retryCount this)) this code context 0 None.

(** A diagnostic record of a gate. *)
Record Issue := {
  line : nat;
  column : nat;
  severity : string;
  issue_message : string;
  rule : string
}.

Definition issue_object (i : Issue) : JsVal :=
  VObj (<["rule" := VStr (rule i)]>
          (<["message" := VStr (issue_message i)]>
             (<["severity" := VStr (severity i)]>
                (<["column" := VNum (column i)]>
                   (<["line" := VNum (line i)]> ∅))))).

(** [toLowerCase] on the letters A to Z. *)
Definition lower (c : ascii) : ascii :=
  let n := nat_of_ascii c in
  if (65 <=? n) && (n <=? 90) then ascii_of_nat (n + 32) else c.

Fixpoint toLowerCase (s : string) : string :=
  match s with
  | EmptyString => EmptyString
  | String c rest => String (lower c) (toLowerCase rest)
  end.

(** [parseSeverity(level)] *)
Definition parseSeverity (level : string) : nat :=
  let l := toLowerCase level in
  if String.eqb l "error" then 3
  else if String.eqb l "warning" then 2
  else if String.eqb l "info" then 1
  else 0.

(** [shouldFail(issues)] *)
Definition shouldFail (this : t) (issues : list Issue) : bool :=
  let errors := List.filter (fun i => 3 <=? parseSeverity (severity i)) issues in
  failureThreshold this <=? length errors.

End BaseQualityGate.

(** ** SecurityGate *)

Module SecurityGate.
Import BaseQualityGate.

(** What [execute] returns once its scan of the code has collected
    [issues]: the status is ['fail'] or ['pass']. *)
Definition report (this : t) (issues : list Issue) : Obj :=
  let status := if shouldFail this issues then "fail" else "pass" in
  let tally sev :=
    VNum (length (List.filter (fun i => String.eqb (severity i) sev) issues)) in
  <["stats" := VObj (<["info" := tally "info"]>
                       (<["warnings" := tally "warning"]>
                          (<["errors" := tally "error"]> ∅)))]>
    (<["issues" := VArr (List.map issue_object issues)]>
       (<["status" := VStr status]> ∅)).

(** The issue raised for a use of [eval(]. *)
Definition eval_issue (line column : nat) : Issue :=
  {| line := line; column := column; severity := "error";
     issue_message := "Use of eval() is a security risk"; rule := "security-check" |}.

End SecurityGate.

(** ** ResultReporter *)

Module ResultReporter.

(** [new Date().toISOString()]: the calendar formatting is left out, the
    text is the clock reading in decimal. *)
Definition toISOString (t : nat) : string := pretty t.

(** [setStorageAdapter(adapter)] *)
Definition setStorageAdapter (adapter : Storage.Adapter) : M unit :=
  update_reporter (set_storageAdapter (Some adapter)).

(** [setTaskContext(taskId)] *)
Definition setTaskContext (taskId : JsVal) : M unit :=
  update_reporter (set_taskId taskId).

(** [await this.storageAdapter.storeQualityResult(taskId, gateName, data)] *)
Definition storeQualityResult (adapter : Storage.Adapter)
    (taskId gateName : JsVal) (data : Storage.Payload) : M JsVal :=
  fun w =>
    let call := {| Storage.taskId := taskId; Storage.gateName := gateName;
                   Storage.data := data |} in
    (Storage.storeQualityResult adapter (history w) call,
     set_history (history w ++ [call]) w).

(** The enhanced copy of a result built by [reportResult]. *)
Definition enhance (this : Reporter) (clock : nat) (gateName : string) (result : Obj) : Obj :=
  <["metadata" := VObj (spread_into (reportMetadata this) (get result "metadata"))]>
    (<["timestamp" := VStr (toISOString clock)]>
       (<["taskId" := taskId this]>
          (<["gateName" := VStr gateName]> result))).

(** [reportResult(gateName, result)] *)
Definition reportResult (gateName : string) (result : Obj) : M Obj :=
  this <~ read reporter ;;
  if negb (enabled this) then ret result
  else
    clock <~ read now ;;
    let enhancedResult := enhance this clock gateName result in
    emit (EvResult enhancedResult) ;;;
    if batchMode this then
      (update_reporter (fun r => set_batchResults (batchResults r ++ [enhancedResult]) r) ;;;
       ret enhancedResult)
    else
      match storageAdapter this with
      | Some adapter =>
          if truthy (taskId this) then
            try_catch
              (stored <~ storeQualityResult adapter (taskId this) (VStr gateName)
                           (Storage.OfResult result) ;;
               ret (<["storageId" := stored]> (<["stored" := VBool true]> enhancedResult)))
              (fun error =>
                 effect (Warn ("Failed to store quality result: " ++ message error)) ;;;
                 ret (<["storageError" := VStr (message error)]>
                        (<["stored" := VBool false]> enhancedResult)))
          else ret enhancedResult
      | None => ret enhancedResult
      end.


(** The loop of [flushBatch] over the buffered results. *)
Fixpoint flush_loop (adapter : Storage.Adapter) (taskId : JsVal)
    (batch : list Obj) (summary : Flush.t) : M Flush.t :=
  match batch with
  | [] => ret summary
  | result :: rest =>
      step <~ try_catch
                (stored <~ storeQualityResult adapter taskId (get result "gateName")
                             (Storage.OfResult result) ;;
                 ret (<["storageId" := stored]> (<["stored" := VBool true]> result),
                      {| Flush.total := Flush.total summary;
                         Flush.stored := Flush.stored summary + 1;
                         Flush.failed := Flush.failed summary;
                         Flush.results := Flush.results summary |}))
                (fun error =>
                   ret (<["storageError" := VStr (message error)]>
                          (<["stored" := VBool false]> result),
                        {| Flush.total := Flush.total summary;
                           Flush.stored := Flush.stored summary;
                           Flush.failed := Flush.failed summary + 1;
                           Flush.results := Flush.results summary |})) ;;
      let '(result', summary') := step in
      flush_loop adapter taskId rest
        {| Flush.total := Flush.total summary';
           Flush.stored := Flush.stored summary';
           Flush.failed := Flush.failed summary';
           Flush.results := Flush.results summary' ++ [result'] |}
  end.

(** [flushBatch()] *)
Definition flushBatch : M Flush.outcome :=
  this <~ read reporter ;;
  if negb (batchMode this) || (length (batchResults this) =? 0) then ret Flush.Nothing
  else
    let summary := {| Flush.total := length (batchResults this); Flush.stored := 0;
                      Flush.failed := 0; Flush.results := [] |} in
    summary <~ match storageAdapter this with
               | Some adapter =>
                   if truthy (taskId this)
                   then flush_loop adapter (taskId this) (batchResults this) summary
                   else ret summary
               | None => ret summary
               end ;;
    update_reporter (set_batchResults []) ;;;
    emit (EvBatchFlushed summary) ;;;
    ret (Flush.Flushed summary).

(** The statuses [generateSummary] and the runner tell apart, and the
    spelling each has in their tests on [result.status]. *)
Inductive Status := pass | fail | skip | error.

Definition status_of (result : Obj) : option Status :=
  let status := get result "status" in
  if is_str status "passed" then Some pass
  else if is_str status "failed" then Some fail
  else if is_str status "skipped" then Some skip
  else if is_str status "error" then Some error
  else None.

Definition has_status (st : Status) (result : Obj) : bool :=
  match status_of result, st with
  | Some pass, pass | Some fail, fail | Some skip, skip | Some error, error => true
  | _, _ => false
  end.

(** The number of results with a given status. *)
Definition how_many (st : Status) (results : list Obj) : nat :=
  length (List.filter (has_status st) results).

(** One turn of the loop of [generateSummary].  [summary.gates] is a map
    of own properties: gate names are taken not to be names of members of
    [Object.prototype]. *)
Definition count (summary : Summary.t) (result : Obj) : Summary.t :=
  let status := get result "status" in
  let summary :=
    if is_str status "passed" then Summary.set_passed (Summary.passed summary + 1) summary
    else if is_str status "failed" then Summary.set_failed (Summary.failed summary + 1) summary
    else if is_str status "skipped" then Summary.set_skipped (Summary.skipped summary + 1) summary
    else if is_str status "error" then Summary.set_errors (Summary.errors summary + 1) summary
    else summary in
  let gateName := to_string (or_else (get result "gateName") (get result "gate")) in
  let gates :=
    match Summary.gates summary !! gateName with
    | None => <[gateName := GateGroup.empty]> (Summary.gates summary)
    | Some _ => Summary.gates summary
    end in
  let group := default GateGroup.empty (gates !! gateName) in
  let group :=
    {| GateGroup.total := GateGroup.total group + 1;
       GateGroup.passed :=
         if is_str status "passed" then GateGroup.passed group + 1
         else GateGroup.passed group;
       GateGroup.failed :=
         if is_str status "passed" then GateGroup.failed group
         else if is_str status "failed" then GateGroup.failed group + 1
         else GateGroup.failed group;
       GateGroup.results := GateGroup.results group ++ [result] |} in
  Summary.set_gates (<[gateName := group]> gates) summary.

(** [summary.total > 0 ? (summary.passed / summary.total) * 100 : 0], as
    an exact fraction in lowest terms. *)
Definition score_of (passed total : nat) : Q :=
  if 0 <? total
  then Qred ((inject_Z (Z.of_nat passed) / inject_Z (Z.of_nat total)) * inject_Z 100)
  else 0%Q.

(** [generateSummary(results)], a synchronous method: it reads
    [this.taskId] and the clock. *)
Definition generateSummary (this : Reporter) (clock : nat) (results : list Obj) : Summary.t :=
  let summary :=
    {| Summary.total := length results;
       Summary.passed := 0;
       Summary.failed := 0;
       Summary.skipped := 0;
       Summary.errors := 0;
       Summary.gates := ∅;
       Summary.timestamp := toISOString clock;
       Summary.taskId := taskId this;
       Summary.overallStatus := None;
       Summary.score := None;
       Summary.duration := None;
       Summary.stored := None;
       Summary.storageId := None;
       Summary.storageError := None |} in
  let summary := fold_left count results summary in
  Summary.set_verdict
    (if (0 <? Summary.failed summary) || (0 <? Summary.errors summary)
     then "failed" else "passed")
    (score_of (Summary.passed summary) (Summary.total summary))
    summary.

(** [storeSummary(summary)] *)
Definition storeSummary (summary : Summary.t) : M Summary.t :=
  this <~ read reporter ;;
  match storageAdapter this with
  | None => ret summary
  | Some adapter =>
      if negb (truthy (taskId this)) then ret summary
      else
        try_catch
          (stored <~ storeQualityResult adapter (taskId this) (VStr "summary")
                       (Storage.OfSummary summary) ;;
           ret (Summary.set_storageId stored (Summary.set_stored true summary)))
          (fun error =>
             ret (Summary.set_storageError (message error)
                    (Summary.set_stored false summary)))
  end.

End ResultReporter.

(** ** QualityRunner *)

Module QualityRunner.

(** An element of [this.gates]. *)
Record Entry := {
  gate : BaseQualityGate.t;
  options : Obj;
  enabled : bool
}.

(** A runner instance; its [reporter] is the one of the world.  The
    constructor leaves [continueOnFailure] on unless the option is
    [false], [parallel] off unless asked for, and a [timeout] of
    [options.timeout || 60000] ms. *)
Record t := {
  gates : list Entry;
  continueOnFailure : bool;
  parallel : bool;
  timeout : nat
}.

Definition set_gates (l : list Entry) (this : t) : t :=
  {| gates := l; continueOnFailure := continueOnFailure this;
     parallel := parallel this; timeout := timeout this |}.

(** [addGate(gate, options)]: [enabled] is [options.enabled !== false]. *)
Definition addGate (g : BaseQualityGate.t) (opts : Obj) (this : t) : t :=
  set_gates (gates this ++
             [{| gate := g; options := opts;
                 enabled := match get opts "enabled" with
                            | VBool false => false
                            | _ => true
                            end |}]) this.

(** [removeGate(gateName)] *)
Definition removeGate (gateName : string) (this : t) : t :=
  set_gates (List.filter (fun e => negb (String.eqb (BaseQualityGate.name (gate e)) gateName))
               (gates this)) this.

(** [_runGateWithTimeout]: [gate.run] raced against the runner's timer.
    When the timer wins the promise is rejected at the deadline and
    [gate.run] goes on by itself; what it still does is in the trace. *)
Definition _runGateWithTimeout (this : t) (g : BaseQualityGate.t)
    (code : JsVal) (context : Obj) : M Obj :=
  fun w =>
    match BaseQualityGate.run g code context w with
    | (settled, w') =>
        if now w' - now w <? timeout this then (settled, w')
        else (Rejected (new_Error ("Gate " ++ BaseQualityGate.name g ++ " timed out after "
                                     ++ pretty (timeout this) ++ "ms")),
              set_now (now w + timeout this) w')
    end.

(** The result pushed for a disabled entry. *)
Definition skipped_result (g : BaseQualityGate.t) : Obj :=
  <["reason" := VStr "Gate disabled"]>
    (<["gate" := VStr (BaseQualityGate.name g)]> (<["status" := VStr "skipped"]> ∅)).

(** The result built in the [catch] blocks. *)
Definition error_result (g : BaseQualityGate.t) (error : Error) : Obj :=
  <["stack" := VStr (stack error)]>
    (<["error" := VStr (message error)]>
       (<["gate" := VStr (BaseQualityGate.name g)]> (<["status" := VStr "error"]> ∅))).

(** [_runSequential]: the [for ... of this.gates] loop; the body yields
    [true] where the code leaves the loop with [break]. *)
Fixpoint _runSequential (this : t) (code : JsVal) (context : Obj)
    (entries : list Entry) : M unit :=
  match entries with
  | [] => ret tt
  | e :: rest =>
      let name := BaseQualityGate.name (gate e) in
      if negb (enabled e) then
        let skipped := skipped_result (gate e) in
        push_result skipped ;;;
        (_ <~ ResultReporter.reportResult name skipped ;;
         _runSequential this code context rest)
      else
        stop <~ try_catch
                  (emit (EvGateStarted name) ;;;
                   (result <~ _runGateWithTimeout this (gate e) code context ;;
                    push_result result ;;;
                    (_ <~ ResultReporter.reportResult name result ;;
                     emit (EvGateCompleted name result) ;;;
                     if negb (continueOnFailure this) && is_str (get result "status") "failed"
                     then (emit (EvRunStopped "Gate failed" name) ;;; ret true)
                     else ret false)))
                  (fun error =>
                     let errorResult := error_result (gate e) error in
                     push_result errorResult ;;;
                     (_ <~ ResultReporter.reportResult name errorResult ;;
                      emit (EvGateError name error) ;;;
                      if negb (continueOnFailure this) then ret true else ret false)) ;;
        if stop then ret tt else _runSequential this code context rest
  end.

(** A callback of [this.gates.map(async ...)] up to its first suspension:
    a disabled entry is reported at once; an enabled one is started, and
    the time at which its promise settles is noted while the caller's
    clock stays where it was. *)
Definition dispatch (this : t) (code : JsVal) (context : Obj) (e : Entry)
    : M (Obj + (nat * Completion Obj)) :=
  let name := BaseQualityGate.name (gate e) in
  if negb (enabled e) then
    let skipped := skipped_result (gate e) in
    _ <~ ResultReporter.reportResult name skipped ;;
    ret (inl skipped)
  else
    emit (EvGateStarted name) ;;;
    fun w =>
      match _runGateWithTimeout this (gate e) code context w with
      | (settled, w') => (Resolved (inr (now w', settled)), set_now (now w) w')
      end.

Fixpoint dispatch_all (this : t) (code : JsVal) (context : Obj)
    (entries : list Entry) : M (list (Obj + (nat * Completion Obj))) :=
  match entries with
  | [] => ret []
  | e :: rest =>
      slot <~ dispatch this code context e ;;
      slots <~ dispatch_all this code context rest ;;
      ret (slot :: slots)
  end.

(** The rest of a callback, run when the gate's promise has settled. *)
Definition resume (e : Entry) (finish : nat) (settled : Completion Obj) : M Obj :=
  let name := BaseQualityGate.name (gate e) in
  update (set_now finish) ;;;
  try_catch
    (result <~ (fun w => (settled, w)) ;;
     _ <~ ResultReporter.reportResult name result ;;
     emit (EvGateCompleted name result) ;;;
     ret result)
    (fun error =>
       let errorResult := error_result (gate e) error in
       _ <~ ResultReporter.reportResult name errorResult ;;
       emit (EvGateError name error) ;;;
       ret errorResult).

(** A started callback awaiting its gate: position in [this.gates],
    entry, settling time and outcome. *)
Definition Pending : Type := nat * Entry * nat * Completion Obj.

Definition finish_of (p : Pending) : nat := snd (fst p).

(** Callbacks resume in the order in which their gates settle; gates
    settling at the same time resume in registration order. *)
Fixpoint insert_by_finish (p : Pending) (l : list Pending) : list Pending :=
  match l with
  | [] => [p]
  | q :: l' =>
      if finish_of q <=? finish_of p then q :: insert_by_finish p l'
      else p :: q :: l'
  end.

Definition completion_order (l : list Pending) : list Pending :=
  fold_left (fun acc p => insert_by_finish p acc) l [].

Fixpoint pending_of (entries : list Entry) (slots : list (Obj + (nat * Completion Obj)))
    (i : nat) : list Pending :=
  match entries, slots with
  | e :: entries', inr (finish, settled) :: slots' =>
      (i, e, finish, settled) :: pending_of entries' slots' (S i)
  | _ :: entries', inl _ :: slots' => pending_of entries' slots' (S i)
  | _, _ => []
  end.

Fixpoint resume_all (l : list Pending) : M (list (nat * Obj)) :=
  match l with
  | [] => ret []
  | (i, e, finish, settled) :: rest =>
      r <~ resume e finish settled ;;
      more <~ resume_all rest ;;
      ret ((i, r) :: more)
  end.

(** The values [Promise.all] collects, in the order of [this.gates]. *)
Definition collect (slots : list (Obj + (nat * Completion Obj)))
    (resumed : list (nat * Obj)) : list Obj :=
  imap (fun i slot =>
          match slot with
          | inl skipped => skipped
          | inr _ => default ∅ ((list_to_map resumed : gmap nat Obj) !! i)
          end) slots.

(** [_runParallel] *)
Definition _runParallel (this : t) (code : JsVal) (context : Obj) : M unit :=
  slots <~ dispatch_all this code context (gates this) ;;
  resumed <~ resume_all (completion_order (pending_of (gates this) slots 0)) ;;
  let parallelResults := collect slots resumed in
  update (fun w => set_results (results w ++ parallelResults) w).

(** [run(code, context)] *)
Definition run (this : t) (code : JsVal) (context : Obj) : M Summary.t :=
  startTime <~ read now ;;
  update (set_results []) ;;;
  (if truthy (get context "taskId")
   then ResultReporter.setTaskContext (get context "taskId")
   else ret tt) ;;;
  update_reporter (set_batchMode true) ;;;
  emit (EvRunStarted (length (gates this)) context) ;;;
  (if parallel this then _runParallel this code context
   else _runSequential this code context (gates this)) ;;;
  (_ <~ ResultReporter.flushBatch ;;
   results <~ read results ;;
   reporter <~ read reporter ;;
   clock <~ read now ;;
   let summary := ResultReporter.generateSummary reporter clock results in
   let summary := Summary.set_duration (clock - startTime) summary in
   summary <~ ResultReporter.storeSummary summary ;;
   emit (EvRunCompleted summary) ;;;
   ret summary).

(** [getStatistics()]: the counts of configured, enabled and disabled
    entries. *)
Definition getStatistics (this : t) : nat * nat * nat :=
  (length (gates this),
   length (List.filter enabled (gates this)),
   length (List.filter (fun e => negb (enabled e)) (gates this))).

End QualityRunner.

(** ** Reading traces *)

Module Trace.

(** The delays of the [sleep] calls, in order. *)
Definition sleeps (tr : list Effect) : list nat :=
  omap (fun e => match e with Sleep ms => Some ms | _ => None end) tr.

(** The invocations of [execute], in order. *)
Definition invocations (tr : list Effect) : list (string * nat) :=
  omap (fun e => match e with Execute g k => Some (g, k) | _ => None end) tr.


Definition settled (tr : list Effect) (g : string) (k : nat) : bool :=
  existsb (fun e => match e with
                    | Settle g' k' => String.eqb g g' && (k =? k')
                    | _ => false
                    end) tr.


(** What the gate executor does: invocations, timers, sleeps and its two
    events. *)
Definition of_executor (e : Effect) : bool :=
  match e with
  | Execute _ _ | Settle _ _ | Expire _ _ | Sleep _ => true
  | Emit (EvComplete _ _ _ _) | Emit (EvRetry _ _ _) => true
  | _ => false
  end.

End Trace.

(** How an invocation of [execute] fares against the gate's timer. *)
Module Race.
Import BaseQualityGate.

(** The deadline elapses before the invocation returns or throws. *)
Definition times_out (this : t) (code : JsVal) (context : Obj) (k : nat) : bool :=
  match execute this code context k with
  | Returns after _ | Throws after _ => negb (after <? timeout this)
  | Hangs => true
  end.

(** The attempt raises: [execute] throws, or the deadline elapses. *)
Definition raises (this : t) (code : JsVal) (context : Obj) (k : nat) : bool :=
  match execute this code context k with
  | Returns after _ => negb (after <? timeout this)
  | Throws _ _ | Hangs => true
  end.

(** The attempt returns [result] after [after] ms, before the deadline. *)
Definition succeeds (this : t) (code : JsVal) (context : Obj) (k after : nat)
    (result : Obj) : Prop :=
  execute this code context k = Returns after result /\ after < timeout this.

End Race.

(** ** Sample gates, reporters and runners *)

Module Sample.
Import BaseQualityGate.

(** A security gate whose scan finds [found] and that answers after
    10 ms. *)
Definition security (n : string) (found : list Issue) : t :=
  let this :=
    {| name := n; enabled := true; config := ∅; timeout := 50; retryCount := 0;
       failureThreshold := 1; execute := fun _ _ _ => Hangs |} in
  {| name := n; enabled := true; config := ∅; timeout := 50; retryCount := 0;
     failureThreshold := 1;
     execute := fun _ _ _ => Returns 10 (SecurityGate.report this found) |}.



(** A disabled gate. *)
Definition off : t :=
  {| name := "off"; enabled := false; config := ∅; timeout := 50; retryCount := 2;
     failureThreshold := 1; execute := fun _ _ _ => Hangs |}.

(** A reporter without storage. *)
Definition plain : Reporter :=
  {| storageAdapter := None; Host.enabled := true; taskId := VNull;
     batchMode := false; batchResults := []; reportMetadata := ∅ |}.



Definition world_of (r : Reporter) : World :=
  {| now := 0; trace := []; history := []; reporter := r; results := [] |}.

Definition world : World := world_of plain.

(** [new QualityRunner({ continueOnFailure, parallel, timeout: 600 })]
    with three security gates added in the order G1, G2, G3; the scan of
    G2 finds a use of [eval(], the other two find nothing, so that they
    return ['pass'], ['fail'] and ['pass']. *)
Definition runner (continue par : bool) : QualityRunner.t :=
  QualityRunner.addGate (security "G3" []) ∅
    (QualityRunner.addGate (security "G2" [SecurityGate.eval_issue 1 1]) ∅
       (QualityRunner.addGate (security "G1" []) ∅
          {| QualityRunner.gates := []; QualityRunner.continueOnFailure := continue;
             QualityRunner.parallel := par; QualityRunner.timeout := 600 |})).

(** A gate of one's own whose [execute] returns the given status after
    10 ms. *)
Definition custom (n status : string) : t :=
  {| name := n; enabled := true; config := ∅; timeout := 50; retryCount := 0;
     failureThreshold := 1;
     execute := fun _ _ _ => Returns 10 (<["status" := VStr status]> ∅) |}.

(** The same runner with G2 replaced by a gate that returns ['failed']. *)
Definition runner_failed (continue par : bool) : QualityRunner.t :=
  QualityRunner.addGate (security "G3" []) ∅
    (QualityRunner.addGate (custom "G2" "failed") ∅
       (QualityRunner.addGate (security "G1" []) ∅
          {| QualityRunner.gates := []; QualityRunner.continueOnFailure := continue;
             QualityRunner.parallel := par; QualityRunner.timeout := 600 |})).

(** A result with the given status, for [generateSummary]. *)
Definition result (g status : string) : Obj :=
  <["gate" := VStr g]> (<["status" := VStr status]> ∅).

End Sample.

(** ** More on attempts *)

Module Attempt.
Import BaseQualityGate.

(** The error with which the [k]-th attempt rejects when it raises: what
    [execute] threw in time, or else the timeout error. *)
Definition error_of (this : t) (code : JsVal) (context : Obj) (k : nat) : Error :=
  match execute this code context k with
  | Throws after error => if after <? timeout this then error else timeout_error this
  | Returns _ _ | Hangs => timeout_error this
  end.

(** The sum of a list of delays. *)
Definition total (delays : list nat) : nat := fold_right Nat.add 0 delays.

End Attempt.

(** ** More sample gates *)

Module Demo.
Import BaseQualityGate.


(** A gate with two retries whose [execute] never settles. *)
Definition stuck : t :=
  {| name := "stuck"; enabled := true; config := ∅; timeout := 50; retryCount := 2;
     failureThreshold := 1; execute := fun _ _ _ => Hangs |}.

End Demo.

(** ** Constructors *)

Module Construct.

(** The options a gate's constructor reads; [None] is a missing
    property. *)
Record GateOptions := {
  name : option string;
  enabled : option bool;
  config : option Obj;
  timeout : option nat;
  retryCount : option nat;
  failureThreshold : option nat
}.

(** [{}] *)
Definition no_options : GateOptions :=
  {| name := None; enabled := None; config := None; timeout := None;
     retryCount := None; failureThreshold := None |}.

(** [options.x || d] for a number: 0 is falsy. *)
Definition number_or (v : option nat) (d : nat) : nat :=
  match v with
  | Some n => if n =? 0 then d else n
  | None => d
  end.

(** [options.x || d] for a string: the empty string is falsy. *)
Definition string_or (v : option string) (d : string) : string :=
  match v with
  | Some s => if String.eqb s "" then d else s
  | None => d
  end.

(** [options.x !== false] *)
Definition not_false (v : option bool) : bool :=
  match v with
  | Some false => false
  | _ => true
  end.

(** [new C(options)] for a class [C] that extends [BaseQualityGate] and
    leaves the fields of the base constructor alone; [className] is
    [C.name] and [execute] the method of [C]. *)
Definition gate (className : string) (execute : JsVal -> Obj -> nat -> BaseQualityGate.Behaviour)
    (options : GateOptions) : BaseQualityGate.t :=
  {| BaseQualityGate.name := string_or (name options) className;
     BaseQualityGate.enabled := not_false (enabled options);
     BaseQualityGate.config := default ∅ (config options);
     BaseQualityGate.timeout := number_or (timeout options) 30000;
     BaseQualityGate.retryCount := number_or (retryCount options) 0;
     BaseQualityGate.failureThreshold := number_or (failureThreshold options) 1;
     BaseQualityGate.execute := execute |}.

(** [new TestRunnerGate(options)]: the base constructor, then
    [this.timeout = options.timeout || 60000]. *)
Definition test_runner_gate (execute : JsVal -> Obj -> nat -> BaseQualityGate.Behaviour)
    (options : GateOptions) : BaseQualityGate.t :=
  let this := gate "TestRunnerGate" execute options in
  {| BaseQualityGate.name := BaseQualityGate.name this;
     BaseQualityGate.enabled := BaseQualityGate.enabled this;
     BaseQualityGate.config := BaseQualityGate.config this;
     BaseQualityGate.timeout := number_or (timeout options) 60000;
     BaseQualityGate.retryCount := BaseQualityGate.retryCount this;
     BaseQualityGate.failureThreshold := BaseQualityGate.failureThreshold this;
     BaseQualityGate.execute := BaseQualityGate.execute this |}.

(** The options the constructors of [QualityRunner] and [ResultReporter]
    read from the one object they share. *)
Record RunnerOptions := {
  reporter : option Reporter;
  continueOnFailure : option bool;
  parallel : option bool;
  runnerTimeout : option nat;          (* options.timeout *)
  storageAdapter : option Storage.Adapter;
  reporterEnabled : option bool;       (* options.enabled *)
  taskId : JsVal;
  batchMode : option bool;
  metadata : option Obj
}.

(** [new ResultReporter(options)] *)
Definition new_reporter (options : RunnerOptions) : Reporter :=
  {| Host.storageAdapter := storageAdapter options;
     Host.enabled := not_false (reporterEnabled options);
     Host.taskId := or_else (taskId options) VNull;
     Host.batchMode := default false (batchMode options);
     Host.batchResults := [];
     Host.reportMetadata := default ∅ (metadata options) |}.

(** [new QualityRunner(options)]: the runner and its reporter,
    [options.reporter || new ResultReporter(options)]. *)
Definition new_runner (options : RunnerOptions) : QualityRunner.t * Reporter :=
  ({| QualityRunner.gates := [];
      QualityRunner.continueOnFailure := not_false (continueOnFailure options);
      QualityRunner.parallel := default false (parallel options);
      QualityRunner.timeout := number_or (runnerTimeout options) 60000 |},
   default (new_reporter options) (reporter options)).

(** The options of [createForCI]:
    [{ continueOnFailure: false, parallel: true, timeout: 120000, ...options }]. *)
Definition ci_options (options : RunnerOptions) : RunnerOptions :=
  {| reporter := reporter options;
     continueOnFailure := Some (default false (continueOnFailure options));
     parallel := Some (default true (parallel options));
     runnerTimeout := Some (default 120000 (runnerTimeout options));
     storageAdapter := storageAdapter options;
     reporterEnabled := reporterEnabled options;
     taskId := taskId options;
     batchMode := batchMode options;
     metadata := metadata options |}.

End Construct.

(** ** The gates' own [execute] *)

(** [SecurityGate.execute]: the scan.  The regular expressions are left to
    the host: [matchAll p text] gives the start indices of the matches of
    pattern [p] in [text], in order. *)
Module SecurityScan.
Import BaseQualityGate.

Inductive Pattern :=
| EvalCall            (* /eval\s*\(/g *)
| InnerHTMLAssign     (* /innerHTML\s*=/g *)
| ProcessEnv          (* /process\.env\.\w+/g *)
| DynamicRequire      (* require ( followed by anything but a quote *)
| CommandExecution.   (* /child_process|exec\(/g *)

Record Check := { pattern : Pattern; severity : string; message : string }.

(** [this.securityPatterns] *)
Definition securityPatterns : list Check :=
  [ {| pattern := EvalCall; severity := "error";
       message := "Use of eval() is a security risk" |};
    {| pattern := InnerHTMLAssign; severity := "warning";
       message := "Direct innerHTML assignment can lead to XSS" |};
    {| pattern := ProcessEnv; severity := "info";
       message := "Environment variable usage detected - ensure secrets are not exposed" |};
    {| pattern := DynamicRequire; severity := "error";
       message := "Dynamic require() can be a security risk" |};
    {| pattern := CommandExecution; severity := "warning";
       message := "Command execution detected - ensure proper input sanitization" |} ].

Definition newline : ascii := ascii_of_nat 10.

(** [text.split('\n')] *)
Fixpoint split_lines (text : string) : list string :=
  match text with
  | EmptyString => [EmptyString]
  | String c rest =>
      if Ascii.eqb c newline then EmptyString :: split_lines rest
      else match split_lines rest with
           | first :: others => String c first :: others
           | [] => [String c EmptyString]
           end
  end.

(** The line and the column of the match at [index]:
    [lines = code.substring(0, index).split('\n')], [lines.length] and
    [lines[lines.length - 1].length + 1].  A text is the sequence of its
    code units. *)
Definition locate (text : string) (index : nat) : nat * nat :=
  let lines := split_lines (String.substring 0 index text) in
  (length lines, String.length (List.last lines EmptyString) + 1).

(** The number of line breaks of a text. *)
Fixpoint newlines (text : string) : nat :=
  match text with
  | EmptyString => 0
  | String c rest => (if Ascii.eqb c newline then 1 else 0) + newlines rest
  end.

Definition issue_at (text : string) (check : Check) (index : nat) : Issue :=
  {| BaseQualityGate.line := fst (locate text index);
     BaseQualityGate.column := snd (locate text index);
     BaseQualityGate.severity := severity check;
     BaseQualityGate.issue_message := message check;
     BaseQualityGate.rule := "security-check" |}.

(** The issues in the order the two loops push them. *)
Definition scan (matchAll : Pattern -> string -> list nat) (text : string) : list Issue :=
  flat_map (fun check => List.map (issue_at text check) (matchAll (pattern check) text))
    securityPatterns.

(** The object returned from the [catch] block. *)
Definition caught (error : Error) : Obj :=
  <["details" := VObj (<["stack" := VStr (stack error)]> ∅)]>
    (<["error" := VStr (Js.message error)]> (<["status" := VStr "error"]> ∅)).

(** [execute(code, context)]: a [code] that is not a string has no
    [matchAll] method, and the TypeError of the first call is caught. *)
Definition execute (matchAll : Pattern -> string -> list nat) (this : t) (code : JsVal) : Obj :=
  match code with
  | VStr text => SecurityGate.report this (scan matchAll text)
  | VUndefined =>
      caught (new_Error "Cannot read properties of undefined (reading 'matchAll')")
  | VNull => caught (new_Error "Cannot read properties of null (reading 'matchAll')")
  | _ => caught (new_Error "code.matchAll is not a function")
  end.

End SecurityScan.

(** [ESLintGate]: what follows the call of the linter. *)
Module ESLintGate.

(** A message of a lint result; [fix_] is its property [fix], [None]
    when it is [undefined]. *)
Module Message.
Record t := {
  line : nat; column : nat; severity : nat; message : string;
  ruleId : JsVal; fix_ : option JsVal
}.
End Message.

(** An issue as [processResults] builds it. *)
Module Issue.
Record t := {
  line : nat; column : nat; severity : string; message : string;
  rule : JsVal; fixable : bool
}.

Definition object (i : t) : JsVal :=
  VObj (<["fixable" := VBool (fixable i)]>
          (<["rule" := rule i]>
             (<["message" := VStr (message i)]>
                (<["severity" := VStr (severity i)]>
                   (<["column" := VNum (column i)]>
                      (<["line" := VNum (line i)]> ∅)))))).

(** The issue as [shouldFail] reads it: its severity. *)
Definition plain (i : t) : BaseQualityGate.Issue :=
  {| BaseQualityGate.line := line i; BaseQualityGate.column := column i;
     BaseQualityGate.severity := severity i;
     BaseQualityGate.issue_message := message i;
     BaseQualityGate.rule := to_string (rule i) |}.
End Issue.

Definition issue_of (m : Message.t) : Issue.t :=
  {| Issue.line := Message.line m; Issue.column := Message.column m;
     Issue.severity := if Message.severity m =? 2 then "error" else "warning";
     Issue.message := Message.message m; Issue.rule := Message.ruleId m;
     Issue.fixable := match Message.fix_ m with Some _ => true | None => false end |}.

(** [processResults(results)], each result given by its [messages]. *)
Definition processResults (results : list (list Message.t)) : list Issue.t :=
  flat_map (List.map issue_of) results.

(** [context.fileName || `temp${fileExt}`] *)
Definition fileName (context : Obj) : JsVal :=
  let fileExt := if is_str (get context "language") "typescript" then ".ts" else ".js" in
  or_else (get context "fileName") (VStr ("temp" ++ fileExt)).

(** [execute(code, context)] from the outcome of [eslint.lintFiles] on;
    [rulesApplied] is the number of configured rules. *)
Definition execute (this : BaseQualityGate.t) (rulesApplied : nat) (context : Obj)
    (linted : Completion (list (list Message.t))) : Obj :=
  match linted with
  | Resolved results =>
      let issues := processResults results in
      let errors := List.filter (fun i => String.eqb (Issue.severity i) "error") issues in
      let warnings := List.filter (fun i => String.eqb (Issue.severity i) "warning") issues in
      let status :=
        if BaseQualityGate.shouldFail this (List.map Issue.plain issues)
        then "fail" else "pass" in
      <["details" := VObj (<["rulesApplied" := VNum rulesApplied]>
                             (<["fileName" := fileName context]> ∅))]>
        (<["stats" := VObj (<["fixable" := VNum (length (List.filter Issue.fixable issues))]>
                              (<["warnings" := VNum (length warnings)]>
                                 (<["errors" := VNum (length errors)]> ∅)))]>
           (<["issues" := VArr (List.map Issue.object issues)]>
              (<["status" := VStr status]> ∅)))
  | Rejected error => SecurityScan.caught error
  end.

End ESLintGate.

(** [TestRunnerGate]: counting the assertions of a Jest report and
    analysing the counts. *)
Module TestRunnerGate.

Record Assertion := {
  status : string; fullName : string; failureMessages : list string
}.

(** A file of the report; [assertionResults = None] is a missing
    property. *)
Record FileResult := { name : string; assertionResults : option (list Assertion) }.

Record Failure := { test : string; message : string; location : string }.

(** What the result parsers return. *)
Record TestResults := {
  success : JsVal;
  total : nat; passed : nat; failed : nat; skipped : nat;
  duration : JsVal;
  failures : list Failure;
  coverage : JsVal
}.

(** One turn of the inner loop of [parseJestResults]. *)
Definition count (file : FileResult) (acc : TestResults) (a : Assertion) : TestResults :=
  let acc := {| success := success acc; total := total acc + 1; passed := passed acc;
                failed := failed acc; skipped := skipped acc; duration := duration acc;
                failures := failures acc; coverage := coverage acc |} in
  if String.eqb (status a) "passed" then
    {| success := success acc; total := total acc; passed := passed acc + 1;
       failed := failed acc; skipped := skipped acc; duration := duration acc;
       failures := failures acc; coverage := coverage acc |}
  else if String.eqb (status a) "failed" then
    {| success := success acc; total := total acc; passed := passed acc;
       failed := failed acc + 1; skipped := skipped acc; duration := duration acc;
       failures := failures acc ++
                   [{| test := fullName a;
                       message := join (String SecurityScan.newline EmptyString)
                                    (failureMessages a);
                       location := name file |}];
       coverage := coverage acc |}
  else if String.eqb (status a) "skipped" || String.eqb (status a) "pending" then
    {| success := success acc; total := total acc; passed := passed acc;
       failed := failed acc; skipped := skipped acc + 1; duration := duration acc;
       failures := failures acc; coverage := coverage acc |}
  else acc.

(** [parseJestResults] from the parsed report on: [success], [totalTime]
    and [coverageMap] are its properties, [testResults] its files
    ([results.testResults || []]). *)
Definition parseJestResults (success totalTime coverageMap : JsVal)
    (testResults : option (list FileResult)) : TestResults :=
  fold_left
    (fun acc file => fold_left (count file) (default [] (assertionResults file)) acc)
    (default [] testResults)
    {| success := success; total := 0; passed := 0; failed := 0; skipped := 0;
       duration := totalTime; failures := []; coverage := coverageMap |}.

(** The issue built for a failure. *)
Definition issue_of (f : Failure) : Obj :=
  <["column" := VNum 0]>
    (<["line" := VNum 0]>
       (<["location" := VStr (location f)]>
          (<["details" := VStr (message f)]>
             (<["message" := VStr ("Test failed: " ++ test f)]>
                (<["severity" := VStr "error"]> ∅))))).

(** [analyzeTestResults]: [allPassed] and the issues. *)
Definition allPassed (r : TestResults) : bool := truthy (success r) && (failed r =? 0).

Definition issues (r : TestResults) : list Obj := List.map issue_of (failures r).

(** The status [execute] returns after a run of the tests. *)
Definition status_after (r : TestResults) : string :=
  if allPassed r then "pass" else "fail".

End TestRunnerGate.

(** [ComplexityGate]: the checks on the functions found in the code.  The
    regular expressions are left to the host: the functions are given as
    [extractFunctions] returns them, and [complexity body] is
    [calculateCyclomaticComplexity(body)]. *)
Module ComplexityGate.

Record Func := { name : string; line : nat; params : nat; body : string }.

Record Thresholds := {
  maxCyclomaticComplexity : nat;
  maxDepth : nat;
  maxLinesPerFunction : nat;
  maxParametersPerFunction : nat
}.


Definition issue (func : Func) (message rule : string) : BaseQualityGate.Issue :=
  {| BaseQualityGate.line := line func; BaseQualityGate.column := 1;
     BaseQualityGate.severity := "warning";
     BaseQualityGate.issue_message := message; BaseQualityGate.rule := rule |}.

(** [func.body.split('\n').length] *)
Definition lines_of (func : Func) : nat := length (SecurityScan.split_lines (body func)).

(** One turn of the loop of [execute]. *)
Definition check (complexity : string -> nat) (limits : Thresholds) (func : Func)
    : list BaseQualityGate.Issue :=
  (if maxCyclomaticComplexity limits <? complexity (body func)
   then [issue func ("Function '" ++ name func ++ "' has cyclomatic complexity of "
                       ++ pretty (complexity (body func)) ++ " (max: "
                       ++ pretty (maxCyclomaticComplexity limits) ++ ")")
           "cyclomatic-complexity"]
   else [])
  ++ (if maxLinesPerFunction limits <? lines_of func
      then [issue func ("Function '" ++ name func ++ "' has " ++ pretty (lines_of func)
                          ++ " lines (max: " ++ pretty (maxLinesPerFunction limits) ++ ")")
              "function-length"]
      else [])
  ++ (if maxParametersPerFunction limits <? params func
      then [issue func ("Function '" ++ name func ++ "' has " ++ pretty (params func)
                          ++ " parameters (max: "
                          ++ pretty (maxParametersPerFunction limits) ++ ")")
              "parameter-count"]
      else []).

(** The issues of [execute], in the order they are pushed. *)
Definition issues (complexity : string -> nat) (limits : Thresholds) (functions : list Func)
    : list BaseQualityGate.Issue :=
  flat_map (check complexity limits) functions.

(** [issues.length === 0 ? 'pass' : 'warning'] *)
Definition status (found : list BaseQualityGate.Issue) : string :=
  if length found =? 0 then "pass" else "warning".

End ComplexityGate.

(** ** The gate registry and the runner factories *)

Module Registry.

(** A class as the registry sees it: its name, whether its prototype is
    an instance of [BaseQualityGate], and its constructor (taken not to
    throw). *)
Record GateClass := {
  className : string;
  extends_base : bool;
  construct : Construct.GateOptions -> BaseQualityGate.t
}.

(** The [Map] from type names to classes: the entries in insertion
    order. *)
Definition t : Type := list (string * GateClass).

(** [gateRegistry.get(type)] *)
Fixpoint lookup_type (registry : t) (type : string) : option GateClass :=
  match registry with
  | [] => None
  | (key, class) :: rest =>
      if String.eqb key type then Some class else lookup_type rest type
  end.

(** [gateRegistry.set(type, GateClass)]: a key already present keeps its
    place, a new one goes last. *)
Fixpoint set (type : string) (class : GateClass) (registry : t) : t :=
  match registry with
  | [] => [(type, class)]
  | (key, old) :: rest =>
      if String.eqb key type then (key, class) :: rest
      else (key, old) :: set type class rest
  end.

(** The registry when the module is loaded, from the four built-in
    classes. *)
Definition builtin (eslint test security complexity : GateClass) : t :=
  set "complexity" complexity (set "security" security (set "test" test (set "eslint" eslint []))).

(** [createGate(type, options)]; [Rejected] is a thrown error. *)
Definition createGate (registry : t) (type : string) (options : Construct.GateOptions)
    : Completion BaseQualityGate.t :=
  match lookup_type registry type with
  | None => Rejected (new_Error ("Unknown quality gate type: " ++ type))
  | Some class => Resolved (construct class options)
  end.

(** [registerGate(type, GateClass)]: the registry afterwards, or the
    thrown error. *)
Definition registerGate (type : string) (class : GateClass) (registry : t) : Completion t :=
  if negb (extends_base class) then Rejected (new_Error "Gate must extend BaseQualityGate")
  else Resolved (set type class registry).

(** [getGateTypes()] *)
Definition getGateTypes (registry : t) : list string := List.map fst registry.

End Registry.

Module Factory.

(** [ResultReporter.createWithAutoStorage(options)]: a new reporter, with
    the adapter of the storage factory when one could be loaded and
    initialised ([found]); the two console messages are left out. *)
Definition createWithAutoStorage (found : option Storage.Adapter)
    (options : Construct.RunnerOptions) : Reporter :=
  match found with
  | Some adapter => set_storageAdapter (Some adapter) (Construct.new_reporter options)
  | None => Construct.new_reporter options
  end.

(** The loop of [createWithGates]; [options_of type] is
    [options[type] || {}]. *)
Fixpoint add_gates (registry : Registry.t) (options_of : string -> Construct.GateOptions)
    (gateTypes : list string) (runner : QualityRunner.t) : M QualityRunner.t :=
  match gateTypes with
  | [] => ret runner
  | type :: rest =>
      match Registry.createGate registry type (options_of type) with
      | Resolved gate =>
          add_gates registry options_of rest (QualityRunner.addGate gate ∅ runner)
      | Rejected error =>
          effect (Warn ("Failed to create gate " ++ type ++ ": " ++ message error)) ;;;
          add_gates registry options_of rest runner
      end
  end.

(** [QualityRunner.createWithGates(gateTypes, options)] *)
Definition createWithGates (registry : Registry.t) (found : option Storage.Adapter)
    (gateTypes : list string) (options : Construct.RunnerOptions)
    (options_of : string -> Construct.GateOptions) : M QualityRunner.t :=
  let runner := fst (Construct.new_runner options) in
  update (set_reporter (snd (Construct.new_runner options))) ;;;
  update (set_reporter (createWithAutoStorage found options)) ;;;
  add_gates registry options_of gateTypes runner.

(** [QualityRunner.createForCI(options)] *)
Definition createForCI (registry : Registry.t) (found : option Storage.Adapter)
    (options : Construct.RunnerOptions) (options_of : string -> Construct.GateOptions)
    : M QualityRunner.t :=
  createWithGates registry found ["eslint"; "test"; "security"; "complexity"]
    (Construct.ci_options options) options_of.

End Factory.

(** ** The groups of a summary *)

Module Grouping.

(** The key under which [generateSummary] files a result:
    [result.gateName || result.gate]. *)
Definition key (result : Obj) : string :=
  to_string (or_else (get result "gateName") (get result "gate")).



End Grouping.

(** ** Outcomes of the runner's race *)

Module Outcome.

(** The error with which the runner's own timer rejects. *)
Definition timeout_error (this : QualityRunner.t) (g : BaseQualityGate.t) : Error :=
  new_Error ("Gate " ++ BaseQualityGate.name g ++ " timed out after "
               ++ pretty (QualityRunner.timeout this) ++ "ms").


End Outcome.

(** ** What a summary says about the results *)

Module Verdict.

(** The part of a summary that is computed from the results alone:
    the counters, the groups, the overall status and the score. *)
Definition read (s : Summary.t)
    : nat * nat * nat * nat * nat * gmap string GateGroup.t * option string * option Q :=
  (Summary.total s, Summary.passed s, Summary.failed s, Summary.skipped s,
   Summary.errors s, Summary.gates s, Summary.overallStatus s, Summary.score s).

End Verdict.

(** ** [TestRunnerGate.execute]: the steps around the test run *)

Module TestRun.

(** The steps [execute] takes on the file system and the test runner. *)
Inductive Step :=
| CreateTempDir
| DetectRunner (tempDir : string)
| RunTests (tempDir runner : string)
| Cleanup (tempDir : string).

(** The host: how [createTempTestEnvironment], [detectTestRunner] and
    [runTests] settle.  [cleanupTempDir] catches its own errors. *)
Record Host := {
  created : Completion string;
  detected : string -> Completion (option string);
  ran : string -> string -> Completion TestRunnerGate.TestResults
}.

(** The result when no test runner is detected. *)
Definition no_runner : Obj :=
  <["details" := VObj (<["searchedFor" := VArr [VStr "jest"; VStr "mocha"]]> ∅)]>
    (<["message" := VStr "No test runner detected (Jest or Mocha)"]>
       (<["status" := VStr "skip"]> ∅)).

(** The result after a run of the tests; [duration] of the statistics is
    the report's. *)
Definition analysed (context : Obj) (runner : string) (r : TestRunnerGate.TestResults) : Obj :=
  <["details" := VObj (<["coverage" := TestRunnerGate.coverage r]>
                         (<["testFile" := or_else (get context "fileName")
                                            (VStr "generated.test.js")]>
                            (<["runner" := VStr runner]> ∅)))]>
    (<["stats" := VObj (<["duration" := TestRunnerGate.duration r]>
                          (<["skipped" := VNum (TestRunnerGate.skipped r)]>
                             (<["failed" := VNum (TestRunnerGate.failed r)]>
                                (<["passed" := VNum (TestRunnerGate.passed r)]>
                                   (<["total" := VNum (TestRunnerGate.total r)]> ∅)))))]>
       (<["issues" := VArr (VObj <$> TestRunnerGate.issues r)]>
          (<["status" := VStr (TestRunnerGate.status_after r)]> ∅))).

(** [execute(code, context)]: the steps taken, in order, and the result
    returned.  The inner [try ... finally] cleans up once the directory
    exists; the outer [catch] turns every rejection into a result. *)
Definition execute (host : Host) (context : Obj) : list Step * Obj :=
  match created host with
  | Rejected error => ([CreateTempDir], SecurityScan.caught error)
  | Resolved tempDir =>
      match detected host tempDir with
      | Rejected error =>
          ([CreateTempDir; DetectRunner tempDir; Cleanup tempDir], SecurityScan.caught error)
      | Resolved None =>
          ([CreateTempDir; DetectRunner tempDir; Cleanup tempDir], no_runner)
      | Resolved (Some runner) =>
          match ran host tempDir runner with
          | Rejected error =>
              ([CreateTempDir; DetectRunner tempDir; RunTests tempDir runner; Cleanup tempDir],
               SecurityScan.caught error)
          | Resolved testResults =>
              ([CreateTempDir; DetectRunner tempDir; RunTests tempDir runner; Cleanup tempDir],
               analysed context runner testResults)
          end
      end
  end.

End TestRun.

(** ** Events *)

Module Events.

(** The events emitted, in order. *)
Definition emitted (tr : list Effect) : list Event :=
  omap (fun e => match e with Emit ev => Some ev | _ => None end) tr.

(** The ['complete'] event of the [k]-th attempt of a gate, when that
    attempt returns in time. *)
Definition completion (this : BaseQualityGate.t) (code : JsVal) (context : Obj) (k : nat)
    : list Event :=
  match BaseQualityGate.execute this code context k with
  | BaseQualityGate.Returns after result =>
      if after <? BaseQualityGate.timeout this
      then [EvComplete (BaseQualityGate.name this) (get result "status") after k]
      else []
  | _ => []
  end.

(** The ['retry'] event after the [k]-th attempt. *)
Definition retry (this : BaseQualityGate.t) (code : JsVal) (context : Obj) (k : nat) : Event :=
  EvRetry (BaseQualityGate.name this) k (message (Attempt.error_of this code context k)).

End Events.

(** ** The runner's events *)

Module Protocol.

(** The events of the runner's loop. *)
Definition of_runner (ev : Event) : bool :=
  match ev with
  | EvGateStarted _ | EvGateCompleted _ _ | EvGateError _ _ | EvRunStopped _ _ => true
  | _ => false
  end.

Definition runner_events (tr : list Effect) : list Event :=
  List.filter of_runner (Events.emitted tr).

(** What the sequential loop emits for an entry when the race of its
    gate settles as [settled]. *)
Definition of_entry (this : QualityRunner.t) (e : QualityRunner.Entry)
    (settled : Completion Obj) : list Event :=
  let name := BaseQualityGate.name (QualityRunner.gate e) in
  if QualityRunner.enabled e then
    EvGateStarted name
    :: match settled with
       | Resolved r =>
           EvGateCompleted name r
           :: (if negb (QualityRunner.continueOnFailure this)
                  && is_str (get r "status") "failed"
               then [EvRunStopped "Gate failed" name]
               else [])
       | Rejected error => [EvGateError name error]
       end
  else [].

End Protocol.

(** * Properties *)

(** ** The monad and the world *)

Lemma bind_resolved {A B} (c : M A) (k : A -> M B) w a w' :
  c w = (Resolved a, w') -> bind c k w = k a w'.
Proof. intros H. unfold bind. by rewrite H. Qed.

(** ** The gate executor *)

Section Executor.
Import BaseQualityGate.
Variables (this : t) (code : JsVal) (context : Obj).

(** An attempt that returns in time resolves to the gate's result. *)
Lemma executeWithTimeout_succeeds k after result w :
  Race.succeeds this code context k after result ->
  executeWithTimeout this code context k w =
    (Resolved result,
     {| now := now w + after;
        trace := (trace w ++ [Execute (name this) k]) ++ [Settle (name this) k];
        history := history w; reporter := reporter w; results := results w |}).
Proof.
  intros [Hex Hlt]. unfold executeWithTimeout. rewrite Hex.
  apply Nat.ltb_lt in Hlt. rewrite Hlt. reflexivity.
Qed.

(** An attempt whose deadline elapses rejects with the timeout error, at
    the deadline, and does nothing else. *)
Lemma executeWithTimeout_times_out k w :
  Race.times_out this code context k = true ->
  executeWithTimeout this code context k w =
    (Rejected (timeout_error this),
     {| now := now w + timeout this;
        trace := (trace w ++ [Execute (name this) k]) ++ [Expire (name this) k];
        history := history w; reporter := reporter w; results := results w |}).
Proof.
  unfold Race.times_out, executeWithTimeout.
  destruct (execute this code context k) as [after r|after e|];
    [intros ->%negb_true_iff | intros ->%negb_true_iff | intros _]; reflexivity.
Qed.


End Executor.

(** ** The reporter *)

(** Closes a goal asking for the settled promise and the world of a
    computation that has been unfolded. *)
Ltac settled :=
  do 2 eexists; split; [reflexivity|]; simpl;
  rewrite ?List.filter_app; simpl; rewrite ?app_nil_r; auto.

Section Reporter.
Import ResultReporter.

(** A call to the storage adapter settles and is added to the history. *)
Lemma storeQualityResult_spec adapter taskId gateName data w :
  storeQualityResult adapter taskId gateName data w =
    (Storage.storeQualityResult adapter (history w)
       {| Storage.taskId := taskId; Storage.gateName := gateName; Storage.data := data |},
     set_history (history w ++ [{| Storage.taskId := taskId; Storage.gateName := gateName;
                                   Storage.data := data |}]) w).
Proof. reflexivity. Qed.

(** [reportResult] never rejects; it takes no time, leaves the runner's
    results alone and does nothing of what the gate executor does. *)
Lemma reportResult_resolves gateName result w :
  exists v w',
    reportResult gateName result w = (Resolved v, w')
    /\ now w' = now w
    /\ results w' = results w
    /\ List.filter Trace.of_executor (trace w') = List.filter Trace.of_executor (trace w).
Proof.
  unfold reportResult, bind, read, ret, emit, effect, update, update_reporter, try_catch.
  destruct (Host.enabled (reporter w)); simpl; [|settled].
  destruct (batchMode (reporter w)); simpl; [settled|].
  destruct (storageAdapter (reporter w)) as [adapter|]; simpl; [|settled].
  destruct (truthy (taskId (reporter w))); simpl; [|settled].
  unfold storeQualityResult. simpl.
  destruct (Storage.storeQualityResult adapter _ _) as [id|err]; simpl; settled.
Qed.

End Reporter.

(** ** Disabled gates *)

(** C3.  A gate with [enabled = false]: [run] resolves at once to the
    result whose status is the skip status (spelled ['skipped']), with the
    gate's name and a reason, and leaves the world exactly as it found it,
    so that [execute] is not invoked, no timer is armed, nothing sleeps
    and no retry is announced.  In the runner's sequential loop an entry
    that is disabled gets its skip result pushed and reported without any
    step of the gate executor, in no time, and the loop goes on with the
    next entry. *)
Theorem disabled_gate_is_skipped
    (this : BaseQualityGate.t) (code : JsVal) (context : Obj) (w : World) :
  BaseQualityGate.enabled this = false ->
  BaseQualityGate.run this code context w
    = (Resolved (BaseQualityGate.skipped_result this), w)
  /\ BaseQualityGate.skipped_result this !! "status" = Some (VStr "skipped")
  /\ ResultReporter.status_of (BaseQualityGate.skipped_result this) = Some ResultReporter.skip
  /\ BaseQualityGate.skipped_result this !! "gate" = Some (VStr (BaseQualityGate.name this))
  /\ BaseQualityGate.skipped_result this !! "reason" = Some (VStr "Gate is disabled")
  /\ forall (runner : QualityRunner.t) (e : QualityRunner.Entry) rest,
       QualityRunner.gate e = this ->
       QualityRunner.enabled e = false ->
       exists w1,
         QualityRunner._runSequential runner code context (e :: rest) w
           = QualityRunner._runSequential runner code context rest w1
         /\ results w1 = (results w ++ [QualityRunner.skipped_result this])%list
         /\ ResultReporter.status_of (QualityRunner.skipped_result this)
              = Some ResultReporter.skip
         /\ now w1 = now w
         /\ List.filter Trace.of_executor (trace w1)
              = List.filter Trace.of_executor (trace w).
Proof.
  intros Hoff. split.
  { unfold BaseQualityGate.run. by rewrite Hoff. }
  do 4 (split; [reflexivity|]).
  intros runner e rest <- He. simpl. rewrite He. simpl.
  set (skipped := QualityRunner.skipped_result (QualityRunner.gate e)).
  set (w0 := set_results (results w ++ [skipped]) w).
  destruct (reportResult_resolves (BaseQualityGate.name (QualityRunner.gate e)) skipped w0)
    as (v & w1 & Hrep & Hnow & Hres & Htr).
  exists w1. split.
  { unfold bind at 1. unfold push_result, update. fold w0.
    unfold bind at 1. by rewrite Hrep. }
  by rewrite Hnow, Hres, Htr.
Qed.

(** The disabled sample gate. *)
Lemma disabled_gate_is_skipped_witness :
  BaseQualityGate.run Sample.off (VStr "code") ∅ Sample.world
    = (Resolved (BaseQualityGate.skipped_result Sample.off), Sample.world).
Proof.
  apply (disabled_gate_is_skipped Sample.off (VStr "code") ∅ Sample.world).
  reflexivity.
Defined.

(** ** The retry loop *)

Section RetryLoop.
Import BaseQualityGate.
Variables (this : t) (code : JsVal) (context : Obj).

(** Unfolds the monad's operations, leaving arithmetic alone. *)
Ltac steps :=
  cbv beta iota delta [bind ret throw try_catch read update effect emit elapse sleep
                         set_now set_trace now trace history reporter results].

(** One turn of the loop whose attempt raises: when a retry is left, it
    is announced and waited for. *)
Lemma attempt_loop_raise budget attempts lastError w error w1 :
  attempts <= retryCount this ->
  executeWithTimeout this code context (attempts + 1) w = (Rejected error, w1) ->
  attempt_loop (S budget) this code context attempts lastError w =
    attempt_loop budget this code context (attempts + 1) (Some error)
      (if attempts + 1 <=? retryCount this
       then {| now := now w1 + 1000 * (attempts + 1);
               trace := (trace w1 ++ [Emit (EvRetry (name this) (attempts + 1) (message error))])
                          ++ [Sleep (1000 * (attempts + 1))];
               history := history w1; reporter := reporter w1; results := results w1 |}
       else w1).
Proof.
  intros Hle Hex. cbn [attempt_loop].
  apply Nat.leb_le in Hle. rewrite Hle.
  unfold try_catch at 1. unfold bind at 1. unfold read at 1.
  unfold bind at 1. rewrite Hex.
  unfold bind at 1.
  destruct (attempts + 1 <=? retryCount this); [|reflexivity].
  steps. destruct w1; reflexivity.
Qed.

(** One turn of the loop whose attempt returns. *)
Lemma attempt_loop_return budget attempts lastError w result w1 :
  attempts <= retryCount this ->
  executeWithTimeout this code context (attempts + 1) w = (Resolved result, w1) ->
  attempt_loop (S budget) this code context attempts lastError w =
    (Resolved (<["attempts" := VNum (attempts + 1)]>
                 (<["duration" := VNum (now w1 - now w)]>
                    (<["gate" := VStr (name this)]> result))),
     {| now := now w1;
        trace := trace w1 ++ [Emit (EvComplete (name this) (get result "status")
                                      (now w1 - now w) (attempts + 1))];
        history := history w1; reporter := reporter w1; results := results w1 |}).
Proof.
  intros Hle Hex. cbn [attempt_loop].
  apply Nat.leb_le in Hle. rewrite Hle.
  unfold try_catch at 1. unfold bind at 1. unfold read at 1.
  unfold bind at 1. rewrite Hex. steps. reflexivity.
Qed.

(** Leaving the loop: the guard fails. *)
Lemma attempt_loop_exit budget attempts lastError w :
  retryCount this < attempts ->
  attempt_loop budget this code context attempts lastError w
    = all_failed this attempts lastError w.
Proof.
  intros Hlt. destruct budget; [reflexivity|]. cbn [attempt_loop].
  apply Nat.leb_gt in Hlt. by rewrite Hlt.
Qed.

End RetryLoop.

(** ** Retry with linear backoff *)



(** ** Gates that never settle in time *)

Section TimedOut.
Import BaseQualityGate.
Variables (this : t) (code : JsVal) (context : Obj).
Hypothesis Hslow : forall k, Race.times_out this code context k = true.





End TimedOut.





(** ** What a timeout leaves behind *)





(** ** The summary *)

Section SummaryCounts.
Import ResultReporter.

(** What one result adds to the counters. *)
Lemma count_adds summary result :
  Summary.total (count summary result) = Summary.total summary
  /\ Summary.passed (count summary result)
       = Summary.passed summary + Nat.b2n (has_status pass result)
  /\ Summary.failed (count summary result)
       = Summary.failed summary + Nat.b2n (has_status fail result)
  /\ Summary.skipped (count summary result)
       = Summary.skipped summary + Nat.b2n (has_status skip result)
  /\ Summary.errors (count summary result)
       = Summary.errors summary + Nat.b2n (has_status error result).
Proof.
  unfold count, has_status, status_of.
  destruct (is_str (get result "status") "passed");
    [cbn; repeat split; lia|].
  destruct (is_str (get result "status") "failed");
    [cbn; repeat split; lia|].
  destruct (is_str (get result "status") "skipped");
    [cbn; repeat split; lia|].
  destruct (is_str (get result "status") "error");
    cbn; repeat split; lia.
Qed.

(** The counters after the whole loop. *)
Lemma fold_count_adds results :
  forall summary,
    Summary.total (fold_left count results summary) = Summary.total summary
    /\ Summary.passed (fold_left count results summary)
         = Summary.passed summary + how_many pass results
    /\ Summary.failed (fold_left count results summary)
         = Summary.failed summary + how_many fail results
    /\ Summary.skipped (fold_left count results summary)
         = Summary.skipped summary + how_many skip results
    /\ Summary.errors (fold_left count results summary)
         = Summary.errors summary + how_many error results.
Proof.
  unfold how_many.
  induction results as [|r results IH]; intros summary; cbn [fold_left List.filter].
  - cbn. repeat split; lia.
  - destruct (IH (count summary r)) as (Ht & Hp & Hf & Hs & He).
    destruct (count_adds summary r) as (Ht1 & Hp1 & Hf1 & Hs1 & He1).
    rewrite Ht, Hp, Hf, Hs, He, Ht1, Hp1, Hf1, Hs1, He1.
    destruct (has_status pass r), (has_status fail r), (has_status skip r),
      (has_status error r); cbn [Nat.b2n length]; repeat split; lia.
Qed.

(** The clock only shows in the timestamp. *)
Lemma count_set_timestamp ts summary result :
  count (Summary.set_timestamp ts summary) result
    = Summary.set_timestamp ts (count summary result).
Proof.
  unfold count.
  destruct (is_str (get result "status") "passed"); [reflexivity|].
  destruct (is_str (get result "status") "failed"); [reflexivity|].
  destruct (is_str (get result "status") "skipped"); [reflexivity|].
  destruct (is_str (get result "status") "error"); reflexivity.
Qed.

Lemma fold_count_set_timestamp ts results :
  forall summary,
    fold_left count results (Summary.set_timestamp ts summary)
      = Summary.set_timestamp ts (fold_left count results summary).
Proof.
  induction results as [|r results IH]; intros summary; cbn [fold_left]; [reflexivity|].
  by rewrite count_set_timestamp, IH.
Qed.

(** [total] is the length of the sequence. *)
Lemma generateSummary_total this clock results :
  Summary.total (generateSummary this clock results) = length results.
Proof.
  unfold generateSummary.
  match goal with |- context [fold_left count results ?s0] =>
    destruct (fold_count_adds results s0) as (Ht & _)
  end.
  cbn [Summary.set_verdict Summary.total]. exact Ht.
Qed.

End SummaryCounts.



(** The spelling of the four statuses in a result. *)
Lemma status_of_spelling (result : Obj) (st : ResultReporter.Status) :
  ResultReporter.status_of result = Some st <->
  result !! "status" =
    Some (VStr match st with
               | ResultReporter.pass => "passed"
               | ResultReporter.fail => "failed"
               | ResultReporter.skip => "skipped"
               | ResultReporter.error => "error"
               end).
Proof.
  unfold ResultReporter.status_of, get.
  destruct (result !! "status") as [[| |b|n|s|o|l]|]; cbn;
    try (split; [discriminate | by destruct st]).
  destruct (String.eqb_spec s "passed") as [->|Hp].
  { split; [intros [= <-]; reflexivity | by destruct st]. }
  destruct (String.eqb_spec s "failed") as [->|Hf].
  { split; [intros [= <-]; reflexivity | by destruct st]. }
  destruct (String.eqb_spec s "skipped") as [->|Hs].
  { split; [intros [= <-]; reflexivity | by destruct st]. }
  destruct (String.eqb_spec s "error") as [->|He].
  { split; [intros [= <-]; reflexivity | by destruct st]. }
  split; [discriminate | destruct st; intros [= ->]; contradiction].
Qed.

(** ** The summary and the clock *)

(** A summary made at any time is the one made at time 0 with its own
    timestamp. *)
Lemma generateSummary_at (this : Reporter) (clock : nat) (results : list Obj) :
  ResultReporter.generateSummary this clock results
    = Summary.set_timestamp (ResultReporter.toISOString clock)
        (ResultReporter.generateSummary this 0 results).
Proof.
  unfold ResultReporter.generateSummary.
  match goal with |- context [fold_left ResultReporter.count results ?s] =>
    change s with (Summary.set_timestamp (ResultReporter.toISOString clock)
                     {| Summary.total := length results; Summary.passed := 0;
                        Summary.failed := 0; Summary.skipped := 0; Summary.errors := 0;
                        Summary.gates := ∅;
                        Summary.timestamp := ResultReporter.toISOString 0;
                        Summary.taskId := taskId this; Summary.overallStatus := None;
                        Summary.score := None; Summary.duration := None;
                        Summary.stored := None; Summary.storageId := None;
                        Summary.storageError := None |})
  end.
  rewrite fold_count_set_timestamp. reflexivity.
Qed.

(** C4, as the code has it.  [generateSummary] reads the clock: the
    summary carries the time of the call as [timestamp] (and the
    reporter's [taskId]).  Two calls on the same sequence give summaries
    that agree in everything but [timestamp]: the second is the first
    with the timestamp of the second call, and they are identical when
    the clock reads the same at both calls. *)
Theorem generateSummary_same_but_timestamp
    (this : Reporter) (first second : nat) (results : list Obj) :
  Summary.timestamp (ResultReporter.generateSummary this first results)
    = ResultReporter.toISOString first
  /\ ResultReporter.generateSummary this second results
       = Summary.set_timestamp (ResultReporter.toISOString second)
           (ResultReporter.generateSummary this first results)
  /\ (first = second ->
      ResultReporter.generateSummary this first results
        = ResultReporter.generateSummary this second results).
Proof.
  split.
  { rewrite generateSummary_at. reflexivity. }
  split.
  { rewrite (generateSummary_at this second), (generateSummary_at this first).
    reflexivity. }
  by intros ->.
Qed.

(** The same sequence summarised at 0 and at 1. *)
Lemma generateSummary_same_but_timestamp_witness :
  ResultReporter.generateSummary Sample.plain 1 [Sample.result "G1" "passed"]
    = Summary.set_timestamp (ResultReporter.toISOString 1)
        (ResultReporter.generateSummary Sample.plain 0 [Sample.result "G1" "passed"]).
Proof.
  apply (generateSummary_same_but_timestamp Sample.plain 0 1 [Sample.result "G1" "passed"]).
Defined.

(** Against C4 as stated: two calls on the same (empty) sequence, one
    millisecond apart, give different summaries. *)
Lemma generateSummary_twice_differs :
  ResultReporter.generateSummary Sample.plain 0 []
    <> ResultReporter.generateSummary Sample.plain 1 [].
Proof.
  intros Heq. apply (f_equal Summary.timestamp) in Heq.
  vm_compute in Heq. discriminate.
Qed.

(** ** Storage failures *)

Section StorageFailures.
Import ResultReporter.

(** [storeSummary] never rejects, and touches nothing but the history of
    the adapter. *)
Lemma storeSummary_resolves summary w :
  exists summary' w',
    storeSummary summary w = (Resolved summary', w')
    /\ reporter w' = reporter w /\ trace w' = trace w /\ now w' = now w
    /\ results w' = results w
    /\ Summary.total summary' = Summary.total summary
    /\ Summary.overallStatus summary' = Summary.overallStatus summary.
Proof.
  unfold storeSummary, bind, read, ret, try_catch.
  destruct (storageAdapter (reporter w)) as [adapter|]; [|by eauto 10].
  destruct (truthy (taskId (reporter w))); cbn [negb]; [|by eauto 10].
  rewrite storeQualityResult_spec.
  destruct (Storage.storeQualityResult adapter _ _) as [id|err]; by eauto 10.
Qed.

(** The loop of [flushBatch] never rejects: each buffered result is
    counted as stored or as failed and handed back. *)
Lemma flush_loop_resolves adapter task batch :
  forall summary w,
    exists summary' w',
      flush_loop adapter task batch summary w = (Resolved summary', w')
      /\ reporter w' = reporter w
      /\ results w' = results w
      /\ Flush.total summary' = Flush.total summary
      /\ Flush.stored summary' + Flush.failed summary'
           = Flush.stored summary + Flush.failed summary + length batch
      /\ length (Flush.results summary') = length (Flush.results summary) + length batch.
Proof.
  induction batch as [|result batch IH]; intros summary w; cbn [flush_loop].
  { exists summary, w. unfold ret. cbn [length]. repeat split; lia. }
  unfold bind at 1. unfold try_catch at 1. unfold bind at 1.
  rewrite storeQualityResult_spec.
  destruct (Storage.storeQualityResult adapter _ _) as [id|err]; unfold ret at 1.
  - match goal with |- context [flush_loop adapter task batch ?s ?w0] =>
      destruct (IH s w0) as (s' & w' & Hrun & Hrep & Hres & Ht & Hc & Hl)
    end.
    exists s', w'. split; [exact Hrun|]. cbn in *.
    rewrite length_app in Hl. cbn in Hl. repeat split; [done|done|done|lia|lia].
  - match goal with |- context [flush_loop adapter task batch ?s ?w0] =>
      destruct (IH s w0) as (s' & w' & Hrun & Hrep & Hres & Ht & Hc & Hl)
    end.
    exists s', w'. split; [exact Hrun|]. cbn in *.
    rewrite length_app in Hl. cbn in Hl. repeat split; [done|done|done|lia|lia].
Qed.

End StorageFailures.



(** ** Flushing the batch *)



(** ** The executor in general *)

Section ExecutorInGeneral.
Import BaseQualityGate.
Variables (this : t) (code : JsVal) (context : Obj).

(** Any attempt: [execute] is invoked once, and either it settles or its
    timer expires; nothing else changes but the clock. *)
Lemma executeWithTimeout_spec k w :
  exists settled dt mark,
    executeWithTimeout this code context k w =
      (settled,
       {| now := now w + dt;
          trace := (trace w ++ [Execute (name this) k]) ++ [mark];
          history := history w; reporter := reporter w; results := results w |})
    /\ (mark = Settle (name this) k \/ mark = Expire (name this) k).
Proof.
  unfold executeWithTimeout.
  destruct (execute this code context k) as [after r|after e|];
    [destruct (after <? timeout this) | destruct (after <? timeout this) |];
    do 3 eexists; (split; [reflexivity|]); eauto.
Qed.

Lemma sleeps_snoc tr e :
  Trace.sleeps (tr ++ [e]) =
    (Trace.sleeps tr ++ match e with Sleep ms => [ms] | _ => [] end)%list.
Proof. unfold Trace.sleeps. rewrite omap_app. by destruct e. Qed.

(** The retry loop always resolves to a result that carries the gate's
    name.  It only appends to the trace, starting with the invocation of
    the next attempt if one is left, and its sleeps are 1000 ms times the
    number of the attempt that failed, for as many retries as it makes. *)
Lemma attempt_loop_spec budget :
  forall attempts lastError w,
    S (retryCount this) <= attempts + budget ->
    (retryCount this < attempts -> lastError <> None) ->
    exists r w' l m,
      attempt_loop budget this code context attempts lastError w = (Resolved r, w')
      /\ r !! "gate" = Some (VStr (name this))
      /\ history w' = history w /\ reporter w' = reporter w /\ results w' = results w
      /\ now w <= now w'
      /\ trace w' = (trace w ++ l)%list
      /\ (attempts <= retryCount this -> exists l', l = Execute (name this) (attempts + 1) :: l')
      /\ Trace.sleeps l = List.map (fun k => 1000 * k) (seq (attempts + 1) m)
      /\ m <= retryCount this - attempts.
Proof.
  induction budget as [|budget IH]; intros attempts lastError w Hbudget Hlast.
  - assert (Hgt : retryCount this < attempts) by lia.
    cbn [attempt_loop]. destruct lastError as [e|]; [|by destruct (Hlast Hgt)].
    eexists; exists w, [], 0. cbn [all_failed]. unfold ret.
    split; [reflexivity|]. split; [done|]. rewrite app_nil_r.
    repeat split; try done; lia.
  - destruct (Nat.le_gt_cases attempts (retryCount this)) as [Hle|Hgt].
    2:{ rewrite attempt_loop_exit by done.
        destruct lastError as [e|]; [|by destruct (Hlast Hgt)].
        eexists; exists w, [], 0. cbn [all_failed]. unfold ret.
        split; [reflexivity|]. split; [done|]. rewrite app_nil_r.
        repeat split; try done; lia. }
    destruct (executeWithTimeout_spec (attempts + 1) w) as (settled & dt & mark & Hex & Hmark).
    destruct settled as [result|error].
    + rewrite (attempt_loop_return this code context budget attempts lastError w _ _ Hle Hex).
      do 2 eexists.
      exists [Execute (name this) (attempts + 1); mark;
              Emit (EvComplete (name this) (get result "status")
                      (now w + dt - now w) (attempts + 1))], 0.
      split; [reflexivity|]. cbn [now trace history reporter results].
      split; [by rewrite lookup_insert_ne, lookup_insert_ne, lookup_insert_eq|].
      split; [done|]. split; [done|]. split; [done|]. split; [lia|].
      split; [by rewrite <- !app_assoc|]. split; [by eauto|].
      split; [|lia]. destruct Hmark as [-> | ->]; reflexivity.
    + rewrite (attempt_loop_raise this code context budget attempts lastError w _ _ Hle Hex).
      match goal with |- context [attempt_loop budget _ _ _ _ _ ?x] => set (w1 := x) end.
      destruct (IH (attempts + 1) (Some error) w1 ltac:(lia) ltac:(done))
        as (r & w' & l & m & Hrun & Hgate & Hh & Hr & Hres & Hnow & Htr & _ & Hsl & Hm).
      destruct (Nat.leb_spec (attempts + 1) (retryCount this)) as [Hretry|Hlast'].
      * exists r, w',
          ([Execute (name this) (attempts + 1); mark;
            Emit (EvRetry (name this) (attempts + 1) (message error));
            Sleep (1000 * (attempts + 1))] ++ l)%list, (S m).
        subst w1. cbn [now trace history reporter results] in *.
        split; [exact Hrun|]. split; [exact Hgate|].
        split; [done|]. split; [done|]. split; [done|]. split; [lia|].
        split; [rewrite Htr; by rewrite <- !app_assoc|]. split; [by eauto|].
        split; [|lia].
        change (Trace.sleeps ([Execute (name this) (attempts + 1); mark;
                  Emit (EvRetry (name this) (attempts + 1) (message error));
                  Sleep (1000 * (attempts + 1))] ++ l)%list)
          with (Trace.sleeps ([Execute (name this) (attempts + 1); mark] ++
                  [Emit (EvRetry (name this) (attempts + 1) (message error))] ++
                  [Sleep (1000 * (attempts + 1))] ++ l)%list).
        unfold Trace.sleeps in *. rewrite !omap_app, Hsl.
        replace (attempts + 1 + 1) with (S (attempts + 1)) by lia.
        destruct Hmark as [-> | ->]; reflexivity.
      * exists r, w', ([Execute (name this) (attempts + 1); mark] ++ l)%list, 0.
        subst w1. cbn [now trace history reporter results] in *.
        assert (m = 0) as -> by lia.
        split; [exact Hrun|]. split; [exact Hgate|].
        split; [done|]. split; [done|]. split; [done|]. split; [lia|].
        split; [rewrite Htr; by rewrite <- !app_assoc|]. split; [by eauto|].
        split; [|lia].
        unfold Trace.sleeps in *. rewrite omap_app, Hsl.
        destruct Hmark as [-> | ->]; reflexivity.
Qed.

(** [run] never rejects.  Its result carries the gate's name; it leaves
    the reporter, the storage history and the runner's results alone; an
    enabled gate has its [execute] invoked first thing; and the waits
    before the retries grow linearly: 1000 ms before the second attempt,
    2000 ms before the third, and so on, at most [retryCount] of them. *)
Lemma run_spec w :
  exists r w' l m,
    run this code context w = (Resolved r, w')
    /\ r !! "gate" = Some (VStr (name this))
    /\ history w' = history w /\ reporter w' = reporter w /\ results w' = results w
    /\ now w <= now w'
    /\ trace w' = (trace w ++ l)%list
    /\ (enabled this = true -> exists l', l = Execute (name this) 1 :: l')
    /\ Trace.sleeps l = List.map (fun k => 1000 * k) (seq 1 m)
    /\ m <= retryCount this.
Proof.
  unfold run. destruct (enabled this) eqn:Hon; cbn [negb].
  - destruct (attempt_loop_spec (S (retryCount this)) 0 None w ltac:(lia) ltac:(lia))
      as (r & w' & l & m & Hrun & Hgate & Hh & Hr & Hres & Hnow & Htr & Hfirst & Hsl & Hm).
    exists r, w', l, m. rewrite Hrun. repeat split; try done; try lia.
    intros _. apply Hfirst. lia.
  - eexists; exists w, [], 0. unfold ret. split; [reflexivity|].
    split; [done|]. rewrite app_nil_r. repeat split; try done; lia.
Qed.

End ExecutorInGeneral.

(** ** The runner in general *)

Section RunnerInGeneral.
Import QualityRunner.
Variables (this : t) (code : JsVal) (context : Obj).

Lemma invocations_of_executor tr :
  Trace.invocations (List.filter Trace.of_executor tr) = Trace.invocations tr.
Proof.
  unfold Trace.invocations.
  induction tr as [|e tr IH]; [reflexivity|]. cbn [List.filter].
  destruct e as [g k|g k|g k|ms|ev|msg]; cbn; rewrite ?IH; try reflexivity.
  destruct ev; cbn; by rewrite ?IH.
Qed.

Lemma invocations_app tr1 tr2 :
  Trace.invocations (tr1 ++ tr2) = (Trace.invocations tr1 ++ Trace.invocations tr2)%list.
Proof. apply omap_app. Qed.

(** A gate raced against the runner's timer: whatever the outcome, a
    resolved result carries the gate's name, only the clock and the trace
    move, and an enabled gate has had its [execute] invoked. *)
Lemma _runGateWithTimeout_spec g w :
  exists settled w' l,
    _runGateWithTimeout this g code context w = (settled, w')
    /\ (forall r, settled = Resolved r -> r !! "gate" = Some (VStr (BaseQualityGate.name g)))
    /\ history w' = history w /\ reporter w' = reporter w /\ results w' = results w
    /\ now w <= now w'
    /\ trace w' = (trace w ++ l)%list
    /\ (BaseQualityGate.enabled g = true ->
        exists l', l = Execute (BaseQualityGate.name g) 1 :: l').
Proof.
  unfold _runGateWithTimeout.
  destruct (run_spec g code context w)
    as (r & w' & l & m & Hrun & Hgate & Hh & Hr & Hres & Hnow & Htr & Hfirst & _).
  rewrite Hrun. destruct (now w' - now w <? timeout this).
  - exists (Resolved r), w', l. split; [reflexivity|].
    split; [by intros ? [= <-]|]. repeat split; done.
  - eexists (Rejected _), _, l. split; [reflexivity|].
    split; [discriminate|]. cbn [set_now now trace history reporter results].
    repeat split; try done. lia.
Qed.

(** One turn of the sequential loop on an enabled entry: the result of
    the gate, or the error result when its promise rejects, is pushed and
    reported, and the loop is left exactly when [continueOnFailure] is
    off and either the promise rejected or the result's status is the
    string ['failed']. *)
Lemma _runSequential_enabled e rest w settled w1 :
  enabled e = true ->
  _runGateWithTimeout this (gate e) code context
    (set_trace (trace w ++ [Emit (EvGateStarted (BaseQualityGate.name (gate e)))]) w)
    = (settled, w1) ->
  let pushed := match settled with
                | Resolved r => r
                | Rejected error => error_result (gate e) error
                end in
  let stop := negb (continueOnFailure this)
              && match settled with
                 | Resolved r => is_str (get r "status") "failed"
                 | Rejected _ => true
                 end in
  exists w2,
    results w2 = (results w1 ++ [pushed])%list
    /\ Trace.invocations (trace w2) = Trace.invocations (trace w1)
    /\ now w2 = now w1
    /\ _runSequential this code context (e :: rest) w =
         if stop then (Resolved tt, w2) else _runSequential this code context rest w2.
Proof.
  intros Hon Hgate pushed stop. cbn [_runSequential]. rewrite Hon. cbn [negb].
  unfold bind at 1. unfold try_catch at 1. unfold bind at 1.
  unfold emit at 1, effect at 1, update at 1. unfold bind at 1. rewrite Hgate.
  destruct settled as [r|error].
  - unfold bind at 1. unfold push_result at 1, update at 1. unfold bind at 1.
    set (w1' := set_results (results w1 ++ [r]) w1).
    destruct (reportResult_resolves (BaseQualityGate.name (gate e)) r w1')
      as (v & w2 & Hrep & Hnow & Hres & Htr).
    rewrite Hrep. unfold bind at 1. unfold emit at 1, effect at 1, update at 1.
    match goal with |- context [set_trace ?tr w2] => set (w3 := set_trace tr w2) end.
    assert (Hw3 : results w3 = (results w1 ++ [r])%list
                  /\ Trace.invocations (trace w3) = Trace.invocations (trace w1)
                  /\ now w3 = now w1).
    { subst w3 w1'. cbn [set_trace set_results results trace now] in *.
      rewrite Hres, Hnow. split; [done|]. split; [|done].
      rewrite invocations_app. cbn. rewrite app_nil_r.
      rewrite <- (invocations_of_executor (trace w2)), Htr.
      apply invocations_of_executor. }
    subst stop pushed. destruct (negb (continueOnFailure this)); cbn [andb].
    + destruct (is_str (get r "status") "failed").
      * destruct Hw3 as (Hres3 & Hinv3 & Hnow3).
        exists (set_trace (trace w3 ++ [Emit (EvRunStopped "Gate failed"
                                               (BaseQualityGate.name (gate e)))]) w3).
        cbn [set_trace results trace now].
        split; [exact Hres3|]. split; [|split; [exact Hnow3 | reflexivity]].
        rewrite invocations_app. cbn. by rewrite app_nil_r.
      * exists w3. split; [apply Hw3|]. split; [apply Hw3|]. split; [apply Hw3|].
        reflexivity.
    + exists w3. split; [apply Hw3|]. split; [apply Hw3|]. split; [apply Hw3|].
      reflexivity.
  - unfold bind at 1. unfold push_result at 1, update at 1. unfold bind at 1.
    set (w1' := set_results (results w1 ++ [error_result (gate e) error]) w1).
    destruct (reportResult_resolves (BaseQualityGate.name (gate e))
                (error_result (gate e) error) w1')
      as (v & w2 & Hrep & Hnow & Hres & Htr).
    rewrite Hrep. unfold bind at 1. unfold emit at 1, effect at 1, update at 1.
    match goal with |- context [set_trace ?tr w2] => set (w3 := set_trace tr w2) end.
    assert (Hw3 : results w3 = (results w1 ++ [error_result (gate e) error])%list
                  /\ Trace.invocations (trace w3) = Trace.invocations (trace w1)
                  /\ now w3 = now w1).
    { subst w3 w1'. cbn [set_trace set_results results trace now] in *.
      rewrite Hres, Hnow. split; [done|]. split; [|done].
      rewrite invocations_app. cbn. rewrite app_nil_r.
      rewrite <- (invocations_of_executor (trace w2)), Htr.
      apply invocations_of_executor. }
    subst stop pushed. exists w3.
    split; [apply Hw3|]. split; [apply Hw3|]. split; [apply Hw3|].
    destruct (negb (continueOnFailure this)); reflexivity.
Qed.

End RunnerInGeneral.

(** ** Parallel mode in general *)

Section ParallelInGeneral.
Import QualityRunner.
Variables (this : t) (code : JsVal) (context : Obj).

(** [reportResult] invokes no gate. *)
Lemma reportResult_invocations gateName result w :
  exists v w',
    ResultReporter.reportResult gateName result w = (Resolved v, w')
    /\ now w' = now w /\ results w' = results w
    /\ Trace.invocations (trace w') = Trace.invocations (trace w).
Proof.
  destruct (reportResult_resolves gateName result w) as (v & w' & Hrep & Hnow & Hres & Htr).
  exists v, w'. repeat split; try done.
  by rewrite <- (invocations_of_executor (trace w')), Htr, invocations_of_executor.
Qed.

(** A resumed callback resolves to the gate's result, or to the error
    result when the gate's promise rejected. *)
Lemma resume_spec e finish settled w :
  exists w',
    resume e finish settled w =
      (Resolved match settled with
                | Resolved r => r
                | Rejected error => error_result (gate e) error
                end, w')
    /\ results w' = results w
    /\ Trace.invocations (trace w') = Trace.invocations (trace w).
Proof.
  unfold resume. unfold bind at 1. unfold update at 1.
  unfold try_catch. unfold bind at 1.
  destruct settled as [r|error].
  - destruct (reportResult_invocations (BaseQualityGate.name (gate e)) r (set_now finish w))
      as (v & w1 & Hrep & _ & Hres & Hinv).
    unfold bind at 1. rewrite Hrep. eexists. split; [reflexivity|].
    cbn [set_trace results trace]. rewrite invocations_app, Hres, Hinv. cbn.
    by rewrite app_nil_r.
  - destruct (reportResult_invocations (BaseQualityGate.name (gate e))
                (error_result (gate e) error) (set_now finish w))
      as (v & w1 & Hrep & _ & Hres & Hinv).
    unfold bind at 1. rewrite Hrep. eexists. split; [reflexivity|].
    cbn [set_trace results trace]. rewrite invocations_app, Hres, Hinv. cbn.
    by rewrite app_nil_r.
Qed.

Lemma resume_all_spec l :
  forall w,
    exists w',
      resume_all l w =
        (Resolved ((fun p : Pending =>
                      (fst (fst (fst p)),
                       match snd p with
                       | Resolved r => r
                       | Rejected error => error_result (gate (snd (fst (fst p)))) error
                       end)) <$> l), w')
      /\ results w' = results w
      /\ Trace.invocations (trace w') = Trace.invocations (trace w).
Proof.
  induction l as [|[[[i e] finish] settled] l IH]; intros w.
  - exists w. by cbn.
  - cbn [resume_all]. destruct (resume_spec e finish settled w) as (w1 & Hres & Hr1 & Hi1).
    unfold bind at 1. rewrite Hres.
    destruct (IH w1) as (w2 & Hall & Hr2 & Hi2).
    unfold bind at 1. rewrite Hall. exists w2. unfold ret.
    split; [reflexivity|]. by rewrite Hr2, Hr1, Hi2, Hi1.
Qed.

(** The order of completion is a rearrangement of the started callbacks. *)
Lemma insert_by_finish_perm p l : insert_by_finish p l ≡ₚ p :: l.
Proof.
  induction l as [|q l IH]; cbn [insert_by_finish]; [done|].
  destruct (finish_of q <=? finish_of p); [|done].
  rewrite IH. apply Permutation_swap.
Qed.

Lemma completion_order_perm l : completion_order l ≡ₚ l.
Proof.
  unfold completion_order.
  assert (H : forall acc, fold_left (fun acc p => insert_by_finish p acc) l acc ≡ₚ (l ++ acc)%list).
  { induction l as [|p l IH]; intros acc; cbn [fold_left]; [done|].
    rewrite IH, insert_by_finish_perm. cbn. by rewrite Permutation_middle. }
  by rewrite H, app_nil_r.
Qed.

(** The started callbacks are numbered by their positions in
    [this.gates], in increasing order. *)
Lemma pending_of_ge entries :
  forall slots i0 p, p ∈ pending_of entries slots i0 -> i0 <= fst (fst (fst p)).
Proof.
  induction entries as [|e entries IH]; intros slots i0 p; cbn [pending_of].
  { by intros ?%elem_of_nil. }
  destruct slots as [|[skipped|[finish settled]] slots].
  - by intros ?%elem_of_nil.
  - intros Hin%IH. lia.
  - intros [->|Hin%IH]%elem_of_cons; cbn; lia.
Qed.

Lemma pending_of_NoDup entries :
  forall slots i0, NoDup ((fun p : Pending => fst (fst (fst p))) <$> pending_of entries slots i0).
Proof.
  induction entries as [|e entries IH]; intros slots i0; cbn [pending_of].
  { constructor. }
  destruct slots as [|[skipped|[finish settled]] slots]; [constructor | apply IH |].
  cbn. constructor; [|apply IH].
  intros (p & Heq & Hin%pending_of_ge)%list_elem_of_fmap. cbn in Heq. lia.
Qed.

(** Looking a started callback up by its position finds its value. *)
Lemma pending_of_lookup (value : Pending -> Obj) entries :
  forall slots i0 j e finish settled,
    entries !! j = Some e ->
    slots !! j = Some (inr (finish, settled)) ->
    (list_to_map ((fun p : Pending => (fst (fst (fst p)), value p))
                    <$> pending_of entries slots i0) : gmap nat Obj) !! (i0 + j)
      = Some (value (i0 + j, e, finish, settled)).
Proof.
  induction entries as [|e0 entries IH]; intros slots i0 j e finish settled He Hs.
  { by rewrite lookup_nil in He. }
  destruct slots as [|slot slots]; [by rewrite lookup_nil in Hs|].
  destruct j as [|j]; cbn in He, Hs.
  - injection He as ->. injection Hs as ->. cbn [pending_of].
    rewrite Nat.add_0_r. cbn. apply lookup_insert_eq.
  - replace (i0 + S j) with (S i0 + j) by lia.
    cbn [pending_of]. destruct slot as [skipped|[finish0 settled0]].
    + by apply IH.
    + cbn. rewrite lookup_insert_ne by lia.
      change (S (i0 + j)) with (S i0 + j). by apply IH.
Qed.

(** Starting a callback: a disabled entry yields its skip result at
    once; an enabled one has its gate run, which invokes [execute] when the
    gate itself is enabled, and a result it resolves to carries the gate's
    name. *)
Lemma dispatch_spec e w :
  exists slot w' inv,
    dispatch this code context e w = (Resolved slot, w')
    /\ match slot with
       | inl skipped => enabled e = false /\ skipped = skipped_result (gate e)
       | inr (_, settled) =>
           enabled e = true
           /\ forall r, settled = Resolved r ->
                r !! "gate" = Some (VStr (BaseQualityGate.name (gate e)))
       end
    /\ results w' = results w
    /\ Trace.invocations (trace w') = (Trace.invocations (trace w) ++ inv)%list
    /\ (enabled e = true -> BaseQualityGate.enabled (gate e) = true ->
        (BaseQualityGate.name (gate e), 1) ∈ inv).
Proof.
  unfold dispatch. destruct (enabled e) eqn:Hon; cbn [negb].
  - unfold bind at 1. unfold emit at 1, effect at 1, update at 1.
    match goal with |- context [_runGateWithTimeout this (gate e) code context ?x] =>
      set (w0 := x) end.
    destruct (_runGateWithTimeout_spec this code context (gate e) w0)
      as (settled & w1 & l & Hrun & Hgate & _ & _ & Hres & _ & Htr & Hfirst).
    rewrite Hrun. exists (inr (now w1, settled)), (set_now (now w0) w1), (Trace.invocations l).
    split; [reflexivity|]. split; [by split|].
    cbn [set_now results trace]. split; [by rewrite Hres|].
    split.
    { rewrite Htr. subst w0. cbn [set_trace trace].
      rewrite !invocations_app. cbn. by rewrite app_nil_r. }
    intros _ Hgon. destruct (Hfirst Hgon) as [l' ->]. cbn. apply elem_of_cons. by left.
  - destruct (reportResult_invocations (BaseQualityGate.name (gate e))
                (skipped_result (gate e)) w) as (v & w' & Hrep & _ & Hres & Hinv).
    unfold bind at 1. rewrite Hrep. exists (inl (skipped_result (gate e))), w', [].
    unfold ret. split; [reflexivity|]. split; [by split|]. split; [done|].
    split; [by rewrite app_nil_r|]. discriminate.
Qed.

Lemma dispatch_all_spec entries :
  forall w,
    exists slots w' inv,
      dispatch_all this code context entries w = (Resolved slots, w')
      /\ Forall2 (fun e slot =>
                    match slot with
                    | inl skipped => enabled e = false /\ skipped = skipped_result (gate e)
                    | inr (_, settled) =>
                        enabled e = true
                        /\ forall r, settled = Resolved r ->
                             r !! "gate" = Some (VStr (BaseQualityGate.name (gate e)))
                    end) entries slots
      /\ results w' = results w
      /\ Trace.invocations (trace w') = (Trace.invocations (trace w) ++ inv)%list
      /\ (forall e, e ∈ entries -> enabled e = true ->
          BaseQualityGate.enabled (gate e) = true ->
          (BaseQualityGate.name (gate e), 1) ∈ inv).
Proof.
  induction entries as [|e entries IH]; intros w; cbn [dispatch_all].
  - exists [], w, []. unfold ret. split; [reflexivity|]. split; [constructor|].
    split; [done|]. split; [by rewrite app_nil_r|]. by intros e ?%elem_of_nil.
  - destruct (dispatch_spec e w) as (slot & w1 & inv1 & Hd & Hok & Hres1 & Hinv1 & Hin1).
    unfold bind at 1. rewrite Hd.
    destruct (IH w1) as (slots & w2 & inv2 & Hall & Hoks & Hres2 & Hinv2 & Hin2).
    unfold bind at 1. rewrite Hall. unfold ret.
    exists (slot :: slots), w2, (inv1 ++ inv2)%list.
    split; [reflexivity|]. split; [by constructor|]. split; [by rewrite Hres2|].
    split; [by rewrite Hinv2, Hinv1, app_assoc|].
    intros e' [->|Hin]%elem_of_cons Hon Hgon; apply elem_of_app; [left|right]; eauto.
Qed.

(** Parallel mode never rejects and never stops early: it pushes one
    result per entry of [this.gates], in the order of the entries, each
    carrying the name of its gate, and every enabled gate has had its
    [execute] invoked. *)
Lemma _runParallel_spec w :
  exists w' out,
    _runParallel this code context w = (Resolved tt, w')
    /\ results w' = (results w ++ out)%list
    /\ length out = length (gates this)
    /\ (forall i e, gates this !! i = Some e ->
        exists r, out !! i = Some r
                  /\ r !! "gate" = Some (VStr (BaseQualityGate.name (gate e))))
    /\ (forall e, e ∈ gates this -> enabled e = true ->
        BaseQualityGate.enabled (gate e) = true ->
        (BaseQualityGate.name (gate e), 1) ∈ Trace.invocations (trace w')).
Proof.
  unfold _runParallel.
  destruct (dispatch_all_spec (gates this) w)
    as (slots & w1 & inv & Hall & Hoks & Hres1 & Hinv1 & Hin).
  unfold bind at 1. rewrite Hall.
  destruct (resume_all_spec (completion_order (pending_of (gates this) slots 0)) w1)
    as (w2 & Hresume & Hres2 & Hinv2).
  unfold bind at 1. rewrite Hresume. unfold update.
  eexists _, _. split; [reflexivity|]. cbn [set_results results trace].
  split; [by rewrite Hres2, Hres1|].
  split.
  { unfold collect. rewrite length_imap. symmetry. by eapply Forall2_length. }
  split.
  - intros i e He.
    destruct (Forall2_lookup_l _ _ _ _ _ Hoks He) as (slot & Hslot & Hok).
    unfold collect. rewrite list_lookup_imap, Hslot. cbn [fmap option_fmap option_map].
    destruct slot as [skipped|[finish settled]].
    + destruct Hok as [_ ->]. eexists. split; [reflexivity|]. done.
    + destruct Hok as [_ Hgate].
      rewrite <- (list_to_map_proper
                    ((fun p : Pending =>
                        (fst (fst (fst p)),
                         match snd p with
                         | Resolved r => r
                         | Rejected error => error_result (gate (snd (fst (fst p)))) error
                         end)) <$> pending_of (gates this) slots 0)).
      * pose proof (pending_of_lookup
                      (fun p : Pending =>
                         match snd p with
                         | Resolved r => r
                         | Rejected error => error_result (gate (snd (fst (fst p)))) error
                         end) (gates this) slots 0 i e finish settled He Hslot) as Hlook.
        cbn [Nat.add] in Hlook. rewrite Hlook. cbn [default fst snd].
        eexists. split; [reflexivity|].
        destruct settled as [r|error]; [by apply Hgate | done].
      * rewrite <- list_fmap_compose. apply pending_of_NoDup.
      * apply fmap_Permutation. symmetry. apply completion_order_perm.
  - intros e He Hon Hgon. rewrite Hinv2, Hinv1. apply elem_of_app. right. eauto.
Qed.

(** The policy [continueOnFailure] plays no part in parallel mode. *)
Lemma dispatch_all_policy (continue : bool) entries :
  forall w,
    dispatch_all {| gates := gates this; continueOnFailure := continue;
                    parallel := parallel this; timeout := timeout this |}
      code context entries w
    = dispatch_all this code context entries w.
Proof.
  induction entries as [|e entries IH]; intros w; cbn [dispatch_all]; [reflexivity|].
  unfold bind. change (dispatch {| gates := gates this; continueOnFailure := continue;
                                   parallel := parallel this; timeout := timeout this |}
                         code context e w)
    with (dispatch this code context e w).
  destruct (dispatch this code context e w) as [[slot|err] w1]; [|reflexivity].
  by rewrite IH.
Qed.

Lemma _runParallel_policy (continue : bool) w :
  _runParallel {| gates := gates this; continueOnFailure := continue;
                  parallel := parallel this; timeout := timeout this |} code context w
  = _runParallel this code context w.
Proof.
  unfold _runParallel. cbn [gates]. unfold bind at 1 3.
  by rewrite dispatch_all_policy.
Qed.

End ParallelInGeneral.

(** ** The whole run *)

Section WholeRun.
Import QualityRunner.
Variables (this : t) (code : JsVal) (context : Obj).

(** [flushBatch] never rejects and leaves the runner's results alone. *)
Lemma flushBatch_resolves w :
  exists flushed w',
    ResultReporter.flushBatch w = (Resolved flushed, w') /\ results w' = results w.
Proof.
  unfold ResultReporter.flushBatch. unfold bind at 1. unfold read at 1.
  destruct (negb (batchMode (reporter w)) || (length (batchResults (reporter w)) =? 0));
    [by eexists _, _|].
  destruct (storageAdapter (reporter w)) as [adapter|];
    [destruct (truthy (taskId (reporter w)))|].
  - match goal with |- context [ResultReporter.flush_loop adapter ?t ?b ?s] =>
      destruct (flush_loop_resolves adapter t b s w) as (s' & w1 & Hrun & _ & Hres & _)
    end.
    unfold bind at 1. rewrite Hrun. do 2 eexists. split; [reflexivity|].
    cbn [set_trace set_reporter results]. exact Hres.
  - by eexists _, _.
  - by eexists _, _.
Qed.

(** The sequential loop never rejects; it pushes at most one result per
    entry, and one per entry when [continueOnFailure] is on. *)
Lemma _runSequential_resolves entries :
  forall w,
    exists w' out,
      _runSequential this code context entries w = (Resolved tt, w')
      /\ results w' = (results w ++ out)%list
      /\ length out <= length entries
      /\ (continueOnFailure this = true -> length out = length entries).
Proof.
  induction entries as [|e entries IH]; intros w.
  { exists w, []. cbn. unfold ret. by rewrite app_nil_r. }
  destruct (enabled e) eqn:Hon.
  - destruct (_runGateWithTimeout_spec this code context (gate e)
                (set_trace (trace w ++ [Emit (EvGateStarted (BaseQualityGate.name (gate e)))]) w))
      as (settled & w1 & l & Hrun & _ & _ & _ & Hres1 & _).
    destruct (_runSequential_enabled this code context e entries w settled w1 Hon Hrun)
      as (w2 & Hres2 & _ & _ & Hloop).
    rewrite Hloop. cbn [set_trace results] in Hres1.
    destruct (continueOnFailure this) eqn:Hcontinue; cbn [negb andb].
    + destruct (IH w2) as (w3 & out & Hrest & Hres3 & Hlen & Hall).
      eexists w3, (_ :: out). split; [exact Hrest|].
      split; [by rewrite Hres3, Hres2, Hres1, <- app_assoc|].
      cbn [length]. split; [lia|]. intros _. by rewrite Hall.
    + match goal with |- context [if ?c then _ else _] => destruct c end.
      * eexists w2, [_]. split; [reflexivity|]. split; [by rewrite Hres2, Hres1|].
        cbn [length]. split; [lia | discriminate].
      * destruct (IH w2) as (w3 & out & Hrest & Hres3 & Hlen & Hall).
        eexists w3, (_ :: out). split; [exact Hrest|].
        split; [by rewrite Hres3, Hres2, Hres1, <- app_assoc|].
        cbn [length]. split; [lia | discriminate].
  - cbn [_runSequential]. rewrite Hon. cbn [negb].
    erewrite bind_resolved by reflexivity.
    match goal with |- context [bind (ResultReporter.reportResult ?n ?r) _ ?x] =>
      destruct (reportResult_invocations n r x) as (v & w1 & Hrep & _ & Hres1 & _)
    end.
    erewrite bind_resolved by exact Hrep.
    destruct (IH w1) as (w2 & out & Hrest & Hres2 & Hlen & Hall).
    eexists w2, (_ :: out). split; [exact Hrest|].
    cbn [set_results results] in Hres1.
    split; [by rewrite Hres2, Hres1, <- app_assoc|].
    cbn [length]. split; [lia|]. intros Hc. by rewrite Hall.
Qed.

(** [run] never rejects.  The summary's [total] is the number of results
    of the run: the number of gates in parallel mode, and in sequential
    mode when [continueOnFailure] is on. *)
Lemma run_resolves w :
  exists summary w',
    run this code context w = (Resolved summary, w')
    /\ Summary.total summary = length (results w')
    /\ length (results w') <= length (gates this)
    /\ (parallel this = true \/ continueOnFailure this = true ->
        Summary.total summary = length (gates this)).
Proof.
  unfold run.
  erewrite bind_resolved by reflexivity.
  erewrite bind_resolved by reflexivity.
  match goal with |- context [bind ?c _ ?x] =>
    assert (Hctx : exists w0, c x = (Resolved tt, w0) /\ results w0 = [])
  end.
  { destruct (truthy (get context "taskId")); eexists; split; reflexivity. }
  destruct Hctx as (w0 & Hctx & Hres0). erewrite bind_resolved by exact Hctx.
  erewrite bind_resolved by reflexivity.
  erewrite bind_resolved by reflexivity.
  match goal with |- context [bind ?c _ ?x] =>
    assert (Hgates : exists w1 out, c x = (Resolved tt, w1) /\ results w1 = out
                       /\ length out <= length (gates this)
                       /\ (parallel this = true \/ continueOnFailure this = true ->
                           length out = length (gates this)))
  end.
  { destruct (parallel this) eqn:Hpar.
    - match goal with |- context [_runParallel this code context ?x] =>
        destruct (_runParallel_spec this code context x) as (w1 & out & Hrun & Hres & Hlen & _)
      end.
      exists w1, out. split; [exact Hrun|]. cbn [set_trace set_reporter results] in Hres.
      rewrite Hres0 in Hres. repeat split; [done|lia|done].
    - match goal with |- context [_runSequential this code context _ ?x] =>
        destruct (_runSequential_resolves (gates this) x) as (w1 & out & Hrun & Hres & Hlen & Hall)
      end.
      exists w1, out. split; [exact Hrun|]. cbn [set_trace set_reporter results] in Hres.
      rewrite Hres0 in Hres. repeat split; [done|lia|].
      intros [?|Hc]; [discriminate | by apply Hall]. }
  destruct Hgates as (w1 & out & Hgates & Hres1 & Hlen & Hall).
  erewrite bind_resolved by exact Hgates.
  destruct (flushBatch_resolves w1) as (flushed & w2 & Hflush & Hres2).
  erewrite bind_resolved by exact Hflush.
  do 3 (erewrite bind_resolved by reflexivity).
  match goal with |- context [bind (ResultReporter.storeSummary ?s) _ w2] =>
    destruct (storeSummary_resolves s w2) as (s' & w3 & Hstore & _ & _ & _ & Hres3 & Htotal & _)
  end.
  erewrite bind_resolved by exact Hstore.
  erewrite bind_resolved by reflexivity.
  unfold ret. eexists s', _. split; [reflexivity|].
  cbn [set_trace results]. rewrite Htotal, Hres3, Hres2, Hres1.
  pose proof (generateSummary_total (reporter w2) (now w2) (results w2)) as Hcount.
  rewrite Hres2, Hres1 in Hcount.
  split; [exact Hcount|]. split; [exact Hlen|].
  intros H. rewrite <- (Hall H). exact Hcount.
Qed.

End WholeRun.

(** ** The runner on gates that pass, fail and pass *)

(** C1, at the three sample gates.  The runner is sequential with
    [continueOnFailure = false]; G1, G2 and G3 are enabled security gates
    whose [execute] returns ['pass'], ['fail'] and ['pass'].  The loop
    tests [result.status === 'failed'], which ['fail'] is not: the run is
    not stopped, G3's [execute] is invoked and the output has three
    results.  With a G2 that returns ['failed'] instead, the same runner
    does stop: the output is the results of G1 and G2 and G3 is not
    invoked. *)
Theorem sequential_run_goes_past_fail :
  (let out := QualityRunner.run (Sample.runner false false) (VStr "code") ∅ Sample.world in
   List.map (fun r => (get r "gate", get r "status")) (results (snd out))
     = [(VStr "G1", VStr "pass"); (VStr "G2", VStr "fail"); (VStr "G3", VStr "pass")]
   /\ Trace.invocations (trace (snd out)) = [("G1", 1); ("G2", 1); ("G3", 1)]
   /\ List.filter (fun e => match e with Emit (EvRunStopped _ _) => true | _ => false end)
        (trace (snd out)) = [])
  /\ (let out := QualityRunner.run (Sample.runner_failed false false) (VStr "code") ∅
                   Sample.world in
      List.map (fun r => (get r "gate", get r "status")) (results (snd out))
        = [(VStr "G1", VStr "pass"); (VStr "G2", VStr "failed")]
      /\ Trace.invocations (trace (snd out)) = [("G1", 1); ("G2", 1)]
      /\ List.filter (fun e => match e with Emit (EvRunStopped _ _) => true | _ => false end)
           (trace (snd out)) = [Emit (EvRunStopped "Gate failed" "G2")]).
Proof. vm_compute. repeat split; reflexivity. Qed.

(** C2.  In parallel mode, for every runner and under either policy, the
    run pushes one result per registered gate, in registration order and
    carrying the gate's name, and every enabled gate has its [execute]
    invoked.  But the summary counts only ['passed'] and ['failed']: at
    the three sample gates, which return ['pass'], ['fail'] and ['pass'],
    it has [passed = 0] and [failed = 0], and [overallStatus] is
    ['passed']. *)
Theorem parallel_run_reports_passed :
  (forall (this : QualityRunner.t) (code : JsVal) (context : Obj) (w : World),
     exists w' out,
       QualityRunner._runParallel this code context w = (Resolved tt, w')
       /\ (forall continue : bool,
             QualityRunner._runParallel
               {| QualityRunner.gates := QualityRunner.gates this;
                  QualityRunner.continueOnFailure := continue;
                  QualityRunner.parallel := QualityRunner.parallel this;
                  QualityRunner.timeout := QualityRunner.timeout this |} code context w
             = (Resolved tt, w'))
       /\ results w' = (results w ++ out)%list
       /\ length out = length (QualityRunner.gates this)
       /\ (forall i e, QualityRunner.gates this !! i = Some e ->
            exists r, out !! i = Some r
                      /\ r !! "gate"
                           = Some (VStr (BaseQualityGate.name (QualityRunner.gate e))))
       /\ (forall e, e ∈ QualityRunner.gates this ->
            QualityRunner.enabled e = true ->
            BaseQualityGate.enabled (QualityRunner.gate e) = true ->
            (BaseQualityGate.name (QualityRunner.gate e), 1)
              ∈ Trace.invocations (trace w')))
  /\ (forall continue : bool,
        let out := QualityRunner.run (Sample.runner continue true) (VStr "code") ∅
                     Sample.world in
        List.map (fun r => (get r "gate", get r "status")) (results (snd out))
          = [(VStr "G1", VStr "pass"); (VStr "G2", VStr "fail"); (VStr "G3", VStr "pass")]
        /\ Trace.invocations (trace (snd out)) = [("G1", 1); ("G2", 1); ("G3", 1)]
        /\ exists summary,
             fst out = Resolved summary
             /\ Summary.total summary = 3
             /\ Summary.passed summary = 0
             /\ Summary.failed summary = 0
             /\ Summary.overallStatus summary = Some "passed").
Proof.
  split.
  - intros this code context w.
    destruct (_runParallel_spec this code context w) as (w' & out & Hrun & Hrest).
    exists w', out. split; [exact Hrun|]. split; [|exact Hrest].
    intros continue. by rewrite _runParallel_policy.
  - intros [|]; vm_compute; (split; [reflexivity|]); (split; [reflexivity|]);
      eexists; (split; [reflexivity|]); repeat split; reflexivity.
Qed.

(** * Further properties *)

(** ** The executor: attempts, waits and time *)

Section Attempts.
Import BaseQualityGate.
Variables (this : t) (code : JsVal) (context : Obj).

(** Any attempt takes at most the gate's timeout, and an attempt that
    raises rejects with [Attempt.error_of]. *)
Lemma executeWithTimeout_bounded k w :
  exists settled dt mark,
    executeWithTimeout this code context k w =
      (settled,
       {| now := now w + dt;
          trace := (trace w ++ [Execute (name this) k]) ++ [mark];
          history := history w; reporter := reporter w; results := results w |})
    /\ (mark = Settle (name this) k \/ mark = Expire (name this) k)
    /\ dt <= timeout this
    /\ (forall e, settled = Rejected e -> e = Attempt.error_of this code context k)
    /\ (forall r, settled = Resolved r ->
        execute this code context k = Returns dt r /\ dt < timeout this).
Proof.
  unfold executeWithTimeout, Attempt.error_of.
  destruct (execute this code context k) as [after r|after e|].
  - destruct (Nat.ltb_spec after (timeout this)).
    + exists (Resolved r), after, (Settle (name this) k).
      split; [reflexivity|]. split; [by left|]. split; [lia|].
      split; [discriminate|]. by intros ? [= <-].
    + exists (Rejected (timeout_error this)), (timeout this), (Expire (name this) k).
      split; [reflexivity|]. split; [by right|]. split; [lia|].
      split; [by intros ? [= <-] | discriminate].
  - destruct (Nat.ltb_spec after (timeout this)).
    + exists (Rejected e), after, (Settle (name this) k).
      split; [reflexivity|]. split; [by left|]. split; [lia|].
      split; [by intros ? [= <-] | discriminate].
    + exists (Rejected (timeout_error this)), (timeout this), (Expire (name this) k).
      split; [reflexivity|]. split; [by right|]. split; [lia|].
      split; [by intros ? [= <-] | discriminate].
  - exists (Rejected (timeout_error this)), (timeout this), (Expire (name this) k).
    split; [reflexivity|]. split; [by right|]. split; [lia|].
    split; [by intros ? [= <-] | discriminate].
Qed.

Lemma sleeps_app tr1 tr2 :
  Trace.sleeps (tr1 ++ tr2) = (Trace.sleeps tr1 ++ Trace.sleeps tr2)%list.
Proof. apply omap_app. Qed.

(** The shape of what the retry loop does from [attempts] on: [n]
    invocations of [execute], numbered consecutively, with a wait of
    1000 ms times the number of the failed attempt between two of them,
    in at most [n] timeouts plus the waits. *)
Lemma attempt_loop_shape budget :
  forall attempts lastError w,
    S (retryCount this) <= attempts + budget ->
    (retryCount this < attempts -> lastError <> None) ->
    exists r w' l n,
      attempt_loop budget this code context attempts lastError w = (Resolved r, w')
      /\ trace w' = (trace w ++ l)%list
      /\ Trace.invocations l = List.map (fun k => (name this, k)) (seq (attempts + 1) n)
      /\ Trace.sleeps l = List.map (fun k => 1000 * k) (seq (attempts + 1) (n - 1))
      /\ (retryCount this < attempts -> n = 0)
      /\ (attempts <= retryCount this -> 1 <= n /\ attempts + n <= retryCount this + 1)
      /\ now w <= now w'
      /\ now w' <= now w + n * timeout this + Attempt.total (Trace.sleeps l).
Proof.
  induction budget as [|budget IH]; intros attempts lastError w Hbudget Hlast.
  - assert (Hgt : retryCount this < attempts) by lia.
    cbn [attempt_loop]. destruct lastError as [e|]; [|by destruct (Hlast Hgt)].
    eexists; exists w, [], 0. cbn [all_failed]. unfold ret.
    split; [reflexivity|]. rewrite app_nil_r. cbn.
    repeat split; try done; lia.
  - destruct (Nat.le_gt_cases attempts (retryCount this)) as [Hle|Hgt].
    2:{ rewrite attempt_loop_exit by done.
        destruct lastError as [e|]; [|by destruct (Hlast Hgt)].
        eexists; exists w, [], 0. cbn [all_failed]. unfold ret.
        split; [reflexivity|]. rewrite app_nil_r. cbn.
        repeat split; try done; lia. }
    destruct (executeWithTimeout_bounded (attempts + 1) w)
      as (settled & dt & mark & Hex & Hmark & Hdt & _ & _).
    assert (Hmk : Trace.invocations [mark] = [] /\ Trace.sleeps [mark] = []).
    { by destruct Hmark as [-> | ->]. }
    destruct Hmk as [Hmi Hms].
    destruct settled as [result|error].
    + rewrite (attempt_loop_return this code context budget attempts lastError w _ _ Hle Hex).
      do 2 eexists.
      exists ([Execute (name this) (attempts + 1)] ++ [mark] ++
              [Emit (EvComplete (name this) (get result "status")
                      (now w + dt - now w) (attempts + 1))])%list, 1.
      split; [reflexivity|]. cbn [now trace].
      split; [by rewrite <- !app_assoc|].
      rewrite !invocations_app, !sleeps_app, Hmi, Hms. cbn.
      repeat split; try done; lia.
    + rewrite (attempt_loop_raise this code context budget attempts lastError w _ _ Hle Hex).
      match goal with |- context [attempt_loop budget _ _ _ _ _ ?x] => set (w1 := x) end.
      destruct (IH (attempts + 1) (Some error) w1 ltac:(lia) ltac:(done))
        as (r & w' & l & n & Hrun & Htr & Hinv & Hsl & Hzero & Hpos & Hnow & Hbound).
      replace (attempts + 1 + 1) with (S (attempts + 1)) in * by lia.
      destruct (Nat.leb_spec (attempts + 1) (retryCount this)) as [Hretry|Hlast'].
      * destruct (Hpos Hretry) as [Hn1 Hn2].
        exists r, w',
          ([Execute (name this) (attempts + 1)] ++ [mark] ++
           [Emit (EvRetry (name this) (attempts + 1) (message error))] ++
           [Sleep (1000 * (attempts + 1))] ++ l)%list, (S n).
        subst w1. cbn [now trace] in *.
        split; [exact Hrun|].
        split; [rewrite Htr; by rewrite <- !app_assoc|].
        rewrite !invocations_app, !sleeps_app, Hmi, Hms, Hinv, Hsl.
        replace (S n - 1) with (S (n - 1)) by lia.
        change (Trace.invocations [Execute (name this) (attempts + 1)])
          with [(name this, attempts + 1)].
        change (Trace.invocations [Emit (EvRetry (name this) (attempts + 1) (message error))])
          with (@nil (string * nat)).
        change (Trace.invocations [Sleep (1000 * (attempts + 1))]) with (@nil (string * nat)).
        change (Trace.sleeps [Execute (name this) (attempts + 1)]) with (@nil nat).
        change (Trace.sleeps [Emit (EvRetry (name this) (attempts + 1) (message error))])
          with (@nil nat).
        change (Trace.sleeps [Sleep (1000 * (attempts + 1))]) with [1000 * (attempts + 1)].
        cbn [app seq List.map].
        split; [reflexivity|]. split; [reflexivity|].
        split; [lia|]. split; [lia|]. split; [lia|].
        rewrite Hsl in Hbound. cbn [Attempt.total fold_right].
        unfold Attempt.total in Hbound. lia.
      * assert (n = 0) as -> by (apply Hzero; lia).
        exists r, w', ([Execute (name this) (attempts + 1)] ++ [mark] ++ l)%list, 1.
        subst w1. cbn [now trace] in *.
        split; [exact Hrun|].
        split; [rewrite Htr; by rewrite <- !app_assoc|].
        rewrite !invocations_app, !sleeps_app, Hmi, Hms, Hinv, Hsl.
        cbn. split; [reflexivity|]. split; [reflexivity|].
        split; [lia|]. split; [lia|]. split; [lia|].
        rewrite Hsl in Hbound. cbn in Hbound. lia.
Qed.

End Attempts.

Section AttemptsInDetail.
Import BaseQualityGate.
Variables (this : t) (code : JsVal) (context : Obj).

(** An attempt that raises rejects with its error. *)
Lemma executeWithTimeout_raises_with k w :
  Race.raises this code context k = true ->
  exists dt mark,
    executeWithTimeout this code context k w =
      (Rejected (Attempt.error_of this code context k),
       {| now := now w + dt;
          trace := (trace w ++ [Execute (name this) k]) ++ [mark];
          history := history w; reporter := reporter w; results := results w |})
    /\ (mark = Settle (name this) k \/ mark = Expire (name this) k).
Proof.
  intros Hraise.
  destruct (executeWithTimeout_bounded this code context k w)
    as (settled & dt & mark & Hex & Hmark & _ & Herr & Hok).
  destruct settled as [r|e].
  - destruct (Hok r eq_refl) as [Hret Hlt]. unfold Race.raises in Hraise.
    rewrite Hret in Hraise. apply Nat.ltb_lt in Hlt. by rewrite Hlt in Hraise.
  - rewrite (Herr e eq_refl) in Hex. eauto.
Qed.


(** When the attempts before the [k]-th raise and the [k]-th returns in
    time, the loop returns its result with [attempts = k]. *)
Lemma attempt_loop_first_success k after result budget :
  Race.succeeds this code context k after result ->
  k <= retryCount this + 1 ->
  forall attempts lastError w,
    attempts < k ->
    k <= attempts + budget ->
    (forall j, attempts < j -> j < k -> Race.raises this code context j = true) ->
    exists w',
      attempt_loop budget this code context attempts lastError w =
        (Resolved (<["attempts" := VNum k]>
                     (<["duration" := VNum after]>
                        (<["gate" := VStr (name this)]> result))), w')
      /\ Trace.invocations (trace w') =
           (Trace.invocations (trace w)
              ++ List.map (fun j => (name this, j)) (seq (attempts + 1) (k - attempts)))%list.
Proof.
  intros Hok Hk.
  induction budget as [|budget IH]; intros attempts lastError w Hlt Hbudget Hraise; [lia|].
  destruct (Nat.eq_dec (attempts + 1) k) as [Heq|Hne].
  - subst k.
    pose proof (executeWithTimeout_succeeds this code context (attempts + 1) after result
                  w Hok) as Hex.
    rewrite (attempt_loop_return this code context budget attempts lastError w _ _
               ltac:(lia) Hex).
    cbn [now]. replace (now w + after - now w) with after by lia.
    eexists. split; [reflexivity|]. cbn [trace].
    rewrite !invocations_app. cbn.
    replace (attempts + 1 - attempts) with 1 by lia. cbn. by rewrite !app_nil_r.
  - destruct (executeWithTimeout_raises_with (attempts + 1) w) as (dt & mark & Hex & Hmark);
      [apply Hraise; lia|].
    rewrite (attempt_loop_raise this code context budget attempts lastError w _ _
               ltac:(lia) Hex).
    match goal with |- context [attempt_loop budget _ _ _ _ _ ?x] => set (w1 := x) end.
    destruct (IH (attempts + 1) (Some (Attempt.error_of this code context (attempts + 1))) w1)
      as (w' & Hrun & Hinv).
    + lia.
    + lia.
    + intros j ? ?. apply Hraise; lia.
    + exists w'. split; [exact Hrun|]. rewrite Hinv.
      replace (k - attempts) with (S (k - (attempts + 1))) by lia.
      replace (attempts + 1 + 1) with (S (attempts + 1)) by lia.
      cbn [seq List.map].
      assert (Hw1 : Trace.invocations (trace w1) =
                      (Trace.invocations (trace w) ++ [(name this, attempts + 1)])%list).
      { subst w1. destruct (attempts + 1 <=? retryCount this); cbn [trace];
          rewrite !invocations_app; destruct Hmark as [-> | ->]; cbn;
          by rewrite ?app_nil_r. }
      by rewrite Hw1, <- app_assoc.
Qed.

(** The waits of a full series of retries add up to
    [500 * m * (m + 1)] ms. *)
Lemma total_of_waits m :
  Attempt.total (List.map (fun k => 1000 * k) (seq 1 m)) = 500 * m * (m + 1).
Proof.
  assert (H : forall a, Attempt.total (List.map (fun k => 1000 * k) (seq (S a) m))
                        = 500 * m * (m + 1) + 1000 * a * m).
  { induction m as [|m IH]; intros a; [cbn; lia|].
    cbn [seq List.map Attempt.total fold_right].
    fold (Attempt.total (List.map (fun k => 1000 * k) (seq (S (S a)) m))).
    rewrite IH. nia. }
  rewrite (H 0). lia.
Qed.

End AttemptsInDetail.

Section TimeOfTimeouts.
Import BaseQualityGate.
Variables (this : t) (code : JsVal) (context : Obj).
Hypothesis Hslow : forall k, Race.times_out this code context k = true.

(** When every attempt runs into its deadline, the time the loop takes is
    exactly the timeouts of the attempts left plus the waits between
    them. *)
Lemma attempt_loop_all_time_out_elapsed budget :
  forall attempts lastError w,
    attempts + budget = S (retryCount this) ->
    (budget = 0 -> lastError = Some (timeout_error this)) ->
    now (snd (attempt_loop budget this code context attempts lastError w))
      + attempts * timeout this
      + 500 * Nat.min attempts (retryCount this) * (Nat.min attempts (retryCount this) + 1)
    = now w + (retryCount this + 1) * timeout this
      + 500 * retryCount this * (retryCount this + 1).
Proof.
  induction budget as [|budget IH]; intros attempts lastError w Hsum Hlast.
  - rewrite (Hlast eq_refl). cbn [attempt_loop all_failed]. unfold ret. cbn [snd].
    rewrite Nat.min_r by lia. nia.
  - pose proof (executeWithTimeout_times_out this code context (attempts + 1) w
                  (Hslow (attempts + 1))) as Hex.
    rewrite (attempt_loop_raise this code context budget attempts lastError w _ _
               ltac:(lia) Hex).
    rewrite (Nat.min_l attempts) by lia.
    destruct (Nat.leb_spec (attempts + 1) (retryCount this)) as [Hretry|Hlast'].
    + match goal with |- context [attempt_loop budget _ _ _ _ _ ?x] => set (w1 := x) end.
      pose proof (IH (attempts + 1) (Some (timeout_error this)) w1 ltac:(lia) ltac:(done))
        as Hrec.
      rewrite (Nat.min_l (attempts + 1)) in Hrec by lia.
      assert (Hw1 : now w1 = now w + timeout this + 1000 * (attempts + 1)) by reflexivity.
      rewrite Hw1 in Hrec. clearbody w1. nia.
    + match goal with |- context [attempt_loop budget _ _ _ _ _ ?x] => set (w1 := x) end.
      pose proof (IH (attempts + 1) (Some (timeout_error this)) w1 ltac:(lia) ltac:(done))
        as Hrec.
      rewrite (Nat.min_r (attempts + 1)) in Hrec by lia.
      assert (Hw1 : now w1 = now w + timeout this) by reflexivity.
      rewrite Hw1 in Hrec. clearbody w1. nia.
Qed.

End TimeOfTimeouts.



(** X2.  For an enabled gate, if the attempts before the [k]-th raise and
    the [k]-th returns [result] in time, with [k] at most
    [retryCount + 1], then [run] resolves to [result] with the gate's
    name, the duration of that attempt and [attempts = k], having invoked
    [execute] exactly [k] times. *)
Theorem first_success_sets_attempts
    (this : BaseQualityGate.t) (code : JsVal) (context : Obj) (w : World)
    (k after : nat) (result : Obj) :
  BaseQualityGate.enabled this = true ->
  1 <= k -> k <= BaseQualityGate.retryCount this + 1 ->
  (forall j, 1 <= j -> j < k -> Race.raises this code context j = true) ->
  Race.succeeds this code context k after result ->
  exists w',
    BaseQualityGate.run this code context w =
      (Resolved (<["attempts" := VNum k]>
                   (<["duration" := VNum after]>
                      (<["gate" := VStr (BaseQualityGate.name this)]> result))), w')
    /\ Trace.invocations (trace w') =
         (Trace.invocations (trace w)
            ++ List.map (fun j => (BaseQualityGate.name this, j)) (seq 1 k))%list.
Proof.
  intros Hon Hk1 Hk2 Hraise Hok.
  unfold BaseQualityGate.run. rewrite Hon. cbn [negb].
  destruct (attempt_loop_first_success this code context k after result
              (S (BaseQualityGate.retryCount this)) Hok Hk2 0 None w)
    as (w' & Hrun & Hinv); [lia | lia | intros j ? ?; apply Hraise; lia |].
  exists w'. split; [exact Hrun|]. rewrite Hinv. by rewrite Nat.sub_0_r.
Qed.

(** A security gate that passes at its first attempt. *)
Lemma first_success_sets_attempts_witness :
  exists w',
    BaseQualityGate.run (Sample.security "G1" []) (VStr "code") ∅ Sample.world =
      (Resolved (<["attempts" := VNum 1]>
                   (<["duration" := VNum 10]>
                      (<["gate" := VStr "G1"]>
                         (SecurityGate.report (Sample.security "G1" []) [])))), w')
    /\ Trace.invocations (trace w') = [("G1", 1)].
Proof.
  apply (first_success_sets_attempts (Sample.security "G1" []) (VStr "code") ∅ Sample.world
           1 10 (SecurityGate.report (Sample.security "G1" []) [])).
  - reflexivity.
  - lia.
  - cbn. lia.
  - intros j ? ?. lia.
  - split; [reflexivity | cbn; lia].
Defined.



(** X4.  [run] always returns within [(retryCount + 1)] timeouts plus
    the waits of [retryCount] retries, that is within
    [(retryCount + 1) * timeout + 500 * retryCount * (retryCount + 1)]
    ms; an enabled gate whose attempts all run into the deadline takes
    exactly that long. *)
Theorem run_time_is_bounded
    (this : BaseQualityGate.t) (code : JsVal) (context : Obj) (w : World) :
  let bound := (BaseQualityGate.retryCount this + 1) * BaseQualityGate.timeout this
               + 500 * BaseQualityGate.retryCount this * (BaseQualityGate.retryCount this + 1) in
  now w <= now (snd (BaseQualityGate.run this code context w))
  /\ now (snd (BaseQualityGate.run this code context w)) <= now w + bound
  /\ (BaseQualityGate.enabled this = true ->
      (forall k, Race.times_out this code context k = true) ->
      now (snd (BaseQualityGate.run this code context w)) = now w + bound).
Proof.
  intros bound. subst bound. unfold BaseQualityGate.run.
  destruct (BaseQualityGate.enabled this); cbn [negb].
  - destruct (attempt_loop_shape this code context (S (BaseQualityGate.retryCount this))
                0 None w ltac:(lia) ltac:(lia))
      as (r & w' & l & n & Hrun & _ & _ & Hsl & _ & Hpos & Hnow & Hbound).
    destruct (Hpos ltac:(lia)) as [Hn1 Hn2].
    split; [by rewrite Hrun|]. split.
    + rewrite Hrun. cbn [snd]. rewrite Hsl in Hbound.
      change (0 + 1) with 1 in Hbound. rewrite total_of_waits in Hbound. nia.
    + intros _ Hslow.
      pose proof (attempt_loop_all_time_out_elapsed this code context Hslow
                    (S (BaseQualityGate.retryCount this)) 0 None w ltac:(lia) ltac:(done))
        as Hexact.
      rewrite Nat.min_0_l in Hexact. lia.
  - unfold ret. cbn [snd]. split; [lia|]. split; [lia | discriminate].
Qed.

(** The gate with two retries that never settles: 3 timeouts of 50 ms
    and waits of 1000 and 2000 ms. *)
Lemma run_time_is_bounded_witness :
  now (snd (BaseQualityGate.run Demo.stuck (VStr "code") ∅ Sample.world)) = 3150.
Proof.
  destruct (run_time_is_bounded Demo.stuck (VStr "code") ∅ Sample.world) as (_ & _ & Hexact).
  rewrite Hexact; [reflexivity | reflexivity | intros k; reflexivity].
Defined.

(** ** Constructed gates and their verdict *)


Lemma lower_idempotent (c : ascii) : BaseQualityGate.lower (BaseQualityGate.lower c) = BaseQualityGate.lower c.
Proof. destruct c as [[] [] [] [] [] [] [] []]; reflexivity. Qed.

Lemma toLowerCase_idempotent (s : string) :
  BaseQualityGate.toLowerCase (BaseQualityGate.toLowerCase s) = BaseQualityGate.toLowerCase s.
Proof.
  induction s as [|c s IH]; [reflexivity|].
  cbn [BaseQualityGate.toLowerCase]. by rewrite lower_idempotent, IH.
Qed.

(** Only the severity ['error'], in any letter case, reaches level 3. *)
Lemma parseSeverity_error (level : string) :
  (3 <=? BaseQualityGate.parseSeverity level)
    = String.eqb (BaseQualityGate.toLowerCase level) "error".
Proof.
  unfold BaseQualityGate.parseSeverity. cbv zeta.
  destruct (String.eqb_spec (BaseQualityGate.toLowerCase level) "error") as [Heq|Hne];
    [reflexivity|].
  destruct (String.eqb _ "warning"); [reflexivity|].
  destruct (String.eqb _ "info"); reflexivity.
Qed.


(** X6.  [shouldFail] looks at nothing but the issues whose severity is
    ['error'] in any letter case: the verdict is that their number
    reaches [failureThreshold].  Issues of any other severity never
    change it, and further issues never turn a failing verdict into a
    passing one. *)
Theorem shouldFail_counts_errors (this : BaseQualityGate.t)
    (issues more : list BaseQualityGate.Issue) :
  let is_error (i : BaseQualityGate.Issue) :=
    String.eqb (BaseQualityGate.toLowerCase (BaseQualityGate.severity i)) "error" in
  BaseQualityGate.shouldFail this issues
    = (BaseQualityGate.failureThreshold this <=? length (List.filter is_error issues))
  /\ (List.filter is_error more = [] ->
      BaseQualityGate.shouldFail this (issues ++ more) = BaseQualityGate.shouldFail this issues
      /\ BaseQualityGate.shouldFail this (more ++ issues)
           = BaseQualityGate.shouldFail this issues)
  /\ (BaseQualityGate.shouldFail this issues = true ->
      BaseQualityGate.shouldFail this (issues ++ more) = true
      /\ BaseQualityGate.shouldFail this (more ++ issues) = true)
  /\ (forall level,
        BaseQualityGate.parseSeverity (BaseQualityGate.toLowerCase level)
          = BaseQualityGate.parseSeverity level).
Proof.
  intros is_error.
  assert (Hchar : forall l, BaseQualityGate.shouldFail this l
                            = (BaseQualityGate.failureThreshold this
                                 <=? length (List.filter is_error l))).
  { intros l. unfold BaseQualityGate.shouldFail. do 2 f_equal.
    apply List.filter_ext. intros i. apply parseSeverity_error. }
  split; [apply Hchar|]. split; [|split].
  3:{ intros level. unfold BaseQualityGate.parseSeverity. cbv zeta.
      by rewrite toLowerCase_idempotent. }
  - intros Hnone. rewrite !Hchar, !List.filter_app, Hnone, app_nil_r. done.
  - rewrite !Hchar, !List.filter_app, !length_app.
    intros Hfail%Nat.leb_le. split; apply Nat.leb_le; lia.
Qed.


(** ** The security scan *)

Section Scan.
Import BaseQualityGate.

(** [shouldFail] in terms of the severities spelled ['error']. *)
Lemma shouldFail_errors (this : t) (issues : list Issue) :
  shouldFail this issues
  = (failureThreshold this
       <=? length (List.filter
                     (fun i => String.eqb (toLowerCase (severity i)) "error") issues)).
Proof.
  unfold shouldFail. do 2 f_equal. apply List.filter_ext. intros i.
  apply parseSeverity_error.
Qed.

Lemma filter_issue_at (f : Issue -> bool) (text : string) (check : SecurityScan.Check)
    (l : list nat) (b : bool) :
  (forall index, f (SecurityScan.issue_at text check index) = b) ->
  length (List.filter f (List.map (SecurityScan.issue_at text check) l))
  = if b then length l else 0.
Proof.
  intros Hf. induction l as [|i l IH]; [by destruct b|].
  cbn [List.map List.filter]. rewrite Hf. destruct b; cbn [length]; by rewrite ?IH.
Qed.

Lemma scan_tally (f : string -> bool) (matchAll : SecurityScan.Pattern -> string -> list nat)
    (text : string) (e w i : bool) :
  f "error" = e -> f "warning" = w -> f "info" = i ->
  length (List.filter (fun i => f (severity i)) (SecurityScan.scan matchAll text))
  = (if e then length (matchAll SecurityScan.EvalCall text) else 0)
    + ((if w then length (matchAll SecurityScan.InnerHTMLAssign text) else 0)
       + ((if i then length (matchAll SecurityScan.ProcessEnv text) else 0)
          + ((if e then length (matchAll SecurityScan.DynamicRequire text) else 0)
             + ((if w then length (matchAll SecurityScan.CommandExecution text) else 0)
                + 0)))).
Proof.
  intros <- <- <-.
  unfold SecurityScan.scan, SecurityScan.securityPatterns.
  cbn [flat_map SecurityScan.pattern].
  rewrite !List.filter_app, !length_app. cbn [List.filter length].
  repeat match goal with
  | |- context [length (List.filter ?g (List.map (SecurityScan.issue_at ?t ?c) ?l))] =>
      rewrite (filter_issue_at g t c l (f (SecurityScan.severity c))) by reflexivity
  end.
  reflexivity.
Qed.

End Scan.

(** X7.  The security scan of a text fails exactly when the matches of
    the two patterns of severity ['error'] (a call of [eval] and a
    [require] of something that is not a literal) together reach the
    failure threshold; matches of the other three patterns are reported
    as issues and counted in [stats], but never change the status.  The
    scan reports one issue per match, and for a [code] that is not a
    string it returns status ['error'] instead of throwing. *)
Theorem security_scan_verdict
    (matchAll : SecurityScan.Pattern -> string -> list nat)
    (this : BaseQualityGate.t) (code : JsVal) :
  let result := SecurityScan.execute matchAll this code in
  match code with
  | VStr text =>
      let hits p := length (matchAll p text) in
      let errors := hits SecurityScan.EvalCall + hits SecurityScan.DynamicRequire in
      let warnings := hits SecurityScan.InnerHTMLAssign + hits SecurityScan.CommandExecution in
      let info := hits SecurityScan.ProcessEnv in
      get result "status"
        = VStr (if BaseQualityGate.failureThreshold this <=? errors then "fail" else "pass")
      /\ get result "stats"
         = VObj (<["info" := VNum info]>
                   (<["warnings" := VNum warnings]> (<["errors" := VNum errors]> ∅)))
      /\ exists issues, get result "issues" = VArr issues
                        /\ length issues = errors + warnings + info
  | _ => get result "status" = VStr "error"
  end.
Proof.
  intros result. subst result.
  destruct code as [| | | |text| |]; try reflexivity.
  intros hits errors warnings info.
  unfold SecurityScan.execute, SecurityGate.report.
  pose proof (scan_tally (fun s => String.eqb s "error") matchAll text
                true false false eq_refl eq_refl eq_refl) as He.
  pose proof (scan_tally (fun s => String.eqb s "warning") matchAll text
                false true false eq_refl eq_refl eq_refl) as Hw.
  pose proof (scan_tally (fun s => String.eqb s "info") matchAll text
                false false true eq_refl eq_refl eq_refl) as Hi.
  pose proof (scan_tally (fun _ => true) matchAll text
                true true true eq_refl eq_refl eq_refl) as Hall.
  pose proof (scan_tally (fun s => String.eqb (BaseQualityGate.toLowerCase s) "error")
                matchAll text true false false eq_refl eq_refl eq_refl) as Hf.
  cbv beta iota in He, Hw, Hi, Hall, Hf.
  assert (Hsame : forall l : list BaseQualityGate.Issue, List.filter (fun _ => true) l = l).
  { intros l. induction l as [|i l IH]; [done|]. cbn [List.filter]. by rewrite IH. }
  rewrite Hsame in Hall. clear Hsame.
  match type of He with ?l = ?n =>
    assert (He' : l = errors) by (rewrite He; subst errors hits; cbv beta; lia) end.
  match type of Hf with ?l = ?n =>
    assert (Hf' : l = errors) by (rewrite Hf; subst errors hits; cbv beta; lia) end.
  match type of Hw with ?l = ?n =>
    assert (Hw' : l = warnings) by (rewrite Hw; subst warnings hits; cbv beta; lia) end.
  match type of Hi with ?l = ?n =>
    assert (Hi' : l = info) by (rewrite Hi; subst info hits; cbv beta; lia) end.
  match type of Hall with ?l = ?n =>
    assert (Hall' : l = errors + warnings + info)
      by (rewrite Hall; subst errors warnings info hits; cbv beta; lia) end.
  clear He Hw Hi Hall Hf. clearbody errors warnings info.
  split; [|split].
  - unfold get. rewrite lookup_insert_ne by done. rewrite lookup_insert_ne by done.
    rewrite lookup_insert_eq. cbn [default]. by rewrite shouldFail_errors, Hf'.
  - unfold get. rewrite lookup_insert_eq. cbn [default]. by rewrite He', Hw', Hi'.
  - eexists. split.
    + unfold get. rewrite lookup_insert_ne by done. rewrite lookup_insert_eq. reflexivity.
    + by rewrite length_map.
Qed.


(** ** Where a match is *)

Section Locate.
Import SecurityScan.

Lemma split_lines_cons (text : string) :
  exists first others, split_lines text = first :: others.
Proof.
  induction text as [|c text [first [others IH]]]; [by eexists _, _|].
  cbn [split_lines]. destruct (Ascii.eqb c newline); [by eexists _, _|].
  rewrite IH. by eexists _, _.
Qed.

(** Splitting at a line break splits the list of lines. *)
Lemma split_lines_app (before after : string) :
  split_lines (before ++ String newline after)
  = (split_lines before ++ split_lines after)%list.
Proof.
  induction before as [|c before IH].
  - change (split_lines (String newline after) = EmptyString :: split_lines after).
    cbn [split_lines]. by rewrite Ascii.eqb_refl.
  - change (String c before ++ String newline after)
      with (String c (before ++ String newline after)).
    cbn [split_lines]. rewrite IH.
    destruct (Ascii.eqb c newline); [reflexivity|].
    destruct (split_lines_cons before) as [first [others ->]]. reflexivity.
Qed.

Lemma split_lines_one (text : string) : newlines text = 0 -> split_lines text = [text].
Proof.
  induction text as [|c text IH]; [reflexivity|].
  cbn [newlines split_lines]. destruct (Ascii.eqb c newline); [discriminate|].
  intros H. by rewrite IH.
Qed.

Lemma length_split_lines (text : string) : length (split_lines text) = newlines text + 1.
Proof.
  induction text as [|c text IH]; [reflexivity|].
  cbn [newlines split_lines]. destruct (Ascii.eqb c newline).
  - cbn [length]. lia.
  - destruct (split_lines_cons text) as [first [others Heq]]. rewrite Heq in *.
    cbn [length] in *. lia.
Qed.

Lemma last_split_lines (text : string) :
  String.length (List.last (split_lines text) EmptyString) <= String.length text.
Proof.
  induction text as [|c text IH]; [reflexivity|].
  cbn [split_lines]. destruct (Ascii.eqb c newline).
  - destruct (split_lines_cons text) as [first [others Heq]]. rewrite Heq in *.
    cbn [String.length]. etransitivity; [exact IH|lia].
  - destruct (split_lines_cons text) as [first [others Heq]]. rewrite Heq in *.
    destruct others as [|second others].
    + cbn [List.last String.length] in *. lia.
    + cbn [String.length]. etransitivity; [exact IH|lia].
Qed.

Lemma substring_prefix (prefix rest : string) :
  String.substring 0 (String.length prefix) (prefix ++ rest) = prefix.
Proof.
  induction prefix as [|c prefix IH].
  - cbn [String.length]. destruct rest; reflexivity.
  - change (String c prefix ++ rest) with (String c (prefix ++ rest)).
    cbn [String.length String.substring]. by rewrite IH.
Qed.

Lemma length_substring (text : string) (n : nat) :
  String.length (String.substring 0 n text) <= n.
Proof.
  revert text. induction n as [|n IH]; intros [|c text]; cbn [String.substring String.length];
    try lia.
  specialize (IH text). lia.
Qed.

Lemma length_append (a b : string) :
  String.length (a ++ b) = String.length a + String.length b.
Proof.
  induction a as [|c a IH]; [reflexivity|].
  change (String c a ++ b) with (String c (a ++ b)). cbn [String.length]. by rewrite IH.
Qed.

Lemma last_app_one {A} (l : list A) (x d : A) : List.last (l ++ [x])%list d = x.
Proof.
  induction l as [|y l IH]; [reflexivity|].
  cbn [app List.last]. destruct (l ++ [x])%list eqn:E; [by destruct l|]. exact IH.
Qed.

End Locate.

(** X8.  The position the security scan reports for a match: the line is
    one more than the number of line breaks before the match, and the
    column is at least 1 and at most one more than the index of the match.
    A match at the end of [prefix], a piece of text without line break, is
    in column [length prefix + 1]: of line 1 when [prefix] starts the code,
    and of the line after the line breaks of [before] when [prefix]
    follows [before] and a line break. *)
Theorem locate_line_and_column (text : string) (index : nat) (before prefix rest : string) :
  fst (SecurityScan.locate text index)
    = SecurityScan.newlines (String.substring 0 index text) + 1
  /\ 1 <= snd (SecurityScan.locate text index) <= index + 1
  /\ (SecurityScan.newlines prefix = 0 ->
      SecurityScan.locate (prefix ++ rest) (String.length prefix)
        = (1, String.length prefix + 1)
      /\ SecurityScan.locate (before ++ String SecurityScan.newline (prefix ++ rest))
           (String.length before + 1 + String.length prefix)
         = (SecurityScan.newlines before + 2, String.length prefix + 1)).
Proof.
  unfold SecurityScan.locate. cbn [fst snd].
  split; [apply length_split_lines|]. split.
  { pose proof (last_split_lines (String.substring 0 index text)).
    pose proof (length_substring text index). lia. }
  intros Hone. split.
  - rewrite substring_prefix, (split_lines_one _ Hone). reflexivity.
  - replace (before ++ String SecurityScan.newline (prefix ++ rest))
      with ((before ++ String SecurityScan.newline prefix) ++ rest).
    2:{ clear. induction before as [|c before IH]; [reflexivity|].
        change (String c before ++ ?x) with (String c (before ++ x)).
        change (String c (before ++ String SecurityScan.newline prefix) ++ rest)
          with (String c ((before ++ String SecurityScan.newline prefix) ++ rest)).
        by rewrite IH. }
    replace (String.length before + 1 + String.length prefix)
      with (String.length (before ++ String SecurityScan.newline prefix)).
    2:{ rewrite length_append. cbn [String.length]. lia. }
    rewrite substring_prefix, split_lines_app, (split_lines_one _ Hone).
    rewrite length_app, length_split_lines, last_app_one. cbn [length]. f_equal. lia.
Qed.

(** The code [a = 1;] on line 1 and [eval(a)] after two blanks on line 2:
    the call of [eval] at index 9 is at line 2, column 3. *)
Lemma locate_line_and_column_witness :
  SecurityScan.locate
    ("a = 1;" ++ String SecurityScan.newline ("  " ++ "eval(a)")) (6 + 1 + 2) = (2, 3).
Proof.
  apply (proj2 (proj2 (locate_line_and_column "" 0 "a = 1;" "  " "eval(a)"))).
  reflexivity.
Defined.

(** ** The linter's messages *)

Section Lint.

Lemma filter_issue_of (f : ESLintGate.Issue.t -> bool) (messages : list ESLintGate.Message.t) :
  List.filter f (List.map ESLintGate.issue_of messages)
  = List.map ESLintGate.issue_of
      (List.filter (fun m => f (ESLintGate.issue_of m)) messages).
Proof.
  induction messages as [|m messages IH]; [reflexivity|].
  cbn [List.map List.filter]. destruct (f (ESLintGate.issue_of m)); cbn [List.map];
    by rewrite IH.
Qed.

Lemma processResults_concat (results : list (list ESLintGate.Message.t)) :
  ESLintGate.processResults results = List.map ESLintGate.issue_of (List.concat results).
Proof.
  unfold ESLintGate.processResults.
  induction results as [|r results IH]; [reflexivity|].
  cbn [flat_map List.concat]. by rewrite List.map_app, IH.
Qed.

Lemma length_filter_split {A} (f g : A -> bool) (l : list A) :
  (forall x, g x = negb (f x)) ->
  length (List.filter f l) + length (List.filter g l) = length l.
Proof.
  intros Hg. induction l as [|x l IH]; [reflexivity|].
  cbn [List.filter]. rewrite Hg. destruct (f x); cbn [negb length]; lia.
Qed.

End Lint.

(** X9.  The lint gate turns every message of every lint result into one
    issue, in order.  Its status is ['fail'] exactly when the number of
    messages of severity 2 reaches the failure threshold; every other
    message, whatever its severity, is counted as a warning, so that
    [stats.errors + stats.warnings] is the number of issues.  When the
    linter rejects, the gate returns status ['error'] with the message of
    the error. *)
Theorem eslint_verdict (this : BaseQualityGate.t) (rulesApplied : nat) (context : Obj)
    (results : list (list ESLintGate.Message.t)) (error : Error) :
  let messages := List.concat results in
  let errors := length (List.filter (fun m => ESLintGate.Message.severity m =? 2) messages) in
  let fixable :=
    length (List.filter (fun m => bool_decide (ESLintGate.Message.fix_ m <> None)) messages) in
  let result := ESLintGate.execute this rulesApplied context (Resolved results) in
  let failed := ESLintGate.execute this rulesApplied context (Rejected error) in
  get result "status"
    = VStr (if BaseQualityGate.failureThreshold this <=? errors then "fail" else "pass")
  /\ get result "issues"
     = VArr (List.map (fun m => ESLintGate.Issue.object (ESLintGate.issue_of m)) messages)
  /\ get result "stats"
     = VObj (<["fixable" := VNum fixable]>
               (<["warnings" := VNum (length messages - errors)]>
                  (<["errors" := VNum errors]> ∅)))
  /\ errors <= length messages
  /\ get failed "status" = VStr "error"
  /\ get failed "error" = VStr (Js.message error).
Proof.
  intros messages errors fixable result failed.
  assert (Hsev : forall m, String.eqb (ESLintGate.Issue.severity (ESLintGate.issue_of m)) "error"
                           = (ESLintGate.Message.severity m =? 2)).
  { intros m. cbn [ESLintGate.issue_of ESLintGate.Issue.severity].
    by destruct (ESLintGate.Message.severity m =? 2). }
  assert (Hwarn : forall m,
             String.eqb (ESLintGate.Issue.severity (ESLintGate.issue_of m)) "warning"
             = negb (ESLintGate.Message.severity m =? 2)).
  { intros m. cbn [ESLintGate.issue_of ESLintGate.Issue.severity].
    by destruct (ESLintGate.Message.severity m =? 2). }
  assert (Hlow : forall m,
             String.eqb (BaseQualityGate.toLowerCase
                           (ESLintGate.Issue.severity (ESLintGate.issue_of m))) "error"
             = (ESLintGate.Message.severity m =? 2)).
  { intros m. cbn [ESLintGate.issue_of ESLintGate.Issue.severity].
    by destruct (ESLintGate.Message.severity m =? 2). }
  assert (Hfix : forall m, ESLintGate.Issue.fixable (ESLintGate.issue_of m)
                           = bool_decide (ESLintGate.Message.fix_ m <> None)).
  { intros m. cbn [ESLintGate.issue_of ESLintGate.Issue.fixable].
    by destruct (ESLintGate.Message.fix_ m). }
  pose proof (length_filter_split (fun m => ESLintGate.Message.severity m =? 2)
                (fun m => negb (ESLintGate.Message.severity m =? 2)) messages
                (fun _ => eq_refl)) as Hsplit.
  fold errors in Hsplit.
  subst result failed. unfold ESLintGate.execute. rewrite processResults_concat.
  fold messages. unfold get.
  split; [|split; [|split; [|split; [|split]]]].
  - rewrite lookup_insert_ne by done. rewrite lookup_insert_ne by done.
    rewrite lookup_insert_ne by done. rewrite lookup_insert_eq. cbn [default].
    rewrite shouldFail_errors, List.map_map, filter_map_swap.
    rewrite length_map. cbn [ESLintGate.Issue.plain BaseQualityGate.severity].
    rewrite (List.filter_ext _ _ Hlow). reflexivity.
  - rewrite lookup_insert_ne by done. rewrite lookup_insert_ne by done.
    rewrite lookup_insert_eq. cbn [default]. by rewrite List.map_map.
  - rewrite lookup_insert_ne by done. rewrite lookup_insert_eq. cbn [default].
    rewrite !filter_issue_of, !length_map.
    rewrite (List.filter_ext _ _ Hsev), (List.filter_ext _ _ Hwarn), (List.filter_ext _ _ Hfix).
    fold errors fixable.
    replace (length messages - errors)
      with (length (List.filter (fun m => negb (ESLintGate.Message.severity m =? 2)) messages))
      by lia.
    reflexivity.
  - lia.
  - reflexivity.
  - reflexivity.
Qed.


(** ** Counting the assertions of a test report *)

Section Jest.
Import TestRunnerGate.

Lemma count_file (file : FileResult) (l : list Assertion) (acc : TestResults) :
  let r := fold_left (count file) l acc in
  total r = total acc + length l
  /\ passed r = passed acc + length (List.filter (fun a => String.eqb (status a) "passed") l)
  /\ failed r = failed acc + length (List.filter (fun a => String.eqb (status a) "failed") l)
  /\ skipped r = skipped acc + (length (List.filter (fun a => String.eqb (status a) "skipped") l) + length (List.filter (fun a => String.eqb (status a) "pending") l))
  /\ length (failures r) = length (failures acc) + length (List.filter (fun a => String.eqb (status a) "failed") l)
  /\ success r = success acc.
Proof.
  revert acc. induction l as [|a l IH]; intros acc.
  { cbn. repeat split; lia. }
  intros r. subst r. cbn [fold_left].
  destruct (IH (count file acc a)) as (Ht & Hp & Hf & Hs & Hl & Hok).
  rewrite Ht, Hp, Hf, Hs, Hl, Hok. clear Ht Hp Hf Hs Hl Hok IH.
  unfold count. cbn [List.filter].
  destruct (String.eqb_spec (status a) "passed") as [Heq|_].
  { rewrite Heq. cbn [String.eqb Ascii.eqb Bool.eqb total passed failed skipped failures success length].
    repeat split; lia. }
  destruct (String.eqb_spec (status a) "failed") as [Heq|_].
  { rewrite Heq. cbn [String.eqb Ascii.eqb Bool.eqb total passed failed skipped failures success length].
    rewrite length_app. cbn [length]. repeat split; lia. }
  destruct (String.eqb_spec (status a) "skipped") as [Heq|_].
  { rewrite Heq. cbn [String.eqb Ascii.eqb Bool.eqb orb total passed failed skipped failures success length].
    repeat split; lia. }
  destruct (String.eqb_spec (status a) "pending") as [Heq|_].
  { cbn [orb total passed failed skipped failures success length]. repeat split; lia. }
  cbn [orb total passed failed skipped failures success length]. repeat split; lia.
Qed.

Lemma count_files (files : list FileResult) (acc : TestResults) :
  let all := flat_map (fun f => default [] (assertionResults f)) files in
  let r := fold_left
             (fun acc file => fold_left (count file) (default [] (assertionResults file)) acc)
             files acc in
  total r = total acc + length all
  /\ passed r = passed acc + length (List.filter (fun a => String.eqb (status a) "passed") all)
  /\ failed r = failed acc + length (List.filter (fun a => String.eqb (status a) "failed") all)
  /\ skipped r = skipped acc + (length (List.filter (fun a => String.eqb (status a) "skipped") all) + length (List.filter (fun a => String.eqb (status a) "pending") all))
  /\ length (failures r) = length (failures acc) + length (List.filter (fun a => String.eqb (status a) "failed") all)
  /\ success r = success acc.
Proof.
  revert acc. induction files as [|file files IH]; intros acc.
  { cbn. repeat split; lia. }
  intros all r. subst all r. cbn [fold_left flat_map].
  destruct (IH (fold_left (count file) (default [] (assertionResults file)) acc))
    as (Ht & Hp & Hf & Hs & Hl & Hok).
  destruct (count_file file (default [] (assertionResults file)) acc)
    as (Ht' & Hp' & Hf' & Hs' & Hl' & Hok').
  rewrite Ht, Hp, Hf, Hs, Hl, Hok, Ht', Hp', Hf', Hs', Hl', Hok'.
  rewrite !List.filter_app, !length_app. repeat split; lia.
Qed.

Lemma having_disjoint (l : list Assertion) :
  length (List.filter (fun a => String.eqb (status a) "passed") l) + length (List.filter (fun a => String.eqb (status a) "failed") l) + (length (List.filter (fun a => String.eqb (status a) "skipped") l) + length (List.filter (fun a => String.eqb (status a) "pending") l))
  <= length l.
Proof.
  induction l as [|a l IH]; [reflexivity|].
  cbn [List.filter length].
  destruct (String.eqb_spec (status a) "passed") as [->|_];
    [cbn [String.eqb Ascii.eqb Bool.eqb length]; lia|].
  destruct (String.eqb_spec (status a) "failed") as [->|_];
    [cbn [String.eqb Ascii.eqb Bool.eqb length]; lia|].
  destruct (String.eqb_spec (status a) "skipped") as [->|_];
    [cbn [String.eqb Ascii.eqb Bool.eqb length]; lia|].
  destruct (String.eqb (status a) "pending"); cbn [length]; lia.
Qed.

End Jest.

(** X10.  What [parseJestResults] counts in a report: [total] is the
    number of assertions of all files, [passed] and [failed] the numbers
    of those with status ['passed'] and ['failed'], [skipped] the number
    of those with status ['skipped'] or ['pending'].  The three never add
    up to more than [total], and there is one failure record per failed
    assertion.  The gate's status after the run is ['pass'] only if the
    report's [success] is truthy and no assertion failed; one failed
    assertion makes it ['fail'] whatever [success] says. *)
Theorem jest_report_counts (success totalTime coverageMap : JsVal)
    (testResults : list TestRunnerGate.FileResult) :
  let r := TestRunnerGate.parseJestResults success totalTime coverageMap (Some testResults) in
  let assertions :=
    flat_map (fun f => default [] (TestRunnerGate.assertionResults f)) testResults in
  let having s :=
    length (List.filter (fun a => String.eqb (TestRunnerGate.status a) s) assertions) in
  TestRunnerGate.total r = length assertions
  /\ TestRunnerGate.passed r = having "passed"
  /\ TestRunnerGate.failed r = having "failed"
  /\ TestRunnerGate.skipped r = having "skipped" + having "pending"
  /\ TestRunnerGate.passed r + TestRunnerGate.failed r + TestRunnerGate.skipped r
     <= TestRunnerGate.total r
  /\ length (TestRunnerGate.issues r) = TestRunnerGate.failed r
  /\ (TestRunnerGate.status_after r = "pass"
      <-> truthy success = true /\ having "failed" = 0)
  /\ (TestRunnerGate.status_after r = "pass" \/ TestRunnerGate.status_after r = "fail").
Proof.
  intros r assertions having.
  destruct (count_files testResults
              {| TestRunnerGate.success := success; TestRunnerGate.total := 0;
                 TestRunnerGate.passed := 0; TestRunnerGate.failed := 0;
                 TestRunnerGate.skipped := 0; TestRunnerGate.duration := totalTime;
                 TestRunnerGate.failures := []; TestRunnerGate.coverage := coverageMap |})
    as (Ht & Hp & Hf & Hs & Hl & Hok).
  cbn [TestRunnerGate.total TestRunnerGate.passed TestRunnerGate.failed
       TestRunnerGate.skipped TestRunnerGate.failures TestRunnerGate.success length
       Nat.add] in Ht, Hp, Hf, Hs, Hl, Hok.
  change (fold_left _ testResults _) with r in Ht, Hp, Hf, Hs, Hl, Hok.
  fold assertions in Ht, Hp, Hf, Hs, Hl.
  pose proof (having_disjoint assertions) as Hle.
  split; [exact Ht|]. split; [exact Hp|]. split; [exact Hf|]. split; [exact Hs|].
  split; [rewrite Ht, Hp, Hf, Hs; exact Hle|].
  split; [unfold TestRunnerGate.issues; rewrite length_map, Hl, Hf; reflexivity|].
  unfold TestRunnerGate.status_after, TestRunnerGate.allPassed. rewrite Hok, Hf.
  fold (having "failed").
  destruct (truthy success); cbn [andb]; destruct (Nat.eqb_spec (having "failed") 0);
    split; (try (left; reflexivity)); (try (right; reflexivity));
    try (split; [intros _; done | intros [? ?]; done]);
    try (split; [discriminate | intros [? ?]; done]).
Qed.


(** ** What the reporter does with a result *)

Section ReporterModes.
Import ResultReporter.

Lemma set_batchResults_same (r : Reporter) : set_batchResults (batchResults r) r = r.
Proof. by destruct r. Qed.

Lemma set_reporter_same (w : World) : set_reporter (reporter w) w = w.
Proof. by destruct w. Qed.

(** The keys [enhance] leaves to the result. *)
Lemma enhance_other this clock gateName result k :
  k <> "metadata" -> k <> "timestamp" -> k <> "taskId" -> k <> "gateName" ->
  enhance this clock gateName result !! k = result !! k.
Proof.
  intros. unfold enhance. by rewrite !lookup_insert_ne by done.
Qed.

End ReporterModes.



(** ** Flushing the buffer *)

Section Flushing.
Import ResultReporter.



Lemma enhance_set_batchResults l this clock gateName result :
  enhance (set_batchResults l this) clock gateName result = enhance this clock gateName result.
Proof. reflexivity. Qed.


End Flushing.





(** ** The groups and the bounds of a summary *)

Section SummaryGroups.
Import ResultReporter.



Lemma how_many_disjoint results :
  how_many pass results + how_many fail results + how_many skip results
    + how_many error results
  = length (List.filter (fun r => bool_decide (is_Some (status_of r))) results).
Proof.
  unfold how_many. induction results as [|r results IH]; [reflexivity|].
  cbn [List.filter].
  assert (Hr : forall st, has_status st r
                          = match status_of r, st with
                            | Some pass, pass | Some fail, fail | Some skip, skip
                            | Some error, error => true
                            | _, _ => false
                            end) by reflexivity.
  rewrite !Hr. clear Hr.
  destruct (status_of r) as [[]|].
  1-4: rewrite bool_decide_eq_true_2 by eauto; cbn [length]; lia.
  rewrite bool_decide_eq_false_2 by (intros [? ?]; discriminate). lia.
Qed.

Lemma length_filter_le {A} (f : A -> bool) (l : list A) : length (List.filter f l) <= length l.
Proof.
  induction l as [|x l IH]; [reflexivity|].
  cbn [List.filter]. destruct (f x); cbn [length]; lia.
Qed.

Lemma length_filter_all {A} (f : A -> bool) (l : list A) :
  length (List.filter f l) = length l <-> List.Forall (fun x => f x = true) l.
Proof.
  induction l as [|x l IH]; [split; [constructor | reflexivity]|].
  cbn [List.filter]. pose proof (length_filter_le f l).
  destruct (f x) eqn:Hx; cbn [length]; split.
  - intros H'. constructor; [done|]. apply IH. lia.
  - intros H'. inversion H' as [|? ? _ Hl]; subst. apply IH in Hl. lia.
  - lia.
  - intros H'. inversion H' as [|? ? Hx' _]; subst. congruence.
Qed.

(** The score as a fraction. *)
Lemma score_of_bounds (p t : nat) :
  p <= t ->
  (0 <= score_of p t)%Q /\ (score_of p t <= 100)%Q
  /\ (p = 0 -> score_of p t = 0%Q)
  /\ ((score_of p t == 100)%Q <-> p = t /\ 0 < t).
Proof.
  intros Hle. unfold score_of.
  destruct t as [|t].
  { cbn [Nat.ltb Nat.leb]. split; [done|]. split; [done|]. split; [done|].
    split; [intros H; discriminate H | lia]. }
  change (0 <? S t) with true. cbv iota.
  assert (Hq : (inject_Z (Z.of_nat p) / inject_Z (Z.of_nat (S t)) * inject_Z 100
                == (Z.of_nat p * 100) # (Pos.of_succ_nat t))%Q).
  { unfold Qdiv, Qinv, Qmult, Qeq, inject_Z.
    change (Z.of_nat (S t)) with (Z.pos (Pos.of_succ_nat t)).
    cbn [Qnum Qden]. rewrite Pos.mul_1_l, Pos.mul_1_r. ring. }
  pose proof (Znat.Zpos_P_of_succ_nat t) as Hpos.
  split; [rewrite Qred_correct, Hq; unfold Qle; cbn [Qnum Qden]; lia|].
  split; [rewrite Qred_correct, Hq; unfold Qle; cbn [Qnum Qden]; lia|].
  split.
  { intros ->. change 0%Q with (Qred 0). apply Qred_complete. rewrite Hq. reflexivity. }
  rewrite Qred_correct, Hq. unfold Qeq. cbn [Qnum Qden]. lia.
Qed.

End SummaryGroups.


(** X15.  The counters of a summary never add up to more than [total],
    and they add up to [total] exactly when every result has one of the
    four statuses the method knows; a result with any other status (the
    ['pass'] and ['fail'] of the gates, or ['warning'], or none) is in
    [total] only.  The score is between 0 and 100, it is 100 exactly when
    the run is not empty and every result passed, and it is 0 when none
    did; and a run without failed and error results is ['passed'] whatever
    else it holds, an empty run included. *)
Theorem generateSummary_bounds (this : Reporter) (clock : nat) (results : list Obj) :
  let summary := ResultReporter.generateSummary this clock results in
  let counted := Summary.passed summary + Summary.failed summary
                 + Summary.skipped summary + Summary.errors summary in
  counted <= Summary.total summary
  /\ (counted = Summary.total summary
      <-> List.Forall (fun r => is_Some (ResultReporter.status_of r)) results)
  /\ (exists q, Summary.score summary = Some q
                /\ (0 <= q)%Q /\ (q <= 100)%Q
                /\ ((q == 100)%Q <-> Summary.passed summary = Summary.total summary
                                      /\ 0 < Summary.total summary)
                /\ (Summary.passed summary = 0 -> q = 0%Q))
  /\ (List.Forall (fun r => ResultReporter.status_of r <> Some ResultReporter.fail
                            /\ ResultReporter.status_of r <> Some ResultReporter.error)
        results ->
      Summary.overallStatus summary = Some "passed").
Proof.
  intros summary counted. subst counted summary. unfold ResultReporter.generateSummary.
  match goal with |- context [fold_left ResultReporter.count results ?s0] =>
    destruct (fold_count_adds results s0) as (Ht & Hp & Hf & Hs & He);
    set (after := fold_left ResultReporter.count results s0) in *
  end.
  cbn [Summary.total Summary.passed Summary.failed Summary.skipped Summary.errors
         Nat.add] in Ht, Hp, Hf, Hs, He.
  cbn [Summary.set_verdict Summary.total Summary.passed Summary.failed Summary.skipped
         Summary.errors Summary.overallStatus Summary.score].
  pose proof (how_many_disjoint results) as Hsum.
  pose proof (length_filter_le
                (fun r => bool_decide (is_Some (ResultReporter.status_of r))) results) as Hle.
  rewrite Ht, Hp, Hf, Hs, He.
  split; [lia|]. split.
  { rewrite Hsum, length_filter_all.
    split; intros H; eapply List.Forall_impl; try exact H; intros r Hr; cbv beta in *.
    - by apply bool_decide_eq_true_1 in Hr.
    - by apply bool_decide_eq_true_2. }
  split.
  { eexists. split; [reflexivity|].
    destruct (score_of_bounds (ResultReporter.how_many ResultReporter.pass results)
                (length results)) as (H0 & H100 & Hnone & Hall); [lia|].
    done. }
  intros Hnone.
  assert (ResultReporter.how_many ResultReporter.fail results = 0
          /\ ResultReporter.how_many ResultReporter.error results = 0) as [-> ->].
  { unfold ResultReporter.how_many. clear -Hnone.
    induction Hnone as [|r l [Hf He] _ [IHf IHe]]; [done|].
    cbn [List.filter].
    assert (Hr : forall st, ResultReporter.has_status st r
                            = match ResultReporter.status_of r, st with
                              | Some ResultReporter.pass, ResultReporter.pass
                              | Some ResultReporter.fail, ResultReporter.fail
                              | Some ResultReporter.skip, ResultReporter.skip
                              | Some ResultReporter.error, ResultReporter.error => true
                              | _, _ => false
                              end) by reflexivity.
    rewrite !Hr. clear Hr.
    destruct (ResultReporter.status_of r) as [[]|]; done. }
  reflexivity.
Qed.


(** ** The runner's list of gates *)

Section Bookkeeping.
Import QualityRunner.

Lemma filter_all {A} (f : A -> bool) (l : list A) :
  List.Forall (fun x => f x = true) l -> List.filter f l = l.
Proof.
  induction 1 as [|x l Hx _ IH]; [reflexivity|]. cbn [List.filter]. by rewrite Hx, IH.
Qed.

Lemma filter_idempotent {A} (f : A -> bool) (l : list A) :
  List.filter f (List.filter f l) = List.filter f l.
Proof.
  induction l as [|x l IH]; [reflexivity|].
  cbn [List.filter]. destruct (f x) eqn:Hx; [|exact IH].
  cbn [List.filter]. by rewrite Hx, IH.
Qed.

End Bookkeeping.

(** X16.  The runner's list of gates.  [getStatistics] counts every entry
    as either enabled or disabled.  [addGate] appends one entry, enabled
    unless [options.enabled] is exactly [false], and leaves the other
    entries and the runner's settings alone.  [removeGate] removes every
    entry whose gate has the given name (all of them when a name was
    added more than once), keeps the others in order, and is idempotent;
    removing the name of a gate just added gives the runner back as it
    was, provided no other gate has that name. *)
Theorem gates_bookkeeping (this : QualityRunner.t) (g : BaseQualityGate.t) (opts : Obj)
    (gateName : string) :
  let named (n : string) (e : QualityRunner.Entry) :=
    String.eqb (BaseQualityGate.name (QualityRunner.gate e)) n in
  let on := match get opts "enabled" with VBool false => false | _ => true end in
  let stats := QualityRunner.getStatistics this in
  snd (fst stats) + snd stats = fst (fst stats)
  /\ (exists e, QualityRunner.gates (QualityRunner.addGate g opts this)
                = (QualityRunner.gates this ++ [e])%list
                /\ QualityRunner.gate e = g /\ QualityRunner.enabled e = on
                /\ QualityRunner.options e = opts)
  /\ QualityRunner.getStatistics (QualityRunner.addGate g opts this)
     = (fst (fst stats) + 1, snd (fst stats) + Nat.b2n on, snd stats + Nat.b2n (negb on))
  /\ List.Forall (fun e => named gateName e = false)
       (QualityRunner.gates (QualityRunner.removeGate gateName this))
  /\ List.filter (fun e => negb (named gateName e))
       (QualityRunner.gates (QualityRunner.removeGate gateName this))
     = List.filter (fun e => negb (named gateName e)) (QualityRunner.gates this)
  /\ length (QualityRunner.gates (QualityRunner.removeGate gateName this))
       + length (List.filter (named gateName) (QualityRunner.gates this))
     = length (QualityRunner.gates this)
  /\ QualityRunner.removeGate gateName (QualityRunner.removeGate gateName this)
     = QualityRunner.removeGate gateName this
  /\ (List.Forall (fun e => named (BaseQualityGate.name g) e = false) (QualityRunner.gates this) ->
      QualityRunner.removeGate (BaseQualityGate.name g) (QualityRunner.addGate g opts this)
      = this)
  /\ (QualityRunner.continueOnFailure (QualityRunner.addGate g opts this),
      QualityRunner.parallel (QualityRunner.addGate g opts this),
      QualityRunner.timeout (QualityRunner.addGate g opts this),
      QualityRunner.continueOnFailure (QualityRunner.removeGate gateName this),
      QualityRunner.parallel (QualityRunner.removeGate gateName this),
      QualityRunner.timeout (QualityRunner.removeGate gateName this))
     = (QualityRunner.continueOnFailure this, QualityRunner.parallel this,
        QualityRunner.timeout this,
        QualityRunner.continueOnFailure this, QualityRunner.parallel this,
        QualityRunner.timeout this).
Proof.
  intros named on stats. subst stats.
  unfold QualityRunner.getStatistics, QualityRunner.addGate, QualityRunner.removeGate.
  cbn [QualityRunner.set_gates QualityRunner.gates fst snd QualityRunner.continueOnFailure
         QualityRunner.parallel QualityRunner.timeout].
  fold on. fold (named gateName).
  split.
  { apply (length_filter_split QualityRunner.enabled
             (fun e => negb (QualityRunner.enabled e))). done. }
  split; [by eexists|].
  split.
  { rewrite !List.filter_app, !length_app. cbn [List.filter QualityRunner.enabled].
    destruct on; cbn [negb length Nat.b2n]; repeat f_equal; lia. }
  split.
  { apply List.Forall_forall. intros e [_ He]%List.filter_In.
    subst named. cbv beta. by apply negb_true_iff in He. }
  split; [apply filter_idempotent|].
  split.
  { rewrite Nat.add_comm.
    apply (length_filter_split (named gateName) (fun e => negb (named gateName e))).
    done. }
  split; [by rewrite filter_idempotent|].
  split; [|reflexivity].
  intros Hfresh. rewrite List.filter_app. cbn [List.filter QualityRunner.gate].
  subst named. cbv beta. rewrite String.eqb_refl. cbn [negb]. rewrite app_nil_r.
  rewrite filter_all; [by destruct this|].
  eapply List.Forall_impl; [|exact Hfresh]. intros e He. cbv beta in He. by rewrite He.
Qed.

(** The runner of three security gates, and a fourth gate added and
    removed again. *)
Lemma gates_bookkeeping_witness :
  QualityRunner.removeGate "G4"
    (QualityRunner.addGate (Sample.security "G4" []) ∅ (Sample.runner true false))
  = Sample.runner true false.
Proof.
  apply (gates_bookkeeping (Sample.runner true false) (Sample.security "G4" []) ∅ "G4").
  repeat constructor.
Defined.


(** ** The runner's race and its sequential loop *)

Section Sequential.
Import QualityRunner.
Variables (this : t) (code : JsVal) (context : Obj).


(** The race of [gate.run] against the runner's timer: [gate.run] never
    rejects, so the race is lost only to the timer. *)
Lemma _runGateWithTimeout_outcome (g : BaseQualityGate.t) (w : World) :
  exists r w1,
    BaseQualityGate.run g code context w = (Resolved r, w1)
    /\ history w1 = history w /\ reporter w1 = reporter w /\ results w1 = results w
    /\ now w <= now w1
    /\ r !! "gate" = Some (VStr (BaseQualityGate.name g))
    /\ Trace.invocations (trace w1)
       = (Trace.invocations (trace w)
            ++ Trace.invocations (drop (length (trace w)) (trace w1)))%list
    /\ (BaseQualityGate.enabled g = true ->
        (BaseQualityGate.name g, 1) ∈ Trace.invocations (trace w1))
    /\ _runGateWithTimeout this g code context w
       = if now w1 - now w <? timeout this then (Resolved r, w1)
         else (Rejected (Outcome.timeout_error this g), set_now (now w + timeout this) w1).
Proof.
  destruct (run_spec g code context w)
    as (r & w1 & l & m & Hrun & Hgate & Hh & Hrep & Hres & Hnow & Htr & Hfirst & _).
  exists r, w1. split; [exact Hrun|].
  split; [done|]. split; [done|]. split; [done|]. split; [done|]. split; [done|].
  split.
  { rewrite Htr, drop_app_length. apply invocations_app. }
  split.
  { intros Hon. destruct (Hfirst Hon) as [l' ->]. rewrite Htr, invocations_app.
    apply elem_of_app. right. cbn. left. }
  unfold _runGateWithTimeout. rewrite Hrun. reflexivity.
Qed.

(** [reportResult] in batch mode buffers and stores nothing. *)
Lemma reportResult_frame gateName result w :
  exists v w',
    ResultReporter.reportResult gateName result w = (Resolved v, w')
    /\ now w' = now w /\ results w' = results w
    /\ Trace.invocations (trace w') = Trace.invocations (trace w)
    /\ (batchMode (reporter w) = true ->
        history w' = history w
        /\ reporter w'
           = set_batchResults
               (batchResults (reporter w)
                  ++ if Host.enabled (reporter w)
                     then [ResultReporter.enhance (reporter w) (now w) gateName result]
                     else [])%list
               (reporter w)).
Proof.
  destruct (reportResult_invocations gateName result w) as (v & w' & Hrun & Hn & Hr & Hi).
  exists v, w'. split; [exact Hrun|]. split; [done|]. split; [done|]. split; [done|].
  intros Hbatch. revert Hrun.
  unfold ResultReporter.reportResult, bind, read, ret, emit, effect, update_reporter, update.
  rewrite Hbatch. destruct (Host.enabled (reporter w)); cbn [negb].
  - intros [= _ <-]. cbn. done.
  - intros [= _ <-]. by rewrite app_nil_r, set_batchResults_same.
Qed.


End Sequential.


Section SequentialLoop.
Import QualityRunner.
Variables (this : t) (code : JsVal) (context : Obj).


End SequentialLoop.






(** ** A gate's run does not depend on when it starts *)

Section Independence.
Import BaseQualityGate.
Variables (this : t) (code : JsVal) (context : Obj).

(** How an attempt settles and how long it takes is the same in every
    world. *)
Lemma executeWithTimeout_at k :
  exists settled dt,
    forall w,
      exists mark,
        executeWithTimeout this code context k w =
          (settled,
           {| now := now w + dt;
              trace := (trace w ++ [Execute (name this) k]) ++ [mark];
              history := history w; reporter := reporter w; results := results w |}).
Proof.
  unfold executeWithTimeout.
  destruct (execute this code context k) as [after r|after e|];
    [destruct (after <? timeout this)..|];
    eexists _, _; intros w; eexists; reflexivity.
Qed.

Lemma attempt_loop_independent budget :
  forall attempts lastError w w',
    fst (attempt_loop budget this code context attempts lastError w)
    = fst (attempt_loop budget this code context attempts lastError w')
    /\ now (snd (attempt_loop budget this code context attempts lastError w)) + now w'
       = now (snd (attempt_loop budget this code context attempts lastError w')) + now w.
Proof.
  induction budget as [|budget IH]; intros attempts lastError w w'.
  { cbn [attempt_loop]. unfold all_failed. destruct lastError; cbn; split; (done || lia). }
  destruct (Nat.le_gt_cases attempts (retryCount this)) as [Hle|Hgt].
  2:{ rewrite !attempt_loop_exit by done. unfold all_failed.
      destruct lastError; cbn; split; (done || lia). }
  destruct (executeWithTimeout_at (attempts + 1)) as (settled & dt & Hat).
  destruct (Hat w) as (mark & Hw). destruct (Hat w') as (mark' & Hw').
  destruct settled as [r|error].
  - rewrite (attempt_loop_return this code context budget attempts lastError w r _ Hle Hw).
    rewrite (attempt_loop_return this code context budget attempts lastError w' r _ Hle Hw').
    cbn [fst snd now]. rewrite !Nat.add_sub'. split; [reflexivity | lia].
  - rewrite (attempt_loop_raise this code context budget attempts lastError w error _ Hle Hw).
    rewrite (attempt_loop_raise this code context budget attempts lastError w' error _ Hle Hw').
    destruct (attempts + 1 <=? retryCount this);
      match goal with
      | |- fst (attempt_loop _ _ _ _ _ _ ?x) = fst (attempt_loop _ _ _ _ _ _ ?y) /\ _ =>
          destruct (IH (attempts + 1) (Some error) x y) as [Hfst Hnow]
      end;
      (split; [exact Hfst|]); cbn [now] in Hnow |- *; lia.
Qed.

(** [run] resolves to the same result and takes the same time whenever
    it is started. *)
Lemma run_independent w w' :
  fst (run this code context w) = fst (run this code context w')
  /\ now (snd (run this code context w)) + now w'
     = now (snd (run this code context w')) + now w.
Proof.
  unfold run. destruct (enabled this); cbn [negb].
  - apply attempt_loop_independent.
  - unfold ret. cbn. split; [done | lia].
Qed.

End Independence.

Section RaceIndependence.
Import QualityRunner.
Variables (this : t) (code : JsVal) (context : Obj).

(** So does the runner's race. *)
Lemma _runGateWithTimeout_independent g w w' :
  fst (_runGateWithTimeout this g code context w)
  = fst (_runGateWithTimeout this g code context w').
Proof.
  destruct (run_independent g code context w w') as [Hfst Hnow].
  destruct (_runGateWithTimeout_outcome this code context g w)
    as (r & w1 & Hrun & _ & _ & _ & Hle & _ & _ & _ & Hrace).
  destruct (_runGateWithTimeout_outcome this code context g w')
    as (r' & w1' & Hrun' & _ & _ & _ & Hle' & _ & _ & _ & Hrace').
  rewrite Hrun, Hrun' in Hfst, Hnow. cbn [fst snd] in Hfst, Hnow.
  injection Hfst as <-. rewrite Hrace, Hrace'.
  replace (now w1' - now w') with (now w1 - now w) by lia.
  by destruct (now w1 - now w <? timeout this).
Qed.

End RaceIndependence.


(** ** The two modes side by side *)

Section Modes.
Import QualityRunner.
Variables (this : t) (code : JsVal) (context : Obj).








End Modes.


(** ** The whole run, step by step *)

Section RunSteps.
Import QualityRunner.
Variables (this : t) (code : JsVal) (context : Obj).





End RunSteps.





Section RunOutline.
Import QualityRunner.
Variables (this : t) (code : JsVal) (context : Obj).


End RunOutline.





(** ** The registry of gate classes *)

Section RegistryFacts.
Import Registry.

Lemma lookup_type_set_eq type class registry :
  lookup_type (set type class registry) type = Some class.
Proof.
  induction registry as [|[key old] registry IH]; cbn [set lookup_type].
  - by rewrite String.eqb_refl.
  - destruct (String.eqb_spec key type) as [->|Hne]; cbn [lookup_type].
    + by rewrite String.eqb_refl.
    + destruct (String.eqb_spec key type); [done|]. exact IH.
Qed.

Lemma lookup_type_set_ne type other class registry :
  other <> type ->
  lookup_type (set type class registry) other = lookup_type registry other.
Proof.
  intros Hne. induction registry as [|[key old] registry IH]; cbn [set lookup_type].
  - destruct (String.eqb_spec type other); [congruence|done].
  - destruct (String.eqb_spec key type) as [->|Hkey]; cbn [lookup_type].
    + destruct (String.eqb_spec type other); [congruence|done].
    + destruct (String.eqb_spec key other); [done|]. exact IH.
Qed.

Lemma getGateTypes_set type class registry :
  getGateTypes (set type class registry)
  = if existsb (fun key => String.eqb key type) (getGateTypes registry)
    then getGateTypes registry
    else (getGateTypes registry ++ [type])%list.
Proof.
  unfold getGateTypes.
  induction registry as [|[key old] registry IH]; cbn [set List.map existsb fst]; [done|].
  destruct (String.eqb_spec key type) as [->|Hkey]; cbn [orb List.map fst]; [done|].
  rewrite IH. by destruct (existsb _ _).
Qed.

Lemma lookup_type_None registry type :
  lookup_type registry type = None <-> ~ In type (getGateTypes registry).
Proof.
  unfold getGateTypes.
  induction registry as [|[key class] registry IH]; cbn [lookup_type List.map fst In].
  - split; [by intros _ [] | done].
  - destruct (String.eqb_spec key type) as [->|Hkey].
    + split; [discriminate|]. intros H. exfalso. apply H. by left.
    + rewrite IH. split; [intros H [?|?]; done | intros H ?; apply H; by right].
Qed.

End RegistryFacts.

(** X21.  The registry of gate classes.  [createGate] throws exactly for
    a type that is not registered, with the message
    ['Unknown quality gate type: <type>'], and otherwise constructs the
    class registered under the type.  [registerGate] throws ['Gate must
    extend BaseQualityGate'] for a class that does not, and otherwise
    makes [createGate] construct the new class for that type, a built-in
    type included, while every other type stays as it was; the type keeps
    its place in [getGateTypes] when it was registered before and goes
    last when it is new, so that the types stay free of duplicates.  The
    built-in types are, in order, [eslint], [test], [security] and
    [complexity]. *)
Theorem registry_behaviour (registry : Registry.t) (type other : string)
    (class : Registry.GateClass) (options : Construct.GateOptions)
    (eslint test security complexity : Registry.GateClass) :
  (In type (Registry.getGateTypes registry) ->
   exists registered,
     Registry.lookup_type registry type = Some registered
     /\ Registry.createGate registry type options
        = Resolved (Registry.construct registered options))
  /\ (~ In type (Registry.getGateTypes registry) ->
      Registry.createGate registry type options
      = Rejected (new_Error ("Unknown quality gate type: " ++ type)))
  /\ (Registry.extends_base class = false ->
      Registry.registerGate type class registry
      = Rejected (new_Error "Gate must extend BaseQualityGate"))
  /\ (Registry.extends_base class = true ->
      exists registry',
        Registry.registerGate type class registry = Resolved registry'
        /\ Registry.createGate registry' type options
           = Resolved (Registry.construct class options)
        /\ (other <> type ->
            Registry.createGate registry' other options
            = Registry.createGate registry other options)
        /\ (In type (Registry.getGateTypes registry) ->
            Registry.getGateTypes registry' = Registry.getGateTypes registry)
        /\ (~ In type (Registry.getGateTypes registry) ->
            Registry.getGateTypes registry' = (Registry.getGateTypes registry ++ [type])%list)
        /\ (List.NoDup (Registry.getGateTypes registry) ->
            List.NoDup (Registry.getGateTypes registry')))
  /\ Registry.getGateTypes (Registry.builtin eslint test security complexity)
     = ["eslint"; "test"; "security"; "complexity"]
  /\ Registry.createGate (Registry.builtin eslint test security complexity) "security" options
     = Resolved (Registry.construct security options).
Proof.
  split.
  { intros Hin. unfold Registry.createGate.
    destruct (Registry.lookup_type registry type) as [registered|] eqn:Hlook; [by eauto|].
    by apply lookup_type_None in Hlook. }
  split.
  { intros Hout. unfold Registry.createGate.
    by apply lookup_type_None in Hout as ->. }
  split.
  { intros Hno. unfold Registry.registerGate. by rewrite Hno. }
  split; [|split; reflexivity].
  intros Hyes. unfold Registry.registerGate. rewrite Hyes. cbn [negb].
  eexists. split; [reflexivity|].
  assert (Htypes : existsb (fun key => String.eqb key type) (Registry.getGateTypes registry)
                   = true <-> In type (Registry.getGateTypes registry)).
  { rewrite List.existsb_exists. split.
    - intros (key & Hin & Heq). by apply String.eqb_eq in Heq as <-.
    - intros Hin. exists type. split; [done|apply String.eqb_refl]. }
  split; [unfold Registry.createGate; by rewrite lookup_type_set_eq|].
  split; [intros Hne; unfold Registry.createGate; by rewrite lookup_type_set_ne|].
  rewrite getGateTypes_set.
  destruct (existsb _ _).
  - split; [done|]. split; [|done]. intros Hout. exfalso. apply Hout. by apply Htypes.
  - assert (Hout : ~ In type (Registry.getGateTypes registry)).
    { intros Hin. apply Htypes in Hin. discriminate. }
    split; [done|]. split; [done|]. intros Hnodup.
    apply List.NoDup_app; [done | repeat constructor; by intros [] |].
    intros key Hin [<-|[]]. done.
Qed.

(** The built-in registry, and a class of one's own registered under
    [eslint]: it takes the place of the built-in class. *)
Lemma registry_behaviour_witness :
  Registry.createGate
    (Registry.set "eslint"
       {| Registry.className := "Mine"; Registry.extends_base := true;
          Registry.construct := Construct.gate "Mine" (fun _ _ _ => BaseQualityGate.Hangs) |}
       (Registry.builtin
          {| Registry.className := "ESLintGate"; Registry.extends_base := true;
             Registry.construct :=
               Construct.gate "ESLintGate" (fun _ _ _ => BaseQualityGate.Hangs) |}
          {| Registry.className := "TestRunnerGate"; Registry.extends_base := true;
             Registry.construct :=
               Construct.test_runner_gate (fun _ _ _ => BaseQualityGate.Hangs) |}
          {| Registry.className := "SecurityGate"; Registry.extends_base := true;
             Registry.construct :=
               Construct.gate "SecurityGate" (fun _ _ _ => BaseQualityGate.Hangs) |}
          {| Registry.className := "ComplexityGate"; Registry.extends_base := true;
             Registry.construct :=
               Construct.gate "ComplexityGate" (fun _ _ _ => BaseQualityGate.Hangs) |}))
    "eslint" Construct.no_options
  = Resolved (Construct.gate "Mine" (fun _ _ _ => BaseQualityGate.Hangs) Construct.no_options).
Proof.
  match goal with
  | |- Registry.createGate (Registry.set ?type ?class ?registry) _ ?options = _ =>
      destruct (proj1 (proj2 (proj2 (proj2
                 (registry_behaviour registry type type class options class class class class))))
                 eq_refl)
        as (registry' & Hreg & Hcreate & _)
  end.
  injection Hreg as <-. exact Hcreate.
Defined.


(** ** The factories *)

Section FactoryFacts.
Import Factory.

Lemma omap_cons_of {A B} (f : A -> option B) (x : A) (l : list A) :
  omap f (x :: l) = match f x with Some y => y :: omap f l | None => omap f l end.
Proof. reflexivity. Qed.

Lemma add_gates_spec registry options_of gateTypes :
  forall runner w,
    exists w',
      add_gates registry options_of gateTypes runner w
      = (Resolved
           (QualityRunner.set_gates
              (QualityRunner.gates runner
                 ++ omap (fun type =>
                            (fun class =>
                               {| QualityRunner.gate :=
                                    Registry.construct class (options_of type);
                                  QualityRunner.options := ∅;
                                  QualityRunner.enabled := true |})
                              <$> Registry.lookup_type registry type) gateTypes)%list
              runner), w')
      /\ trace w'
         = (trace w
              ++ List.map
                   (fun type => Warn ("Failed to create gate " ++ type
                                        ++ ": Unknown quality gate type: " ++ type))
                   (List.filter
                      (fun type => negb (bool_decide
                                           (is_Some (Registry.lookup_type registry type))))
                      gateTypes))%list
      /\ reporter w' = reporter w /\ history w' = history w /\ now w' = now w
      /\ results w' = results w.
Proof.
  induction gateTypes as [|type gateTypes IH]; intros runner w.
  { exists w. cbn. unfold ret. rewrite !app_nil_r. by destruct runner. }
  cbn [add_gates List.filter]. rewrite omap_cons_of. unfold Registry.createGate.
  destruct (Registry.lookup_type registry type) as [class|] eqn:Hlook.
  - rewrite bool_decide_eq_true_2 by eauto. cbn [negb fmap option_fmap option_map].
    destruct (IH (QualityRunner.addGate (Registry.construct class (options_of type)) ∅ runner) w)
      as (w' & Hrun & Htr & Hrest).
    exists w'. rewrite Hrun. split; [|by split].
    unfold QualityRunner.addGate.
    cbn [QualityRunner.set_gates QualityRunner.gates QualityRunner.continueOnFailure
           QualityRunner.parallel QualityRunner.timeout].
    rewrite <- app_assoc. reflexivity.
  - rewrite bool_decide_eq_false_2 by (intros [? ?]; discriminate).
    cbn [negb fmap option_fmap option_map List.map].
    unfold bind at 1. unfold effect at 1, update at 1.
    match goal with |- context [add_gates _ _ _ runner ?x] =>
      destruct (IH runner x) as (w' & Hrun & Htr & Hrest)
    end.
    exists w'. rewrite Hrun. split; [reflexivity|].
    cbn [set_trace trace reporter history now results] in Htr, Hrest.
    split; [|exact Hrest]. rewrite Htr, <- app_assoc. reflexivity.
Qed.

End FactoryFacts.

(** X22.  The runner factories.  [createWithGates] resolves to a runner
    whose gates are, in the order asked for, the gates constructed for
    those of the requested types that are registered, each enabled and
    built from [options[type]]; every type that is not registered is
    skipped with one warning and does not make the factory fail.  The
    reporter is always a new one made from the options (with the
    detected storage adapter when there is one): a reporter passed as
    [options.reporter] is not used, and nothing is buffered or stored.
    [createForCI] asks for [eslint], [test], [security] and [complexity]
    and, unless the options say otherwise, sets [continueOnFailure] off,
    [parallel] on and a timeout of 120000 ms; a timeout option of 0 gives
    60000 ms. *)
Theorem factory_gates (registry : Registry.t) (found : option Storage.Adapter)
    (gateTypes : list string) (options : Construct.RunnerOptions)
    (options_of : string -> Construct.GateOptions) (w : World) :
  let registered type := bool_decide (is_Some (Registry.lookup_type registry type)) in
  exists runner w',
    Factory.createWithGates registry found gateTypes options options_of w
    = (Resolved runner, w')
    /\ List.map (fun e => Resolved (QualityRunner.gate e))
         (QualityRunner.gates runner)
       = List.map (fun type => Registry.createGate registry type (options_of type))
           (List.filter registered gateTypes)
    /\ List.Forall (fun e => QualityRunner.enabled e = true) (QualityRunner.gates runner)
    /\ length (QualityRunner.gates runner)
         + length (List.filter (fun type => negb (registered type)) gateTypes)
       = length gateTypes
    /\ trace w'
       = (trace w
            ++ List.map
                 (fun type => Warn ("Failed to create gate " ++ type
                                      ++ ": Unknown quality gate type: " ++ type))
                 (List.filter (fun type => negb (registered type)) gateTypes))%list
    /\ reporter w' = Factory.createWithAutoStorage found options
    /\ batchResults (reporter w') = []
    /\ storageAdapter (reporter w')
       = match found with
         | Some adapter => Some adapter
         | None => Construct.storageAdapter options
         end
    /\ history w' = history w
    /\ (QualityRunner.continueOnFailure runner, QualityRunner.parallel runner,
        QualityRunner.timeout runner)
       = (Construct.not_false (Construct.continueOnFailure options),
          default false (Construct.parallel options),
          Construct.number_or (Construct.runnerTimeout options) 60000)
    /\ exists ci w'',
         Factory.createForCI registry found options options_of w = (Resolved ci, w'')
         /\ QualityRunner.continueOnFailure ci
            = default false (Construct.continueOnFailure options)
         /\ QualityRunner.parallel ci = default true (Construct.parallel options)
         /\ QualityRunner.timeout ci
            = match Construct.runnerTimeout options with
              | None => 120000
              | Some 0 => 60000
              | Some limit => limit
              end
         /\ List.map (fun e => Resolved (QualityRunner.gate e)) (QualityRunner.gates ci)
            = List.map (fun type => Registry.createGate registry type (options_of type))
                (List.filter registered ["eslint"; "test"; "security"; "complexity"]).
Proof.
  intros registered.
  assert (Hgates : forall types,
             List.map (fun e => Resolved (QualityRunner.gate e))
               (omap (fun type =>
                        (fun class =>
                           {| QualityRunner.gate := Registry.construct class (options_of type);
                              QualityRunner.options := ∅;
                              QualityRunner.enabled := true |})
                          <$> Registry.lookup_type registry type) types)
             = List.map (fun type => Registry.createGate registry type (options_of type))
                 (List.filter registered types)).
  { intros types. induction types as [|type types IH]; [reflexivity|].
    cbn [List.filter]. rewrite omap_cons_of. subst registered. cbv beta.
    destruct (Registry.lookup_type registry type) as [class|] eqn:Hlook.
    - rewrite bool_decide_eq_true_2 by eauto.
      cbn [fmap option_fmap option_map List.map QualityRunner.gate].
      unfold Registry.createGate at 1. rewrite Hlook. by rewrite IH.
    - rewrite bool_decide_eq_false_2 by (intros [? ?]; discriminate).
      cbn [fmap option_fmap option_map]. exact IH. }
  assert (Hon : forall types,
             List.Forall (fun e => QualityRunner.enabled e = true)
               (omap (fun type =>
                        (fun class =>
                           {| QualityRunner.gate := Registry.construct class (options_of type);
                              QualityRunner.options := ∅;
                              QualityRunner.enabled := true |})
                          <$> Registry.lookup_type registry type) types)).
  { intros types. induction types as [|type types IH]; [constructor|].
    rewrite omap_cons_of. destruct (Registry.lookup_type registry type);
      cbn [fmap option_fmap option_map]; [by constructor | exact IH]. }
  unfold Factory.createForCI, Factory.createWithGates.
  unfold bind at 1 2 3 4, update at 1 2 3 4.
  match goal with |- context [Factory.add_gates registry options_of gateTypes ?r ?x] =>
    destruct (add_gates_spec registry options_of gateTypes r x)
      as (w' & Hrun & Htr & Hrep & Hh & _)
  end.
  rewrite Hrun. do 2 eexists. split; [reflexivity|].
  cbn [QualityRunner.set_gates QualityRunner.gates Construct.new_runner fst app
         QualityRunner.continueOnFailure QualityRunner.parallel QualityRunner.timeout].
  split; [apply Hgates|]. split; [apply Hon|].
  split.
  { rewrite <- (length_map (fun e => Resolved (QualityRunner.gate e))), Hgates, length_map.
    apply (length_filter_split registered (fun type => negb (registered type))). done. }
  split; [exact Htr|].
  cbn [set_reporter reporter history] in Hrep, Hh.
  split; [exact Hrep|]. rewrite Hrep.
  split; [by destruct found|]. split; [by destruct found|]. split; [exact Hh|].
  split; [reflexivity|].
  match goal with |- context [Factory.add_gates registry options_of ?types ?r ?x] =>
    destruct (add_gates_spec registry options_of types r x) as (w'' & Hrun' & _)
  end.
  rewrite Hrun'. do 2 eexists. split; [reflexivity|].
  cbn [QualityRunner.set_gates QualityRunner.gates Construct.new_runner fst app
         QualityRunner.continueOnFailure QualityRunner.parallel QualityRunner.timeout
         Construct.ci_options Construct.continueOnFailure Construct.parallel
         Construct.runnerTimeout Construct.not_false default].
  split; [by destruct (Construct.continueOnFailure options) as [[]|]|].
  split; [by destruct (Construct.parallel options) as [[]|]|].
  split.
  { unfold Construct.number_or. destruct (Construct.runnerTimeout options) as [[|limit]|];
      reflexivity. }
  apply Hgates.
Qed.


(** ** The complexity gate *)



(** ** The test run and its temporary directory *)




(** ** The statuses of the built-in gates *)

Section BuiltinStatuses.



End BuiltinStatuses.



(** ** The events of a gate *)

Section GateEvents.
Import BaseQualityGate.
Variables (this : t) (code : JsVal) (context : Obj).

Lemma emitted_app tr1 tr2 :
  Events.emitted (tr1 ++ tr2) = (Events.emitted tr1 ++ Events.emitted tr2)%list.
Proof. apply omap_app. Qed.

(** A rejected attempt is one that raises, and has no ['complete']
    event. *)
Lemma rejected_attempt k w e w1 :
  executeWithTimeout this code context k w = (Rejected e, w1) ->
  Race.raises this code context k = true /\ Events.completion this code context k = [].
Proof.
  unfold executeWithTimeout, Race.raises, Events.completion.
  destruct (execute this code context k) as [after r|after e'|]; [|done..].
  destruct (after <? timeout this); [|done].
  unfold bind, effect, elapse, update, ret. discriminate.
Qed.

Lemma attempt_loop_events budget :
  forall attempts lastError w,
    S (retryCount this) <= attempts + budget ->
    (retryCount this < attempts -> lastError <> None) ->
    exists r w' l n,
      attempt_loop budget this code context attempts lastError w = (Resolved r, w')
      /\ trace w' = (trace w ++ l)%list
      /\ (retryCount this < attempts -> n = 0 /\ l = [])
      /\ (attempts <= retryCount this ->
          1 <= n /\ attempts + n <= retryCount this + 1
          /\ Events.emitted l
             = (List.map (Events.retry this code context) (seq (attempts + 1) (n - 1))
                  ++ Events.completion this code context (attempts + n))%list
          /\ (attempts + n < retryCount this + 1 ->
              Events.completion this code context (attempts + n) <> [])
          /\ (forall k, attempts < k -> k < attempts + n ->
                        Race.raises this code context k = true)).
Proof.
  induction budget as [|budget IH]; intros attempts lastError w Hbudget Hlast.
  - assert (Hgt : retryCount this < attempts) by lia.
    cbn [attempt_loop]. destruct lastError as [e|]; [|by destruct (Hlast Hgt)].
    eexists; exists w, [], 0. cbn [all_failed]. unfold ret.
    split; [reflexivity|]. rewrite app_nil_r. split; [done|]. split; [done|]. lia.
  - destruct (Nat.le_gt_cases attempts (retryCount this)) as [Hle|Hgt].
    2:{ rewrite attempt_loop_exit by done.
        destruct lastError as [e|]; [|by destruct (Hlast Hgt)].
        eexists; exists w, [], 0. cbn [all_failed]. unfold ret.
        split; [reflexivity|]. rewrite app_nil_r. split; [done|]. split; [done|]. lia. }
    destruct (executeWithTimeout_bounded this code context (attempts + 1) w)
      as (settled & dt & mark & Hex & Hmark & Hdt & Herr & Hok).
    assert (Hmk : Events.emitted [mark] = []) by by destruct Hmark as [-> | ->].
    destruct settled as [result|error].
    + rewrite (attempt_loop_return this code context budget attempts lastError w _ _ Hle Hex).
      destruct (Hok result eq_refl) as [Hreturns Hintime].
      assert (Hcompletion : Events.completion this code context (attempts + 1)
                            = [EvComplete (name this) (get result "status") dt (attempts + 1)]).
      { unfold Events.completion. rewrite Hreturns.
        by apply Nat.ltb_lt in Hintime as ->. }
      do 2 eexists.
      exists ([Execute (name this) (attempts + 1)] ++ [mark] ++
              [Emit (EvComplete (name this) (get result "status")
                      (now w + dt - now w) (attempts + 1))])%list, 1.
      split; [reflexivity|]. cbn [now trace].
      split; [by rewrite <- !app_assoc|].
      split; [lia|]. intros _.
      split; [lia|]. split; [lia|].
      rewrite !emitted_app, Hmk, Hcompletion, Nat.add_sub'. cbn [seq List.map Nat.sub app].
      split; [reflexivity|]. split; [done|]. intros k ? ?. lia.
    + rewrite (attempt_loop_raise this code context budget attempts lastError w _ _ Hle Hex).
      destruct (rejected_attempt _ _ _ _ Hex) as [Hraises Hnocompletion].
      pose proof (Herr error eq_refl) as Herror.
      match goal with |- context [attempt_loop budget _ _ _ _ _ ?x] => set (w1 := x) end.
      destruct (IH (attempts + 1) (Some error) w1 ltac:(lia) ltac:(done))
        as (r & w' & l & n & Hrun & Htr & Hzero & Hpos).
      destruct (Nat.leb_spec (attempts + 1) (retryCount this)) as [Hretry|Hlast'].
      * destruct (Hpos Hretry) as (Hn1 & Hn2 & Hev & Hearly & Hall).
        exists r, w',
          ([Execute (name this) (attempts + 1)] ++ [mark] ++
           [Emit (EvRetry (name this) (attempts + 1) (message error))] ++
           [Sleep (1000 * (attempts + 1))] ++ l)%list, (S n).
        subst w1. cbn [now trace] in *.
        split; [exact Hrun|].
        split; [rewrite Htr; by rewrite <- !app_assoc|].
        split; [lia|]. intros _.
        split; [lia|]. split; [lia|].
        replace (attempts + S n) with (attempts + 1 + n) by lia.
        split.
        { rewrite !emitted_app, Hmk, Hev.
          replace (S n - 1) with (S (n - 1)) by lia.
          cbn [seq List.map app Events.emitted omap list_omap]. f_equal.
          - unfold Events.retry. by rewrite Herror.
          - by replace (S (attempts + 1)) with (attempts + 1 + 1) by lia. }
        split; [intros ?; apply Hearly; lia|].
        intros k Hk1 Hk2. destruct (Nat.eq_dec k (attempts + 1)) as [->|Hne]; [done|].
        apply Hall; lia.
      * destruct (Hzero ltac:(lia)) as [-> ->].
        exists r, w', ([Execute (name this) (attempts + 1)] ++ [mark])%list, 1.
        subst w1. cbn [now trace] in *.
        split; [exact Hrun|].
        split; [rewrite Htr; by rewrite app_nil_r, <- !app_assoc|].
        split; [lia|]. intros _.
        split; [lia|]. split; [lia|].
        rewrite !emitted_app, Hmk, Hnocompletion. cbn.
        split; [reflexivity|]. split; [lia|]. intros k ? ?. lia.
Qed.

End GateEvents.




(** ** The events of the sequential loop *)

Section RunnerEvents.
Import QualityRunner.
Variables (this : t) (code : JsVal) (context : Obj).

Lemma runner_events_app tr1 tr2 :
  Protocol.runner_events (tr1 ++ tr2)
  = (Protocol.runner_events tr1 ++ Protocol.runner_events tr2)%list.
Proof. unfold Protocol.runner_events. by rewrite emitted_app, List.filter_app. Qed.

(** A gate's [run] emits none of the runner's events. *)
Lemma run_runner_events (g : BaseQualityGate.t) (w : World) :
  Protocol.runner_events (trace (snd (BaseQualityGate.run g code context w)))
  = Protocol.runner_events (trace w).
Proof.
  unfold BaseQualityGate.run. destruct (BaseQualityGate.enabled g); cbn [negb]; [|done].
  destruct (attempt_loop_events g code context (S (BaseQualityGate.retryCount g))
              0 None w ltac:(lia) ltac:(lia))
    as (r & w' & l & n & Hrun & Htr & _ & Hpos).
  destruct (Hpos ltac:(lia)) as (_ & _ & Hev & _). clear Hpos.
  rewrite Hrun. cbn [snd]. rewrite Htr, runner_events_app.
  unfold Protocol.runner_events at 2. rewrite Hev, List.filter_app.
  assert (Hretries : forall ks,
             List.filter Protocol.of_runner (List.map (Events.retry g code context) ks) = []).
  { intros ks. induction ks as [|k ks IH]; [reflexivity|]. exact IH. }
  rewrite Hretries.
  assert (List.filter Protocol.of_runner (Events.completion g code context (0 + n)) = [])
    as ->.
  { unfold Events.completion.
    destruct (BaseQualityGate.execute g code context (0 + n)) as [after result| |];
      [destruct (after <? BaseQualityGate.timeout g)|..]; reflexivity. }
  by rewrite app_nil_r.
Qed.

Lemma _runGateWithTimeout_runner_events (g : BaseQualityGate.t) (w : World) :
  Protocol.runner_events (trace (snd (_runGateWithTimeout this g code context w)))
  = Protocol.runner_events (trace w).
Proof.
  pose proof (run_runner_events g w) as Hrun.
  unfold _runGateWithTimeout.
  destruct (BaseQualityGate.run g code context w) as [settled w1].
  cbn [snd] in Hrun. by destruct (now w1 - now w <? timeout this).
Qed.

(** Neither does [reportResult]. *)
Lemma reportResult_runner_events gateName result w :
  Protocol.runner_events (trace (snd (ResultReporter.reportResult gateName result w)))
  = Protocol.runner_events (trace w).
Proof.
  unfold ResultReporter.reportResult, bind, read, ret, emit, effect, update_reporter, update,
    try_catch.
  destruct (Host.enabled (reporter w)); cbn [negb snd]; [|done].
  destruct (batchMode (reporter w)); cbn [snd set_trace set_reporter trace].
  { rewrite runner_events_app. cbn. by rewrite app_nil_r. }
  destruct (storageAdapter (reporter w)) as [adapter|]; cbn [snd set_trace trace].
  2:{ rewrite runner_events_app. cbn. by rewrite app_nil_r. }
  destruct (truthy (taskId (reporter w))); cbn [snd set_trace trace].
  2:{ rewrite runner_events_app. cbn. by rewrite app_nil_r. }
  rewrite storeQualityResult_spec. cbn [history set_trace].
  destruct (Storage.storeQualityResult adapter _ _) as [id|err];
    cbn [snd set_trace set_history trace]; rewrite ?runner_events_app; cbn;
    by rewrite ?app_nil_r.
Qed.

(** The events of the sequential loop, entry by entry. *)
Lemma _runSequential_events entries :
  forall w w0,
    exists w' out,
      _runSequential this code context entries w = (Resolved tt, w')
      /\ results w' = (results w ++ out)%list
      /\ length out <= length entries
      /\ Protocol.runner_events (trace w')
         = (Protocol.runner_events (trace w)
              ++ flat_map
                   (fun e => Protocol.of_entry this e
                               (fst (_runGateWithTimeout this (gate e) code context w0)))
                   (take (length out) entries))%list.
Proof.
  induction entries as [|e entries IH]; intros w w0.
  { exists w, []. cbn. unfold ret. by rewrite !app_nil_r. }
  destruct (enabled e) eqn:Hon.
  - set (ws := set_trace (trace w ++ [Emit (EvGateStarted (BaseQualityGate.name (gate e)))]) w).
    pose proof (_runGateWithTimeout_runner_events (gate e) ws) as Hgate.
    pose proof (_runGateWithTimeout_independent this code context (gate e) w0 ws) as Hsame.
    destruct (_runGateWithTimeout_spec this code context (gate e) ws)
      as (settled & w1 & l & Hrun & _ & _ & _ & Hres1 & _).
    rewrite Hrun in Hgate, Hsame. cbn [fst snd] in Hgate, Hsame.
    assert (Hws : Protocol.runner_events (trace ws)
                  = (Protocol.runner_events (trace w)
                       ++ [EvGateStarted (BaseQualityGate.name (gate e))])%list).
    { subst ws. cbn [set_trace trace]. by rewrite runner_events_app. }
    cbn [_runSequential]. rewrite Hon. cbn [negb].
    unfold bind at 1. unfold try_catch at 1. unfold bind at 1.
    unfold emit at 1, effect at 1, update at 1. unfold bind at 1. fold ws. rewrite Hrun.
    destruct settled as [r|error].
    + unfold bind at 1. unfold push_result at 1, update at 1. unfold bind at 1.
      set (w1' := set_results (results w1 ++ [r]) w1).
      pose proof (reportResult_runner_events (BaseQualityGate.name (gate e)) r w1') as Hrep.
      destruct (reportResult_frame (BaseQualityGate.name (gate e)) r w1')
        as (v & w2 & Hreport & _ & Hres2 & _).
      rewrite Hreport in Hrep |- *. cbn [snd] in Hrep.
      unfold bind at 1. unfold emit at 1, effect at 1, update at 1.
      match goal with |- context [set_trace ?tr w2] => set (w3 := set_trace tr w2) end.
      assert (Hw3 : results w3 = (results w ++ [r])%list
                    /\ Protocol.runner_events (trace w3)
                       = (Protocol.runner_events (trace w)
                            ++ [EvGateStarted (BaseQualityGate.name (gate e));
                                EvGateCompleted (BaseQualityGate.name (gate e)) r])%list).
      { subst w3 w1'. cbn [set_trace set_results results trace] in *.
        rewrite Hres2, Hres1. split; [done|].
        rewrite runner_events_app, Hrep, Hgate, Hws, <- app_assoc. reflexivity. }
      destruct Hw3 as [Hres3 Hev3].
      destruct (negb (continueOnFailure this) && is_str (get r "status") "failed") eqn:Hstop.
      * cbv beta iota zeta delta [bind emit effect update ret].
        eexists _, [r]. split; [reflexivity|].
        cbn [set_trace results trace length take flat_map].
        split; [exact Hres3|]. split; [lia|].
        rewrite take_0, runner_events_app, Hev3, Hsame. unfold Protocol.of_entry.
        cbn [flat_map]. rewrite Hon, Hstop, app_nil_r, <- app_assoc. reflexivity.
      * cbv beta iota zeta delta [bind ret].
        destruct (IH w3 w0) as (w4 & out & Hrest & Hres4 & Hlen & Hev4).
        exists w4, (r :: out). split; [exact Hrest|].
        split; [by rewrite Hres4, Hres3, <- app_assoc|].
        cbn [length take flat_map]. split; [lia|].
        rewrite Hev4, Hev3, Hsame.
        match goal with |- context [(?head ++ flat_map ?f ?l)%list] =>
          set (tail := flat_map f l) end.
        unfold Protocol.of_entry.
        rewrite Hon, Hstop, <- !app_assoc. reflexivity.
    + unfold bind at 1. unfold push_result at 1, update at 1. unfold bind at 1.
      set (w1' := set_results (results w1 ++ [error_result (gate e) error]) w1).
      pose proof (reportResult_runner_events (BaseQualityGate.name (gate e))
                    (error_result (gate e) error) w1') as Hrep.
      destruct (reportResult_frame (BaseQualityGate.name (gate e))
                  (error_result (gate e) error) w1')
        as (v & w2 & Hreport & _ & Hres2 & _).
      rewrite Hreport in Hrep |- *. cbn [snd] in Hrep.
      unfold bind at 1. unfold emit at 1, effect at 1, update at 1.
      match goal with |- context [set_trace ?tr w2] => set (w3 := set_trace tr w2) end.
      assert (Hw3 : results w3 = (results w ++ [error_result (gate e) error])%list
                    /\ Protocol.runner_events (trace w3)
                       = (Protocol.runner_events (trace w)
                            ++ [EvGateStarted (BaseQualityGate.name (gate e));
                                EvGateError (BaseQualityGate.name (gate e)) error])%list).
      { subst w3 w1'. cbn [set_trace set_results results trace] in *.
        rewrite Hres2, Hres1. split; [done|].
        rewrite runner_events_app, Hrep, Hgate, Hws, <- app_assoc. reflexivity. }
      destruct Hw3 as [Hres3 Hev3].
      destruct (negb (continueOnFailure this)) eqn:Hc.
      * cbv beta iota zeta delta [bind ret].
        eexists _, [_]. split; [reflexivity|]. cbn [length take flat_map].
        split; [exact Hres3|]. split; [lia|].
        rewrite take_0, Hev3, Hsame. unfold Protocol.of_entry.
        cbn [flat_map]. by rewrite Hon, app_nil_r.
      * cbv beta iota zeta delta [bind ret].
        destruct (IH w3 w0) as (w4 & out & Hrest & Hres4 & Hlen & Hev4).
        exists w4, (error_result (gate e) error :: out). split; [exact Hrest|].
        split; [by rewrite Hres4, Hres3, <- app_assoc|].
        cbn [length take flat_map]. split; [lia|].
        rewrite Hev4, Hev3, Hsame.
        match goal with |- context [(?head ++ flat_map ?f ?l)%list] =>
          set (tail := flat_map f l) end.
        unfold Protocol.of_entry.
        rewrite Hon, <- !app_assoc. reflexivity.
  - cbn [_runSequential]. rewrite Hon. cbn [negb].
    erewrite bind_resolved by reflexivity.
    match goal with |- context [bind (ResultReporter.reportResult ?n ?r) _ ?x] =>
      pose proof (reportResult_runner_events n r x) as Hrep;
      destruct (reportResult_frame n r x) as (v & w1 & Hreport & _ & Hres1 & _)
    end.
    rewrite Hreport in Hrep. cbn [snd set_results trace] in Hrep.
    erewrite bind_resolved by exact Hreport.
    destruct (IH w1 w0) as (w4 & out & Hrest & Hres4 & Hlen & Hev4).
    exists w4, (skipped_result (gate e) :: out). split; [exact Hrest|].
    cbn [set_results results] in Hres1.
    split; [by rewrite Hres4, Hres1, <- app_assoc|].
    cbn [length take flat_map]. split; [lia|].
    rewrite Hev4, Hrep.
    match goal with |- context [(?head ++ flat_map ?f ?l)%list] =>
      set (tail := flat_map f l) end.
    unfold Protocol.of_entry. by rewrite Hon.
Qed.

End RunnerEvents.

(** X27.  The events of the sequential loop.  For every gate it gets to,
    in order, the loop emits nothing when the entry is disabled, and
    otherwise ['gate-started'] followed by ['gate-completed'] with the
    result or, when the runner's timer fired, by ['gate-error'] with the
    timeout error; no other gate's events come in between.
    ['run-stopped'] is emitted only after a ['gate-completed'] whose
    result has status ['failed'] with [continueOnFailure] off; when the
    loop is left because the runner's timer fired, no ['run-stopped'] is
    emitted. *)
Theorem sequential_events
    (this : QualityRunner.t) (code : JsVal) (context : Obj) (w : World) :
  exists w' out,
    QualityRunner._runSequential this code context (QualityRunner.gates this) w
    = (Resolved tt, w')
    /\ results w' = (results w ++ out)%list
    /\ length out <= length (QualityRunner.gates this)
    /\ Protocol.runner_events (trace w')
       = (Protocol.runner_events (trace w)
            ++ flat_map
                 (fun e =>
                    Protocol.of_entry this e
                      (fst (QualityRunner._runGateWithTimeout this (QualityRunner.gate e)
                              code context w)))
                 (take (length out) (QualityRunner.gates this)))%list
    /\ (forall e error,
          Protocol.of_entry this e (Rejected error)
          = if QualityRunner.enabled e
            then [EvGateStarted (BaseQualityGate.name (QualityRunner.gate e));
                  EvGateError (BaseQualityGate.name (QualityRunner.gate e)) error]
            else [])
    /\ (forall e r,
          In (EvRunStopped "Gate failed" (BaseQualityGate.name (QualityRunner.gate e)))
            (Protocol.of_entry this e (Resolved r)) ->
          QualityRunner.continueOnFailure this = false /\ get r "status" = VStr "failed").
Proof.
  destruct (_runSequential_events this code context (QualityRunner.gates this) w w)
    as (w' & out & Hrun & Hres & Hlen & Hev).
  exists w', out. split; [exact Hrun|]. split; [exact Hres|]. split; [exact Hlen|].
  split; [exact Hev|]. split; [reflexivity|].
  intros e r. unfold Protocol.of_entry.
  destruct (QualityRunner.enabled e); [|by intros []].
  destruct (negb (QualityRunner.continueOnFailure this)) eqn:Hc; cbn [andb].
  - destruct (is_str (get r "status") "failed") eqn:Hs.
    + intros _. split; [by apply negb_true_iff|].
      unfold is_str in Hs. destruct (get r "status") as [| | | |s| |]; try discriminate.
      by apply String.eqb_eq in Hs as ->.
    + intros [H|[H|[]]]; discriminate.
  - intros [H|[H|[]]]; discriminate.
Qed.
